(** * publicLegiCrawler: a shallow embedding of the crawler and its properties

    The development follows the layout of the Python sources:
    - [dbConnector.py]   : the reentrant connection holder [DbConnector];
    - [legiConnector.py] : the request quota of [LegiConnector];
    - [basePattern.py]   : [Pattern.match];
    - [converter.py]     : the Legifrance agent, the database agent and the
                           [Middleman] that routes messages between them.

    Processes are modelled by state passing.  A process owns a state record;
    a Python function of that process is a computation on the record that may
    raise.  The state reached when an exception is raised is kept, because
    messages already sent through a pipe stay sent. *)

From Stdlib Require Import ZArith QArith Qround Lqa List String Ascii Lia.
From stdpp Require Import base gmap sets list strings sorting.

Local Open Scope string_scope.
Local Open Scope list_scope.
Local Open Scope Z_scope.

(** ** Python values, exceptions and effects *)

(** The exceptions the modelled code can raise.  [OutOfFuel] is not a Python
    exception: it marks a run of the model that reached the bound put on a
    [while] loop. *)
Inductive PyExc : Type :=
| IndexError
| KeyError
| TypeError
| AttributeError
| ValueError
| DatabaseError
| OutOfFuel.

(** Scalar values stored in dictionaries and sent to the database. *)
Inductive PyVal : Type :=
| VNone
| VBool (b : bool)
| VInt (z : Z)
| VStr (s : string).

(** Truth value of an object, as tested by [if x:]. *)
Definition truthy (v : PyVal) : bool :=
  match v with
  | VNone => false
  | VBool b => b
  | VInt z => negb (z =? 0)%Z
  | VStr s => negb (String.eqb s "")
  end.

(** A computation on a state [S]: either an exception or a value, together
    with the state reached. *)
Definition M (S A : Type) : Type := S -> (PyExc + A) * S.

#[global] Instance M_ret {S} : MRet (M S) := fun A a s => (inr a, s).

#[global] Instance M_bind {S} : MBind (M S) :=
  fun A B k c s =>
    match c s with
    | (inl e, s') => (inl e, s')
    | (inr a, s') => k a s'
    end.

Definition raise {S A} (e : PyExc) : M S A := fun s => (inl e, s).

Definition gets {S A} (f : S -> A) : M S A := fun s => (inr (f s), s).

(** The outcome of a call that does not touch the state. *)
Definition lift_result {S A} (r : PyExc + A) : M S A := fun s => (r, s).

Definition modify {S} (f : S -> S) : M S unit := fun s => (inr tt, f s).

(** Runs the plumbing of a computation, leaving the program's own
    functions folded. *)
Ltac py_run :=
  cbv beta iota delta [mbind mret M_bind M_ret gets modify raise lift_result].

Ltac py_run_in H :=
  cbv beta iota delta [mbind mret M_bind M_ret gets modify raise lift_result]
    in H.

(** [with mgr: body] for a context manager whose [__exit__] returns [None]:
    the exit runs on both outcomes of the body and an exception of the body
    is raised again afterwards. *)
Definition py_with {S A} (enter : M S unit) (exit : option PyExc -> M S unit)
    (body : M S A) : M S A :=
  fun s =>
    match enter s with
    | (inl e, s1) => (inl e, s1)
    | (inr _, s1) =>
        match body s1 with
        | (inr a, s2) =>
            match exit None s2 with
            | (inl e, s3) => (inl e, s3)
            | (inr _, s3) => (inr a, s3)
            end
        | (inl e, s2) =>
            match exit (Some e) s2 with
            | (inl e', s3) => (inl e', s3)
            | (inr _, s3) => (inl e, s3)
            end
        end
    end.

(** [for x in l: body x]. *)
Fixpoint py_for {S A} (l : list A) (body : A -> M S unit) : M S unit :=
  match l with
  | [] => mret tt
  | x :: l' => body x ;; py_for l' body
  end.

(** [l[i]] on a list. *)
Definition py_index {S A} (l : list A) (i : nat) : M S A :=
  match l !! i with
  | Some x => mret x
  | None => raise IndexError
  end.

(** ** The database behind psycopg2

    A statement is its text and its arguments.  The backend keeps the
    statements of the open transaction, the committed ones, the number of
    connections opened so far and the trace of every statement it was sent,
    fetches included. *)

Definition Row : Type := list PyVal.
Definition Stmt : Type := (string * Row)%type.

Record Database : Type := mkDatabase {
  opened : nat;
  pending : list Stmt;
  committed : list Stmt;
  trace : list Stmt
}.

(** What the backend answers.  [fetchall] gives the rows a query returns on
    the data written so far; [fault] tells which statements the backend
    rejects; both are functions of the committed and the pending
    statements.  [refused] tells in which states the server refuses a new
    connection, and [commit_fault] which transactions it fails to commit,
    given the committed and the pending statements. *)
Class Backend : Type := {
  fetchall : list Stmt -> list Stmt -> string -> Row -> list Row;
  fault : list Stmt -> list Stmt -> string -> Row -> bool;
  refused : Database -> bool;
  commit_fault : list Stmt -> list Stmt -> bool
}.

(** ** dbConnector.py *)

Module DbConnector.

Record t : Type := mk {
  _dbname : string;
  _user : string;
  _password : string;
  _host : string;
  _port : string;
  _connection : option nat;
  _nesting : Z
}.

(** [DbConnector.__init__]. *)
Definition __init__ (dbname user password host port : string) : t :=
  {| _dbname := dbname; _user := user; _password := password;
     _host := host; _port := port;
     _connection := None; _nesting := 0 |}.

Definition set_connection (c : option nat) (self : t) : t :=
  {| _dbname := _dbname self; _user := _user self;
     _password := _password self; _host := _host self; _port := _port self;
     _connection := c; _nesting := _nesting self |}.

Definition set_nesting (n : Z) (self : t) : t :=
  {| _dbname := _dbname self; _user := _user self;
     _password := _password self; _host := _host self; _port := _port self;
     _connection := _connection self; _nesting := n |}.

(** The process state seen by the connector: the object and the backend. *)
Record state : Type := mkState {
  self : t;
  db : Database
}.

Definition on_self (f : t -> t) (w : state) : state :=
  {| self := f (self w); db := db w |}.

Definition on_db (f : Database -> Database) (w : state) : state :=
  {| self := self w; db := f (db w) |}.

(** *** psycopg2, as far as the connector uses it *)

(** The backend once a connection more is open. *)
Definition db_opened (d : Database) : Database :=
  {| opened := S (opened d); pending := pending d;
     committed := committed d; trace := trace d |}.

(** [connection.__enter__]: it returns the connection and changes
    nothing. *)
Definition connection__enter__ : M state unit := mret tt.

(** The backend after a commit that went through. *)
Definition db_commit (d : Database) : Database :=
  {| opened := opened d; pending := [];
     committed := committed d ++ pending d; trace := trace d |}.

(** [connection.rollback()]; it is also what a commit that fails leaves
    behind: the transaction is given up. *)
Definition db_rollback (d : Database) : Database :=
  {| opened := opened d; pending := [];
     committed := committed d; trace := trace d |}.

Definition db_sent (q : string) (args : Row) (d : Database) : Database :=
  {| opened := opened d; pending := pending d;
     committed := committed d; trace := trace d ++ [(q, args)] |}.

Definition db_write (q : string) (args : Row) (d : Database) : Database :=
  {| opened := opened d; pending := pending d ++ [(q, args)];
     committed := committed d; trace := trace d |}.

Section Methods.
Context `{BE : Backend}.

(** [psycopg2.connect]: a new connection, numbered by its rank, unless the
    server refuses it; the call then raises (psycopg2's
    [OperationalError], a [DatabaseError]). *)
Definition connect : M state nat :=
  d ← gets db;
  if refused d then raise DatabaseError
  else
    modify (on_db db_opened) ;;
    mret (opened d).

(** [connection.commit()]: the pending statements are committed, unless the
    backend fails to commit them; the call then raises and the transaction
    is given up. *)
Definition connection_commit : M state unit :=
  d ← gets db;
  if commit_fault (committed d) (pending d)
  then modify (on_db db_rollback) ;; raise DatabaseError
  else modify (on_db db_commit).

(** [connection.__exit__]: the transaction is committed when the block ended
    normally and rolled back when it ended by an exception. *)
Definition connection__exit__ (exc : option PyExc) : M state unit :=
  match exc with
  | None => connection_commit
  | Some _ => modify (on_db db_rollback)
  end.

(** [cursor.execute(query, args)] of a statement whose result is not read:
    it joins the open transaction unless the backend rejects it. *)
Definition cursor_execute (q : string) (args : Row) : M state unit :=
  modify (on_db (db_sent q args)) ;;
  d ← gets db;
  if fault (committed d) (pending d) q args
  then raise DatabaseError
  else modify (on_db (db_write q args)).

(** [cursor.execute(query, args)] followed by [cursor.fetchall()]. *)
Definition cursor_execute_fetchall (q : string) (args : Row)
    : M state (list Row) :=
  modify (on_db (db_sent q args)) ;;
  d ← gets db;
  if fault (committed d) (pending d) q args
  then raise DatabaseError
  else mret (fetchall (committed d) (pending d) q args).

(** [psycopg2.extras.execute_batch(cursor, query, params)]. *)
Definition execute_batch (q : string) (params : list Row) : M state unit :=
  py_for params (cursor_execute q).

(** [self._connection.cursor()] used as a context manager: it needs a
    connection object; entering and leaving the cursor changes nothing. *)
Definition with_cursor {A} (body : M state A) : M state A :=
  c ← gets (fun w => _connection (self w));
  match c with
  | None => raise AttributeError
  | Some _ => body
  end.

(** [DbConnector.__enter__]. *)
Definition __enter__ : M state unit :=
  n ← gets (fun w => _nesting (self w));
  if negb (n =? 0)%Z
  then modify (on_self (set_nesting (n + 1)))
  else
    modify (on_self (set_nesting 1)) ;;
    c ← connect;
    modify (on_self (set_connection (Some c))) ;;
    connection__enter__.

(** [DbConnector.__exit__]. *)
Definition __exit__ (exc : option PyExc) : M state unit :=
  modify (on_self (fun o => set_nesting (_nesting o - 1) o)) ;;
  n ← gets (fun w => _nesting (self w));
  if (n =? 0)%Z
  then
    c ← gets (fun w => _connection (self w));
    match c with
    | None => raise AttributeError
    | Some _ => connection__exit__ exc
    end ;;
    modify (on_self (set_connection None))
  else mret tt.

(** [with self: body]. *)
Definition with_self {A} (body : M state A) : M state A :=
  py_with __enter__ __exit__ body.

(** [DbConnector.execute]. *)
Definition execute (query : string) : M state unit :=
  with_self (with_cursor (cursor_execute query [])).

(** [query.strip()]: white space removed at both ends.  A string is the
    sequence of its characters, each a code point below 256; among these
    [str.isspace] holds of U+0009 to U+000D, U+001C to U+0020, U+0085 and
    U+00A0. *)
Definition is_space (a : ascii) : bool :=
  let n := nat_of_ascii a in
  (((9 <=? n) && (n <=? 13)) || ((28 <=? n) && (n <=? 32))
   || (n =? 133) || (n =? 160))%nat.

Fixpoint lstrip (s : string) : string :=
  match s with
  | String a s' => if is_space a then lstrip s' else s
  | EmptyString => EmptyString
  end.

Definition strip (s : string) : string :=
  String.rev (lstrip (String.rev (lstrip s))).

(** [s.startswith(p)]. *)
Definition startswith (s p : string) : bool := String.prefix p s.

(** [",".join(l)]. *)
Fixpoint join (sep : string) (l : list string) : string :=
  match l with
  | [] => ""
  | [x] => x
  | x :: l' => x +:+ sep +:+ join sep l'
  end.

(** [DbConnector.executeMany].  Its last statement calls
    [self._executeMany], an attribute that neither [__init__] nor the class
    body defines: looking it up raises [AttributeError]. *)
Definition executeMany (query : string) (params : list Row) : M state unit :=
  match params with
  | [] => mret tt
  | p0 :: _ =>
      let prepared := startswith (strip query) "EXECUTE" in
      let placeholder :=
        " (" +:+ join "," (List.map (fun _ => "%s") (seq 0 (length p0))) +:+ ")" in
      let mainQuery :=
        if negb prepared then "EXECUTE stmt" +:+ placeholder else query in
      with_self
        (with_cursor
           ((if negb prepared
             then cursor_execute ("PREPARE stmt AS " +:+ query) []
             else mret tt) ;;
            execute_batch mainQuery params ;;
            (if negb prepared
             then cursor_execute "DEALLOCATE stmt" []
             else mret tt) ;;
            raise AttributeError))
  end.

(** [DbConnector.executeAndFetch]. *)
Definition executeAndFetch (query : string) (args : Row) : M state (list Row) :=
  with_self (with_cursor (cursor_execute_fetchall query args)).

(** [DbConnector.commit]. *)
Definition commit : M state unit :=
  c ← gets (fun w => _connection (self w));
  match c with
  | None => raise AttributeError
  | Some _ => connection_commit
  end.

End Methods.

(** *** What the properties of the connector speak of *)

(** The connection is held exactly when the nesting counter is positive. *)
Definition invariant (w : state) : Prop :=
  is_Some (_connection (self w)) <-> 0 < _nesting (self w).

(** The connector inside a [with] block: the counter is positive and the
    connection is there. *)
Definition in_block (w : state) : Prop :=
  0 < _nesting (self w) /\ is_Some (_connection (self w)).

(** The backend after it was sent the statements [l] without writing. *)
Definition db_sent_all (l : list Stmt) (d : Database) : Database :=
  {| opened := opened d; pending := pending d;
     committed := committed d; trace := trace d ++ l |}.

(** A computation that touches the backend only, and there neither the
    committed statements nor the count of connections. *)
Definition db_only {A} (c : M state A) : Prop :=
  forall w r w',
    c w = (r, w') ->
    self w' = self w /\
    committed (db w') = committed (db w) /\
    opened (db w') = opened (db w).

End DbConnector.

(** ** legiConnector.py *)

Module LegiConnector.

(** Number of seconds of the quota. *)
Definition _PERIOD : Z := 60.

(** Maximal number of requests in a time period. *)
Definition _QUOTA_LIMIT : Z := 100.

Record t : Type := mk {
  _dummy : bool;
  _quotas : list Z
}.

(** The part of [LegiConnector.__init__] that concerns the quota. *)
Definition __init__ (dummy : bool) : t :=
  {| _dummy := dummy; _quotas := [] |}.

(** The process state: the object, the wall clock, and the second at which
    each request was let through since the object was created. *)
Record state : Type := mkState {
  self : t;
  wall : Q;
  issued : list Z
}.

Definition set_quotas (q : list Z) (w : state) : state :=
  {| self := {| _dummy := _dummy (self w); _quotas := q |};
     wall := wall w; issued := issued w |}.

Definition set_wall (now : Q) (w : state) : state :=
  {| self := self w; wall := now; issued := issued w |}.

(** A lapse of time: a non-negative rational number of seconds. *)
Record Lapse : Type := mkLapse {
  lapse_num : N;
  lapse_den : positive
}.

Definition lapse_Q (d : Lapse) : Q := Z.of_N (lapse_num d) # lapse_den d.

(** The time that passes before each clock reading of one call of
    [_waitIfNeeded]. *)
Record Elapsed : Type := mkElapsed {
  before_scan1 : Lapse;
  before_sleep : Lapse;
  before_scan2 : Lapse;
  before_stamp : Lapse
}.

(** [time()], read after the given lapse. *)
Definition time (d : Lapse) : M state Q :=
  fun w => let now := (wall w + lapse_Q d)%Q in (inr now, set_wall now w).

(** [int(x)] on a float: truncation towards zero. *)
Definition py_int (x : Q) : Z :=
  if Qle_bool 0 x then Qfloor x else Qceiling x.

(** [sleep(secs)]: the clock advances by [secs]; a negative argument is
    refused.  What the sleep lasts beyond [secs] is part of the lapse before
    the next reading. *)
Definition sleep (secs : Z) : M state unit :=
  if (secs <? 0)%Z then raise ValueError
  else modify (fun w => set_wall (wall w + inject_Z secs)%Q w).

(** The loop of [_checkQuotas]: [l] is [self._quotas[i:]]. *)
Fixpoint scan (now : Q) (l : list Z) (i : nat) : nat :=
  match l with
  | [] => i
  | q :: l' =>
      if QMicromega.Qlt_bool (inject_Z q) now then scan now l' (S i) else i
  end.

(** [LegiConnector._checkQuotas]. *)
Definition _checkQuotas (d : Lapse) : M state unit :=
  let i := 0%nat in
  now ← time d;
  q ← gets (fun w => _quotas (self w));
  let i := scan now q i in
  modify (set_quotas (drop i q)).

(** [LegiConnector._waitIfNeeded]; [e] is the time that passes before its
    clock readings.  The last step appends the expiry to the window and
    notes the second of the request in [issued]. *)
Definition _waitIfNeeded (path : string) (e : Elapsed) : M state unit :=
  _checkQuotas (before_scan1 e) ;;
  q ← gets (fun w => _quotas (self w));
  (if (_QUOTA_LIMIT <=? Z.of_nat (length q))%Z
   then
     q0 ← py_index q 0;
     now ← time (before_sleep e);
     sleep (q0 - py_int now + 1)
   else mret tt) ;;
  _checkQuotas (before_scan2 e) ;;
  now ← time (before_stamp e);
  let expiry := py_int now + _PERIOD in
  modify (fun w =>
    {| self := {| _dummy := _dummy (self w);
                  _quotas := _quotas (self w) ++ [expiry] |};
       wall := wall w; issued := issued w ++ [py_int now] |}).

(** [LegiConnector.post]: the quota is consulted, then the request goes to
    the dummy or to the server. *)
Definition post {Req Resp : Type}
    (_dummyResults server : string -> Req -> PyExc + Resp)
    (e : Elapsed) (path : string) (payload : Req) : M state Resp :=
  _waitIfNeeded path e ;;
  dummy ← gets (fun w => _dummy (self w));
  lift_result (if (dummy : bool)
               then _dummyResults path payload
               else server path payload).

(** A sequence of requests, each with its path. *)
Definition requests (es : list (string * Elapsed)) : M state unit :=
  py_for es (fun r => _waitIfNeeded (fst r) (snd r)).

(** The requests of [l] let through within the [_PERIOD] seconds that end
    with second [now]. *)
Definition recent (now : Z) (l : list Z) : list Z :=
  List.filter (fun s => (now - _PERIOD <? s)%Z) l.

(** What holds of the state between calls: the window holds the expiries of
    the latest requests, every request before them has expired, the window
    is within the limit and the requests are in order of time. *)
Record Inv (w : state) : Prop := mkInv {
  inv_split :
    exists old cur,
      issued w = old ++ cur /\
      _quotas (self w) = (fun s => s + _PERIOD) <$> cur /\
      Forall (fun s => (inject_Z (s + _PERIOD) < wall w)%Q) old;
  inv_length : Z.of_nat (length (_quotas (self w))) <= _QUOTA_LIMIT;
  inv_sorted : StronglySorted Z.le (issued w);
  inv_past : Forall (fun s => s <= py_int (wall w)) (issued w)
}.

(** The state after [_waitIfNeeded], from the window [kept1] left by the
    first scan and the time [now3] of the second scan. *)
Definition after_wait (w : state) (kept1 : list Z) (now3 : Q) (l4 : Lapse)
    : state :=
  let kept2 := drop (scan now3 kept1 0) kept1 in
  let now4 := (now3 + lapse_Q l4)%Q in
  {| self := {| _dummy := _dummy (self w);
                _quotas := kept2 ++ [py_int now4 + _PERIOD] |};
     wall := now4;
     issued := issued w ++ [py_int now4] |}.

(** A call in which no time passes between the clock readings, and a call
    that comes [d] after the call before it. *)
Definition no_lapse : Lapse := mkLapse 0 1.

Definition at_once : Elapsed :=
  mkElapsed no_lapse no_lapse no_lapse no_lapse.

Definition after (d : Lapse) : Elapsed :=
  mkElapsed d no_lapse no_lapse no_lapse.

(** The time at which each request of a sequence is let through: the last
    clock reading of its call, where the clock stands when the call
    returns. *)
Fixpoint stamps (es : list (string * Elapsed)) (w : state) : list Q :=
  match es with
  | [] => []
  | r :: es' =>
      let w' := snd (_waitIfNeeded (fst r) (snd r) w) in
      wall w' :: stamps es' w'
  end.

End LegiConnector.

(** ** basePattern.py *)

(** The [re] module.  [re_match regex text] is [re.match(regex, text)[0]]
    for a string [text], when there is a match. *)
Class Regex : Type := {
  re_match : string -> string -> option string
}.

Module Pattern.

(** A pattern: its regex, and [captures part] for
    [Bricks.flatten(self._matchPart(part))]: the records captured in [part]
    as dictionaries from group names to captured text (the groups, the
    ignored values and the nested pattern of the object decide them), or
    the exception that [_matchPart] raises, as it does when it reads a
    group which the regex does not have. *)
Record t : Type := mk {
  regex : string;
  captures : string -> PyExc + list (gmap string string)
}.

Section Methods.
Context `{RE : Regex}.

(** [re.match(pattern, text)]: anything but a string is refused with
    [TypeError]. *)
Definition re__match {S} (pattern : string) (text : option string)
    : M S (option string) :=
  match text with
  | None => raise TypeError
  | Some s => mret (re_match pattern s)
  end.

(** [Pattern.match]. *)
Definition match_ {S} (self : t) (text : option string)
    : M S (option (list (gmap string string))) :=
  m ← re__match (regex self) text;
  match m with
  | None => mret None
  | Some m0 =>
      records ← lift_result (captures self m0);
      mret (Some records)
  end.

End Methods.
End Pattern.

Module TextPattern.

(** A subclass of [TextPattern]: its [main] pattern and its static method
    [prepareForInsertion]; [prepareForInsertion parsed cid] stands for
    [list(cls.prepareForInsertion(parsed, cid))]: the rows the generator
    yields, or the exception it raises on the way, as when a cast refuses
    a captured value. *)
Record t : Type := mk {
  main : Pattern.t;
  prepareForInsertion :
    list (gmap string string) -> string -> PyExc + list Row
}.

(** [TextPattern.match]. *)
Definition match_ `{RE : Regex} {S} (cls : t) (text : option string)
    : M S (option (list (gmap string string))) :=
  Pattern.match_ (main cls) text.

End TextPattern.

(** ** legiStructure.py and dbStructure.py, as far as converter.py uses them *)

(** [SearchFilters]: an enumeration whose members carry the patterns of the
    texts they retrieve ([structs]) and the search payload; of the payload
    only the dictionary under ["recherche"] is used. *)
Class LegiStructure : Type := {
  SearchFilters : Type;
  SearchFilters_eq :: EqDecision SearchFilters;
  SearchFilters_countable :: Countable SearchFilters;
  structs : SearchFilters -> list TextPattern.t;
  payload : SearchFilters -> gmap string PyVal
}.

(** [Statements]: the text of the four queries, and [prepareStatements]. *)
Class DbStructure : Type := {
  selectCid : string;
  insertFailed : string;
  insertParsed : string;
  insertRecord : string;
  prepareStatements : M DbConnector.state unit
}.

(** ** The answers of the Legifrance API *)

Record Title : Type := mkTitle {
  title_cid : string
}.

Record SearchResult : Type := mkSearchResult {
  titles : list Title
}.

(** Answer to [/search]. *)
Record SearchResponse : Type := mkSearchResponse {
  totalResultNumber : Z;
  search_results : list SearchResult
}.

Record Article : Type := mkArticle {
  article_content : string
}.

(** Answer to [/consult/jorf].  The date is a timestamp in milliseconds,
    or [None] where the answer holds [null]. *)
Record JorfText : Type := mkJorfText {
  jorf_cid : string;
  dateParution : option Z;
  articles : list Article
}.

(** What converter.py needs of its [legiConnector] argument: the answer of
    [post("/search", payload)] and of [post("/consult/jorf",
    {"textCid": cid})]. *)
Record Connector : Type := mkConnector {
  post_search : gmap string PyVal -> PyExc + SearchResponse;
  post_consult : string -> PyExc + JorfText
}.

(** The CIDs of a page of results, in the order of the answer. *)
Definition page_cids (r : SearchResponse) : list string :=
  (fun x => match titles x with
            | t :: _ => title_cid t
            | [] => ""
            end) <$> search_results r.

(** Every result of the page has a title. *)
Definition titled (r : SearchResponse) : Prop :=
  Forall (fun x => titles x <> []) (search_results r).

(** The number of results returned by the pages. *)
Definition returned (pages : list SearchResponse) : Z :=
  Z.of_nat (length (concat (search_results <$> pages))).

(** ** converter.py: the messages *)

(** The dictionary built by [_filterLegiText]. *)
Record FilteredText : Type := mkFilteredText {
  cid : string;
  publicationDate : option Z;
  content : option string
}.

(** The dictionary built by [_parseText]: ["success"] false with the CID, or
    ["success"] true with the CID, the publication date and the data. *)
Inductive ParsedText : Type :=
| Failure (cid : string)
| Success (cid : string) (publicationDate : Z) (data : list Row).

Definition parsed_cid (text : ParsedText) : string :=
  match text with
  | Failure c => c
  | Success c _ _ => c
  end.

(** Messages from the database agent: [Markers.END], [(Markers.TEXT_LIST,
    refCid, cids)] and [(Markers.TEXT, cid)]. *)
Inductive DbMsg : Type :=
| DbEnd
| DbTextList (refCid : string) (cids : list string)
| DbText (cid : string).

(** Orders to the database agent: [Markers.END], [(Markers.TEXT_LIST,
    cidList)] and [(Markers.TEXT, texts)]. *)
Inductive DbOrder : Type :=
| OrderDbEnd
| OrderDbTextList (cidList : string + list string)
| OrderDbText (texts : ParsedText + list ParsedText).

(** Orders to the Legifrance agent of the form [(Markers.TEXT, cids)]; the
    other orders name a search filter and come below. *)
Definition CidOrList : Type := (string + list string)%type.

(** One end of a duplex pipe: the messages that have arrived and are not
    read yet, and the messages sent. *)
Record Pipe (In Out : Type) : Type := mkPipe {
  inbox : list In;
  outbox : list Out
}.
Arguments mkPipe {In Out} _ _.
Arguments inbox {In Out} _.
Arguments outbox {In Out} _.

Section Converter.
Context `{RE : Regex, LS : LegiStructure, DS : DbStructure, BE : Backend}.

(** Messages from the Legifrance agent: [(Markers.END, criteria)],
    [(Markers.TEXT_LIST, criteria, textList)] and [(Markers.TEXT, text)]. *)
Inductive LegiMsg : Type :=
| LegiEnd (criteria : SearchFilters)
| LegiTextList (criteria : SearchFilters) (textList : list string)
| LegiText (text : FilteredText).

(** Orders to the Legifrance agent: [Markers.END], [(Markers.TEXT_LIST,
    criteria)] and [(Markers.TEXT, cids)]. *)
Inductive LegiOrder : Type :=
| OrderLegiEnd
| OrderLegiTextList (criteria : SearchFilters)
| OrderLegiText (cids : CidOrList).

(** Messages from the control connection: [Markers.END] or a member of
    [SearchFilters]. *)
Inductive Command : Type :=
| CommandEnd
| CommandFilter (criteria : SearchFilters).

(** *** [_parseText] *)

(** The loop of [_parseText]: the first pattern that matches, with what it
    captured. *)
Fixpoint first_match {S} (patterns : list TextPattern.t) (text : option string)
    : M S (option (TextPattern.t * list (gmap string string))) :=
  match patterns with
  | [] => mret None
  | p :: patterns' =>
      tmpResult ← TextPattern.match_ p text;
      match tmpResult with
      | None => first_match patterns' text
      | Some r => mret (Some (p, r))
      end
  end.

Definition _parseText {S} (text : FilteredText) (criteria : SearchFilters)
    : M S ParsedText :=
  let patterns := structs criteria in
  found ← first_match patterns (content text);
  match found with
  | None => mret (Failure (cid text))
  | Some (p, tmpResult) =>
      match publicationDate text with
      | None => raise TypeError
      | Some milliseconds =>
          let date := milliseconds / 1000 in
          data ← lift_result
                   (TextPattern.prepareForInsertion p tmpResult (cid text));
          mret (Success (cid text) date data)
      end
  end.

(** *** The Legifrance agent *)

(** [_getTextIdListHelper].  The page number is written into the shared
    payload before the request and popped after it, so the payload sent is
    the filter's payload with that page number. *)
Definition _getTextIdListHelper {S} (pageNumber : Z) (criteria : SearchFilters)
    (legiConnector : Connector) (resultNumber : Z)
    : M S (Z * Z * Z * list string) :=
  let currentCriteria := <["pageNumber" := VInt pageNumber]> (payload criteria) in
  results ← lift_result (post_search legiConnector currentCriteria);
  let totalResultNumber := totalResultNumber results in
  let resultNumber := resultNumber + Z.of_nat (length (search_results results)) in
  let pageNumber := pageNumber + 1 in
  textList ← mapM (fun x => t ← py_index (titles x) 0; mret (title_cid t))
                  (search_results results);
  mret (pageNumber, resultNumber, totalResultNumber, textList).

(** The [while] loop of [_getTextIdList], unrolled at most [fuel] times;
    [yield] is the body of the [for] loop that consumes the generator. *)
Fixpoint _getTextIdList_loop {S} (fuel : nat) (legiConnector : Connector)
    (criteria : SearchFilters) (yield : list string -> M S unit)
    (pageNumber currentResultNumber totalResultNumber : Z) : M S unit :=
  if (currentResultNumber <? totalResultNumber)%Z
  then
    match fuel with
    | O => raise OutOfFuel
    | Datatypes.S fuel' =>
        r ← _getTextIdListHelper pageNumber criteria legiConnector
              currentResultNumber;
        let '(pageNumber, currentResultNumber, totalResultNumber, textList) := r in
        yield textList ;;
        _getTextIdList_loop fuel' legiConnector criteria yield
          pageNumber currentResultNumber totalResultNumber
    end
  else mret tt.

(** [_getTextIdList]. *)
Definition _getTextIdList {S} (fuel : nat) (legiConnector : Connector)
    (criteria : SearchFilters) (yield : list string -> M S unit) : M S unit :=
  let pageNumber := 1 in
  let currentResultNumber := 0 in
  r ← _getTextIdListHelper pageNumber criteria legiConnector
        currentResultNumber;
  let '(pageNumber, currentResultNumber, totalResultNumber, textList) := r in
  yield textList ;;
  _getTextIdList_loop fuel legiConnector criteria yield
    pageNumber currentResultNumber totalResultNumber.

(** [_getText]. *)
Definition _getText {S} (legiConnector : Connector) (cid : CidOrList)
    (yield : JorfText -> M S unit) : M S unit :=
  let retrieve :=
    match cid with
    | inr l => l
    | inl c => [c]
    end in
  py_for retrieve (fun e =>
    result ← lift_result (post_consult legiConnector e);
    yield result).

(** [_filterLegiText]. *)
Definition _filterLegiText {S} (text : JorfText) : M S FilteredText :=
  content ←
    (if (length (articles text) =? 1)%nat
     then a ← py_index (articles text) 0; mret (Some (article_content a))
     else mret None);
  mret {| cid := jorf_cid text;
          publicationDate := dateParution text;
          content := content |}.

(** [pipeEnd.send] of the Legifrance agent: its state is what it has sent. *)
Definition legi_send (m : LegiMsg) : M (list LegiMsg) unit :=
  modify (fun sent => sent ++ [m]).

(** What [createTextProvider] does with one order other than
    [Markers.END]. *)
Definition textProvider_order (fuel : nat) (connector : Connector)
    (order : LegiOrder) : M (list LegiMsg) unit :=
  match order with
  | OrderLegiTextList criteria =>
      _getTextIdList fuel connector criteria
        (fun textList => legi_send (LegiTextList criteria textList)) ;;
      legi_send (LegiEnd criteria)
  | OrderLegiText cids =>
      _getText connector cids
        (fun text => t ← _filterLegiText text; legi_send (LegiText t))
  | OrderLegiEnd => mret tt
  end.

(** [createTextProvider], on the orders that arrive on its pipe.  It returns
    [true] when it has received [Markers.END] and [false] when the orders
    are used up and it waits in [recv]. *)
Fixpoint createTextProvider (fuel : nat) (connector : Connector)
    (orders : list LegiOrder) : M (list LegiMsg) bool :=
  match orders with
  | [] => mret false
  | OrderLegiEnd :: _ => mret true
  | order :: orders' =>
      textProvider_order fuel connector order ;;
      createTextProvider fuel connector orders'
  end.

(** *** The database agent *)

(** The state of the database process: the connector with its backend, and
    what has been sent through the pipe. *)
Record Store : Type := mkStore {
  store_conn : DbConnector.state;
  store_sent : list DbMsg
}.

(** A method of the connector, run by the process. *)
Definition on_conn {A} (c : M DbConnector.state A) : M Store A :=
  fun s =>
    let '(r, w) := c (store_conn s) in
    (r, {| store_conn := w; store_sent := store_sent s |}).

(** [pipeEnd.send] of the database agent. *)
Definition db_send (m : DbMsg) : M Store unit :=
  modify (fun s =>
    {| store_conn := store_conn s; store_sent := store_sent s ++ [m] |}).

(** The [for] loop of [_checkIfKnown] on the indices [range]; [cidList] is
    the list it updates in place. *)
Fixpoint _checkIfKnown_loop (range : list nat) (cidList : list (option string))
    : M Store (list (option string)) :=
  match range with
  | [] => mret cidList
  | i :: range' =>
      cid ← py_index cidList i;
      let arg := match cid with Some c => VStr c | None => VNone end in
      result ← on_conn (DbConnector.executeAndFetch selectCid [arg]);
      row ← py_index result 0;
      known ← py_index row 0;
      _checkIfKnown_loop range'
        (if truthy known then <[i := None]> cidList else cidList)
  end.

(** [_checkIfKnown]. *)
Definition _checkIfKnown (cidList : string + list string) : M Store unit :=
  let cidList :=
    match cidList with
    | inl c => [c]
    | inr l => l
    end in
  refCid ← py_index cidList 0;
  cidList ← _checkIfKnown_loop (seq 0 (length cidList)) (Some <$> cidList);
  db_send (DbTextList refCid (omap id cidList)).

(** The first loop of [_storeText]: [(success, failure)]. *)
Fixpoint partition_texts (texts : list ParsedText)
    (success : list ParsedText) (failure : list string)
    : list ParsedText * list string :=
  match texts with
  | [] => (success, failure)
  | text :: texts' =>
      match text with
      | Success _ _ _ => partition_texts texts' (success ++ [text]) failure
      | Failure c => partition_texts texts' success (failure ++ [c])
      end
  end.

(** The arguments of [Statements.insertParsed] for a parsed text. *)
Definition parsed_args (x : ParsedText) : Row :=
  match x with
  | Success c d _ => [VStr c; VInt d]
  | Failure c => [VStr c]
  end.

Definition parsed_data (x : ParsedText) : list Row :=
  match x with
  | Success _ _ data => data
  | Failure _ => []
  end.

(** [_storeText]. *)
Definition _storeText (texts : ParsedText + list ParsedText) : M Store unit :=
  let texts :=
    match texts with
    | inl text => [text]
    | inr l => l
    end in
  let '(success, failure) := partition_texts texts [] [] in
  (if bool_decide (failure ≠ [])
   then on_conn (DbConnector.executeMany insertFailed
                   ((fun x => [VStr x]) <$> failure))
   else mret tt) ;;
  (if bool_decide (success ≠ [])
   then
     on_conn (DbConnector.executeMany insertParsed (parsed_args <$> success)) ;;
     on_conn (DbConnector.executeMany insertRecord
                (concat (parsed_data <$> success)))
   else mret tt) ;;
  on_conn DbConnector.commit ;;
  py_for texts (fun text => db_send (DbText (parsed_cid text))) ;;
  db_send DbEnd.




(** *** The Middleman *)

Inductive Markers : Type :=
| END
| TEXT_LIST
| TEXT.

(** The elements of [_commandsSet]: the string ["wait"] and the search
    filters whose list of texts is being retrieved. *)
Inductive Item : Type :=
| wait
| filter_ (criteria : SearchFilters).

#[global] Instance Item_eq_dec : EqDecision Item.
Proof. solve_decision. Defined.

#[global] Instance Item_countable : Countable Item.
Proof.
  refine (inj_countable'
            (fun i => match i with wait => None | filter_ c => Some c end)
            (fun o => match o with None => wait | Some c => filter_ c end) _).
  intros []; reflexivity.
Defined.

Record Middleman : Type := mkMiddleman {
  _commandsSet : gset Item;
  _commandsDict : gmap string SearchFilters;
  _toLegi : Pipe LegiMsg LegiOrder;
  _toDb : Pipe DbMsg DbOrder;
  _fromCommand : Pipe Command Markers
}.

Definition set_commandsSet (f : gset Item -> gset Item) (m : Middleman)
    : Middleman :=
  {| _commandsSet := f (_commandsSet m); _commandsDict := _commandsDict m;
     _toLegi := _toLegi m; _toDb := _toDb m; _fromCommand := _fromCommand m |}.

Definition set_commandsDict
    (f : gmap string SearchFilters -> gmap string SearchFilters)
    (m : Middleman) : Middleman :=
  {| _commandsSet := _commandsSet m; _commandsDict := f (_commandsDict m);
     _toLegi := _toLegi m; _toDb := _toDb m; _fromCommand := _fromCommand m |}.

Definition set_toLegi (f : Pipe LegiMsg LegiOrder -> Pipe LegiMsg LegiOrder)
    (m : Middleman) : Middleman :=
  {| _commandsSet := _commandsSet m; _commandsDict := _commandsDict m;
     _toLegi := f (_toLegi m); _toDb := _toDb m;
     _fromCommand := _fromCommand m |}.

Definition set_toDb (f : Pipe DbMsg DbOrder -> Pipe DbMsg DbOrder)
    (m : Middleman) : Middleman :=
  {| _commandsSet := _commandsSet m; _commandsDict := _commandsDict m;
     _toLegi := _toLegi m; _toDb := f (_toDb m);
     _fromCommand := _fromCommand m |}.

Definition set_fromCommand (f : Pipe Command Markers -> Pipe Command Markers)
    (m : Middleman) : Middleman :=
  {| _commandsSet := _commandsSet m; _commandsDict := _commandsDict m;
     _toLegi := _toLegi m; _toDb := _toDb m;
     _fromCommand := f (_fromCommand m) |}.

(** [pipe.send(x)]. *)
Definition send {In Out} (x : Out) (p : Pipe In Out) : Pipe In Out :=
  {| inbox := inbox p; outbox := outbox p ++ [x] |}.

(** [pipe.poll(0)]. *)
Definition poll {In Out} (p : Pipe In Out) : bool :=
  match inbox p with
  | [] => false
  | _ :: _ => true
  end.

(** The pipe after [pipe.recv()]. *)
Definition received {In Out} (p : Pipe In Out) : Pipe In Out :=
  {| inbox := tail (inbox p); outbox := outbox p |}.

(** Messages arriving on a pipe. *)
Definition arrive {In Out} (l : list In) (p : Pipe In Out) : Pipe In Out :=
  {| inbox := inbox p ++ l; outbox := outbox p |}.

(** [s.remove(x)] on a set. *)
Definition set_remove (x : Item) : M Middleman unit :=
  s ← gets _commandsSet;
  if bool_decide (x ∈ s)
  then modify (set_commandsSet (fun s => s ∖ {[x]}))
  else raise KeyError.

(** [d[k]] on the dictionary. *)
Definition dict_get (k : string) : M Middleman SearchFilters :=
  d ← gets _commandsDict;
  match d !! k with
  | Some v => mret v
  | None => raise KeyError
  end.

(** [d.pop(k)] on the dictionary. *)
Definition dict_pop (k : string) : M Middleman SearchFilters :=
  v ← dict_get k;
  modify (set_commandsDict (delete k)) ;;
  mret v.

(** [d[k] = v] on the dictionary. *)
Definition dict_set (k : string) (v : SearchFilters) : M Middleman unit :=
  modify (set_commandsDict (<[k := v]>)).

(** The body of the loop of [_handleOrder]. *)
Definition _handleOrder_message (message : Command) : M Middleman unit :=
  match message with
  | CommandEnd => set_remove wait
  | CommandFilter criteria =>
      modify (set_commandsSet (fun s => s ∪ {[filter_ criteria]})) ;;
      modify (set_toLegi (send (OrderLegiTextList criteria)))
  end.

(** The loop of [_handleOrder]; [n] bounds the number of messages read. *)
Fixpoint _handleOrder_loop (n : nat) : M Middleman unit :=
  match n with
  | O => mret tt
  | Datatypes.S n' =>
      p ← gets _fromCommand;
      s ← gets _commandsSet;
      if poll p && bool_decide (wait ∈ s)
      then
        match inbox p with
        | [] => mret tt
        | message :: _ =>
            modify (set_fromCommand received) ;;
            _handleOrder_message message ;;
            _handleOrder_loop n'
        end
      else mret tt
  end.

(** [Middleman._handleOrder]. *)
Definition _handleOrder : M Middleman unit :=
  p ← gets _fromCommand;
  _handleOrder_loop (length (inbox p)).

(** The body of the loop of [_handleLegiMsg].  The assignment to the
    dictionary is guarded by [except KeyError], which prints the message and
    raises again; an [IndexError] of [message[2][0]] passes through it. *)
Definition _handleLegiMsg_message (message : LegiMsg) : M Middleman unit :=
  match message with
  | LegiEnd criteria => set_remove (filter_ criteria)
  | LegiTextList criteria textList =>
      modify (set_toDb (send (OrderDbTextList (inr textList)))) ;;
      key ← py_index textList 0;
      dict_set key criteria
  | LegiText text =>
      criteria ← dict_get (cid text);
      text ← _parseText text criteria;
      modify (set_toDb (send (OrderDbText (inl text))))
  end.

Fixpoint _handleLegiMsg_loop (n : nat) : M Middleman unit :=
  match n with
  | O => mret tt
  | Datatypes.S n' =>
      p ← gets _toLegi;
      match inbox p with
      | [] => mret tt
      | message :: _ =>
          modify (set_toLegi received) ;;
          _handleLegiMsg_message message ;;
          _handleLegiMsg_loop n'
      end
  end.

(** [Middleman._handleLegiMsg]. *)
Definition _handleLegiMsg : M Middleman unit :=
  p ← gets _toLegi;
  _handleLegiMsg_loop (length (inbox p)).

(** The body of the loop of [_handleDbMsg]. *)
Definition _handleDbMsg_message (message : DbMsg) : M Middleman unit :=
  match message with
  | DbEnd => mret tt
  | DbTextList refCid cids =>
      criteria ← dict_pop refCid;
      if bool_decide (cids ≠ [])
      then
        py_for cids (fun cid => dict_set cid criteria) ;;
        modify (set_toLegi (send (OrderLegiText (inr cids))))
      else mret tt
  | DbText cid => dict_pop cid ;; mret tt
  end.

Fixpoint _handleDbMsg_loop (n : nat) : M Middleman unit :=
  match n with
  | O => mret tt
  | Datatypes.S n' =>
      p ← gets _toDb;
      match inbox p with
      | [] => mret tt
      | message :: _ =>
          modify (set_toDb received) ;;
          _handleDbMsg_message message ;;
          _handleDbMsg_loop n'
      end
  end.

(** [Middleman._handleDbMsg]. *)
Definition _handleDbMsg : M Middleman unit :=
  p ← gets _toDb;
  _handleDbMsg_loop (length (inbox p)).

(** [Middleman._continue]. *)
Definition _continue (self : Middleman) : bool :=
  negb (bool_decide (_commandsSet self = ∅))
  || negb (bool_decide (_commandsDict self = ∅)).

(** The messages that arrive while the Middleman is in [connection.wait]. *)
Record Arrival : Type := mkArrival {
  from_command : list Command;
  from_legi : list LegiMsg;
  from_db : list DbMsg
}.

Definition deliver (a : Arrival) (m : Middleman) : Middleman :=
  {| _commandsSet := _commandsSet m; _commandsDict := _commandsDict m;
     _toLegi := arrive (from_legi a) (_toLegi m);
     _toDb := arrive (from_db a) (_toDb m);
     _fromCommand := arrive (from_command a) (_fromCommand m) |}.

(** One turn of the loop of [Middleman.__init__]. *)
Definition Middleman_turn (a : Arrival) : M Middleman unit :=
  modify (deliver a) ;;
  _handleOrder ;;
  _handleLegiMsg ;;
  _handleDbMsg.

(** What [Middleman.__init__] does once its loop has ended. *)
Definition Middleman_shutdown : M Middleman unit :=
  modify (set_toLegi (send OrderLegiEnd)) ;;
  modify (set_toDb (send OrderDbEnd)) ;;
  modify (set_fromCommand (send END)).

(** The loop of [Middleman.__init__] and what follows it, on the arrivals of
    the successive waits: [true] when the method returns, [false] when the
    arrivals are used up and the loop is still waiting. *)
Fixpoint Middleman_loop (schedule : list Arrival) : M Middleman bool :=
  c ← gets _continue;
  if (c : bool)
  then
    match schedule with
    | [] => mret false
    | a :: schedule' => Middleman_turn a ;; Middleman_loop schedule'
    end
  else Middleman_shutdown ;; mret true.

(** The object at the start of [Middleman.__init__]. *)
Definition Middleman_new : Middleman :=
  {| _commandsSet := {[wait]}; _commandsDict := ∅;
     _toLegi := mkPipe [] []; _toDb := mkPipe [] [];
     _fromCommand := mkPipe [] [] |}.

(** [Middleman.__init__]. *)
Definition Middleman__init__ (schedule : list Arrival)
    : (PyExc + bool) * Middleman :=
  Middleman_loop schedule Middleman_new.

(** The listing phases still open, the items tracked and the flag telling
    that orders are still accepted, read off the object. *)
Definition PendingJobSet (self : Middleman) : gset Item :=
  _commandsSet self ∖ {[wait]}.

Definition TrackedItem (self : Middleman) : gmap string SearchFilters :=
  _commandsDict self.

Definition accepting (self : Middleman) : bool :=
  bool_decide (wait ∈ _commandsSet self).

(** *** What the properties of converter.py speak of *)

(** The connector answers page [k + 1] of the filter with [pages !! k]. *)
Definition serves (connector : Connector) (criteria : SearchFilters)
    (pages : list SearchResponse) : Prop :=
  forall (k : nat) (r : SearchResponse),
    pages !! k = Some r ->
    post_search connector
      (<["pageNumber" := VInt (Z.of_nat k + 1)]> (payload criteria)) = inr r.

(** The message sent for a text whose [articles] do not hold exactly one
    element. *)
Definition without_content (text : JorfText) : LegiMsg :=
  LegiText {| cid := jorf_cid text;
              publicationDate := dateParution text;
              content := None |}.

(** Whether the store knows a CID: the truth value of the first column of
    the first row that [Statements.selectCid] returns for it. *)
Definition known (d : Database) (c : string) : bool :=
  match fetchall (committed d) (pending d) selectCid [VStr c] with
  | (v :: _) :: _ => truthy v
  | _ => false
  end.

(** The query for a CID goes through and returns a first row with a first
    column. *)
Definition answers (d : Database) (c : string) : Prop :=
  fault (committed d) (pending d) selectCid [VStr c] = false /\
  exists v row rows,
    fetchall (committed d) (pending d) selectCid [VStr c] = (v :: row) :: rows.

(** The list of [_checkIfKnown] once the CIDs [l] have been looked up. *)
Definition marked (d : Database) (l : list string) : list (option string) :=
  (fun c => if known d c then None else Some c) <$> l.

(** The object after the three sends that follow the loop. *)
Definition shutdown_state (self : Middleman) : Middleman :=
  {| _commandsSet := _commandsSet self;
     _commandsDict := _commandsDict self;
     _toLegi := send OrderLegiEnd (_toLegi self);
     _toDb := send OrderDbEnd (_toDb self);
     _fromCommand := send END (_fromCommand self) |}.

(** What a handler may do to the tracking dictionary and to the unread
    messages of the database pipe: keep every key, read nothing. *)
Definition keeps_tracking (c : M Middleman unit) : Prop :=
  forall self r self',
    c self = (r, self') ->
    (forall k, is_Some (_commandsDict self !! k) ->
               is_Some (_commandsDict self' !! k)) /\
    inbox (_toDb self') = inbox (_toDb self).

End Converter.

(** ** A small instance of the collaborators, used to run the model *)

Module Sample.

(** Two search filters. *)
Inductive Filters : Type :=
| TAFilter
| LDAFilter.

#[global] Instance Filters_eq_dec : EqDecision Filters.
Proof. solve_decision. Defined.

#[global] Instance Filters_countable : Countable Filters.
Proof.
  refine (inj_countable'
            (fun f => match f with TAFilter => false | LDAFilter => true end)
            (fun b => if b then LDAFilter else TAFilter) _).
  intros []; reflexivity.
Defined.

(** A regex engine for literal patterns: a pattern matches the texts that
    start with it. *)
Definition regex_literal : Regex :=
  {| re_match := fun regex text =>
       if String.prefix regex text then Some regex else None |}.

(** A pattern that captures one record holding the matched part. *)
Definition tableau : TextPattern.t :=
  {| TextPattern.main :=
       {| Pattern.regex := "<p>Tableau";
          Pattern.captures := fun part => inr [{["titre" := part]}] |};
     TextPattern.prepareForInsertion := fun parsed c =>
       inr ((fun r => [VStr c; match r !! "titre" with
                               | Some x => VStr x
                               | None => VNone
                               end]) <$> parsed) |}.

Definition legi : LegiStructure :=
  {| SearchFilters := Filters;
     structs := fun _ => [tableau];
     payload := fun f =>
       {[ "pageSize" := VInt 100;
          "typePagination" := VStr (match f with
                                    | TAFilter => "TA"
                                    | LDAFilter => "LDA"
                                    end) ]} |}.

Definition statements : DbStructure :=
  {| selectCid := "EXECUTE selectCid (%s)";
     insertFailed := "EXECUTE insertFailed (%s)";
     insertParsed := "EXECUTE insertParsed (%s,%s)";
     insertRecord := "EXECUTE insertRecord (%s,%s)";
     prepareStatements := mret tt |}.

(** A backend that rejects nothing and knows a CID when a committed
    statement starts its arguments with it. *)
Definition known_in (committed : list Stmt) (args : Row) : bool :=
  match args with
  | VStr c :: _ =>
      existsb (fun st => match snd st with
                         | VStr c' :: _ => String.eqb c c'
                         | _ => false
                         end) committed
  | _ => false
  end.

Definition backend : Backend :=
  {| fetchall := fun committed pending q args =>
       [[VBool (known_in committed args)]];
     fault := fun _ _ _ _ => false;
     refused := fun _ => false;
     commit_fault := fun _ _ => false |}.

#[local] Existing Instances regex_literal legi statements backend.


(** A connector whose listing for a filter has two pages, of two results and
    of one, and whose text ["A"] alone has exactly one article. *)
Definition two_pages : list SearchResponse :=
  [ mkSearchResponse 3 [mkSearchResult [mkTitle "A"];
                        mkSearchResult [mkTitle "B"]];
    mkSearchResponse 3 [mkSearchResult [mkTitle "C"; mkTitle "Z"]] ].

Definition connector : Connector :=
  {| post_search := fun p =>
       match p !! "pageNumber" with
       | Some (VInt 1) => from_option inr (inl KeyError) (two_pages !! 0%nat)
       | Some (VInt 2) => from_option inr (inl KeyError) (two_pages !! 1%nat)
       | _ => inl KeyError
       end;
     post_consult := fun c =>
       inr (mkJorfText c (Some 1577836800000)
              (if String.eqb c "A" then [mkArticle "<p>Tableau 2020"] else [])) |}.

(** A connector whose listing has no result. *)
Definition nothing_listed : Connector :=
  {| post_search := fun _ => inr (mkSearchResponse 0 []);
     post_consult := fun _ => inl KeyError |}.

(** The database process inside the block of [createDbManager], with the
    text ["A"] stored. *)
Definition store : Store :=
  {| store_conn :=
       {| DbConnector.self :=
            DbConnector.set_connection (Some 0%nat)
              (DbConnector.set_nesting 1
                 (DbConnector.__init__ "db" "user" "pw" "127.0.0.1" "5432"));
          DbConnector.db :=
            mkDatabase 1 []
              [("EXECUTE insertParsed (%s,%s)", [VStr "A"; VInt 1577836800])]
              [] |};
     store_sent := [] |}.


(** A run of the Middleman: one filter is ordered, its listing has one page
    with the CIDs ["A"] and ["B"], the store knows ["A"], the text ["B"] is
    fetched, parsed, stored and acknowledged. *)
Definition schedule : list Arrival :=
  [ mkArrival [CommandFilter TAFilter; CommandEnd] [] [];
    mkArrival [] [LegiTextList TAFilter ["A"; "B"]; LegiEnd TAFilter] [];
    mkArrival [] [] [DbTextList "A" ["B"]];
    mkArrival []
      [LegiText (mkFilteredText "B" (Some 1577836800000) (Some "<p>Tableau 2020"))] [];
    mkArrival [] [] [DbText "B"; DbEnd] ].

(** A Middleman that tracks the text ["C"] for a filter. *)
Definition tracking_C : Middleman :=
  {| _commandsSet := ∅;
     _commandsDict := {["C" := TAFilter]};
     _toLegi := mkPipe [] [];
     _toDb := mkPipe [] [];
     _fromCommand := mkPipe [] [] |}.

(** A request for which no time passes, and a hundred of them. *)
Definition instant : LegiConnector.Elapsed :=
  let zero := LegiConnector.mkLapse 0 1 in
  LegiConnector.mkElapsed zero zero zero zero.

Definition burst : list (string * LegiConnector.Elapsed) :=
  repeat ("/search", instant) 100.

End Sample.

(** ** basePattern.py: [Bricks.flatten] and [TextPattern.prepareForInsertion] *)

Module Bricks.

(** The values of the dictionaries that [Bricks.flatten] traverses: a list
    (of dictionaries) or anything else.  A dictionary keeps its keys in the
    order of their insertion. *)
#[warnings="-register-all"]
Inductive Val : Type :=
| Leaf (v : PyVal)
| Nested (l : list (list (string * Val))).

Definition Dict : Type := list (string * Val).

(** [isinstance(v, list)]. *)
Definition is_list (v : Val) : bool :=
  match v with
  | Leaf _ => false
  | Nested _ => true
  end.

(** [d[k] = v]: the value of a key that is there is replaced in place, a
    new key comes last. *)
Fixpoint dict_set (k : string) (v : Val) (d : Dict) : Dict :=
  match d with
  | [] => [(k, v)]
  | (k', v') :: d' =>
      if String.eqb k k' then (k', v) :: d' else (k', v') :: dict_set k v d'
  end.

(** [{**x, **y}]. *)
Definition dict_merge (x y : Dict) : Dict :=
  fold_left (fun acc kv => dict_set (fst kv) (snd kv) acc) y x.

(** [[{**x, **y} for x in partialResult for y in recurs]]. *)
Definition product (partialResult recurs : list Dict) : list Dict :=
  x ← partialResult; y ← recurs; [dict_merge x y].

(** [Bricks.flatten] on a list: [each] is its loop over the dictionaries and
    [nested] computes, for the keys of a dictionary that hold a list and in
    their order, the [recurs] of the inner loop. *)
Fixpoint flatten_value (v : Val) {struct v} : list Dict :=
  match v with
  | Leaf _ => []
  | Nested parsedList =>
      (fix each (parsedList : list Dict) : list Dict :=
         match parsedList with
         | [] => []
         | dico :: parsedList' =>
             let listKeys := List.filter (fun kv => is_list (snd kv)) dico in
             let standardKeys :=
               List.filter (fun kv => negb (is_list (snd kv))) dico in
             let recurs :=
               (fix nested (entries : Dict) : list (list Dict) :=
                  match entries with
                  | [] => []
                  | (key, value) :: entries' =>
                      match value with
                      | Leaf _ => nested entries'
                      | Nested _ => flatten_value value :: nested entries'
                      end
                  end) dico in
             (match listKeys with
              | [] => [dico]
              | _ :: _ => fold_left product recurs [standardKeys]
              end) ++ each parsedList'
         end) parsedList
  end.

(** [Bricks.flatten]: a dictionary is treated as the list that holds it. *)
Definition flatten (parsed : Dict + list Dict) : list Dict :=
  let parsedList :=
    match parsed with
    | inl d => [d]
    | inr l => l
    end in
  flatten_value (Nested parsedList).

(** A dictionary none of whose values is a list. *)
Definition flat (d : Dict) : Prop :=
  Forall (fun kv => is_list (snd kv) = false) d.

(** The lists held by a dictionary, in the order of their keys. *)
Definition lists_of (d : Dict) : list (list Dict) :=
  omap (fun kv => match snd kv with
                  | Leaf _ => None
                  | Nested l => Some l
                  end) d.

End Bricks.

Module TextPatternBase.

(** A member of [Types] as [prepareForInsertion] uses it: its [name] and its
    [cast], a conversion that may raise, or [None]. *)
Record Arg : Type := mkArg {
  arg_name : string;
  arg_cast : option (string -> PyExc + PyVal)
}.

(** The body of the inner loop of [prepareForInsertion]: the value appended
    to [result] for one argument.  [values] is keyed by the names of the
    members of [Types]. *)
Definition column {S} (values : gmap string PyVal)
    (element : gmap string string) (arg : Arg) : M S PyVal :=
  let name := arg_name arg in
  match values !! name with
  | Some v => mret v
  | None =>
      let value := element !! name in
      match arg_cast arg, value with
      | Some cast, Some s =>
          if negb (String.eqb s "") then lift_result (cast s)
          else mret (VStr s)
      | None, Some s => mret (VStr s)
      | _, None => mret VNone
      end
  end.

(** [TextPattern.prepareForInsertion]; [args] is
    [Statements.insertRecord.args] and [yield] the body of the loop that
    consumes the generator. *)
Definition prepareForInsertion {S} (args : list Arg)
    (parsed : list (gmap string string)) (values : gmap string PyVal)
    (yield : Row -> M S unit) : M S unit :=
  py_for parsed (fun element =>
    result ← mapM (column values element) args;
    yield result).

(** The value of one column when no cast raises. *)
Definition cell (values : gmap string PyVal) (element : gmap string string)
    (arg : Arg) : PyVal :=
  match values !! arg_name arg with
  | Some v => v
  | None =>
      match arg_cast arg, element !! arg_name arg with
      | Some cast, Some s =>
          if negb (String.eqb s "")
          then match cast s with
               | inr v => v
               | inl _ => VNone
               end
          else VStr s
      | None, Some s => VStr s
      | _, None => VNone
      end
  end.

(** The casts that [prepareForInsertion] calls on the elements of [parsed]
    return: a cast is called on what an element captured for an argument
    that has a cast and is not in [values], unless it is the empty
    string. *)
Definition casts_succeed (args : list Arg)
    (parsed : list (gmap string string)) (values : gmap string PyVal)
    : Prop :=
  forall element arg cast s,
    element ∈ parsed -> arg ∈ args ->
    arg_cast arg = Some cast ->
    values !! arg_name arg = None ->
    element !! arg_name arg = Some s ->
    s <> "" ->
    exists v, cast s = inr v.

End TextPatternBase.

(** ** What the further properties of the connector speak of *)

Module Transactions.
Import DbConnector.


(** From [v] to [v'] the statements [l] were sent and have joined the open
    transaction; nothing else has changed. *)
Definition extended (l : list Stmt) (v v' : state) : Prop :=
  self v' = self v /\
  opened (db v') = opened (db v) /\
  committed (db v') = committed (db v) /\
  pending (db v') = pending (db v) ++ l /\
  trace (db v') = trace (db v) ++ l.


(** The backend takes every statement. *)
Definition faultless `{BE : Backend} : Prop :=
  forall c p q a, fault c p q a = false.

(** The statements that [executeMany] sends for a query and its
    parameters. *)
Definition batch (query : string) (p0 : Row) (params : list Row)
    : list Stmt :=
  if startswith (strip query) "EXECUTE"
  then (fun p => (query, p)) <$> p0 :: params
  else
    [("PREPARE stmt AS " +:+ query, [])] ++
    ((fun p =>
        ("EXECUTE stmt (" +:+ join "," (replicate (length p0) "%s") +:+ ")",
         p)) <$> p0 :: params) ++
    [("DEALLOCATE stmt", [])].

End Transactions.

(** ** What the further properties of converter.py speak of *)

Section Messages.
Context `{RE : Regex, LS : LegiStructure, DS : DbStructure, BE : Backend}.

(** The pattern does not match the text. *)
Definition unmatched (s : string) (p : TextPattern.t) : Prop :=
  re_match (Pattern.regex (TextPattern.main p)) s = None.

(** The message sent for a page of results. *)
Definition page_message (criteria : SearchFilters) (r : SearchResponse)
    : LegiMsg :=
  LegiTextList criteria (page_cids r).

(** The message sent for a text: the content is that of the article when
    there is exactly one. *)
Definition text_message (text : JorfText) : LegiMsg :=
  LegiText {| cid := jorf_cid text;
              publicationDate := dateParution text;
              content := match articles text with
                         | [a] => Some (article_content a)
                         | _ => None
                         end |}.

(** The request for page [k] of a filter fails with [e]: the connector
    raises [e], or it answers with a result that has no title and [e] is
    [IndexError]. *)
Definition page_fails (connector : Connector) (criteria : SearchFilters)
    (k : Z) (e : PyExc) : Prop :=
  let request := <["pageNumber" := VInt k]> (payload criteria) in
  post_search connector request = inl e \/
  (e = IndexError /\
   exists r, post_search connector request = inr r /\ ~ titled r).

(** The orders which a list of commands makes the Middleman send to the
    Legifrance agent. *)
Definition listing_orders (commands : list SearchFilters) : list LegiOrder :=
  OrderLegiTextList <$> commands.


(** A step of the Middleman that sends no [Markers.END]: nothing on the
    control connection, and to the two agents only orders other than
    [Markers.END]. *)
Definition sends_no_END (c : M Middleman unit) : Prop :=
  forall self r self',
    c self = (r, self') ->
    outbox (_fromCommand self') = outbox (_fromCommand self) /\
    (exists l, outbox (_toLegi self') = outbox (_toLegi self) ++ l /\
               OrderLegiEnd ∉ l) /\
    (exists l, outbox (_toDb self') = outbox (_toDb self) ++ l /\
               OrderDbEnd ∉ l).



End Messages.

(** ** basePattern.py: [Pattern._matchPart] and [Pattern.match] *)

Module PatternBase.
Import Bricks.

(** A match object of [re.finditer], as far as [_matchPart] reads it: the
    text matched, [p[0]], and the named groups of the regex, each with the
    text it captured or [None] when it took no part in the match. *)
Record Match : Type := mkMatch {
  whole : string;
  named : gmap string (option string)
}.

(** [re.finditer(regex, part)]: the occurrences, from left to right. *)
Class Finder : Type := {
  finditer : string -> string -> list Match
}.

(** A [Pattern] object.  The members of [Types] in [groups] and in the
    keys of [ignored] are known by their [name]. *)
#[warnings="-register-all"]
Inductive t : Type := mk {
  regex : string;
  groups : list string;
  ignored : list (string * list string);
  nestedPattern : option t;
  name : string
}.

(** [p[name]]: a name that is no group of the regex raises [IndexError]. *)
Definition item {S} (p : Match) (key : string) : M S (option string) :=
  match named p !! key with
  | Some v => mret v
  | None => raise IndexError
  end.

Definition captured (v : option string) : Val :=
  Leaf (match v with
        | Some s => VStr s
        | None => VNone
        end).

(** [value in collection], on what a group captured. *)
Definition is_in (v : option string) (collection : list string) : bool :=
  match v with
  | Some s => bool_decide (s ∈ collection)
  | None => false
  end.

(** [any([p[key.name] in self.ignored[key] for key in self.ignored])]: the
    list is built in full before [any] reads it. *)
Definition discarded {S} (ignored : list (string * list string)) (p : Match)
    : M S bool :=
  tests ← mapM (fun entry => v ← item p (fst entry);
                             mret (is_in v (snd entry))) ignored;
  mret (existsb id tests).

(** [{key.name: p[key.name] for key in self.groups}]. *)
Definition record {S} (groups : list string) (p : Match) : M S Dict :=
  entries ← mapM (fun key => v ← item p key; mret (key, captured v)) groups;
  mret (fold_left (fun acc kv => dict_set (fst kv) (snd kv) acc) entries []).

(** [Pattern._matchPart]. *)
Fixpoint _matchPart `{FI : Finder} {S} (self : t) (part : string) {struct self}
    : M S (list Dict) :=
  found ← mapM (fun p =>
      skip ← discarded (ignored self) p;
      if (skip : bool) then mret None
      else
        base ← record (groups self) p;
        extra ←
          match nestedPattern self with
          | Some nested =>
              sub ← _matchPart nested (whole p);
              mret [(name self, Nested sub)]
          | None => mret []
          end;
        mret (Some (dict_merge base extra)))
    (finditer (regex self) part);
  mret (omap id found).

(** [Pattern.match]. *)
Definition match_ `{RE : Regex, FI : Finder} {S} (self : t)
    (text : option string) : M S (option (list Dict)) :=
  m ← Pattern.re__match (regex self) text;
  match m with
  | None => mret None
  | Some m0 =>
      records ← _matchPart self m0;
      mret (Some (flatten (inr records)))
  end.

(** [d[k]] on a dictionary that holds [k]. *)
Definition value_of (k : string) (d : Dict) : option Val :=
  snd <$> List.find (fun kv => String.eqb k (fst kv)) d.

(** The occurrence is kept: no ignored key has captured one of its ignored
    values. *)
Definition kept (self : t) (p : Match) : bool :=
  negb (existsb (fun entry =>
                   match named p !! fst entry with
                   | Some v => is_in v (snd entry)
                   | None => false
                   end) (ignored self)).

(** Every occurrence of the pattern, and of its nested patterns in the
    text of the occurrences, has the groups that the pattern reads. *)
Fixpoint readable `{FI : Finder} (self : t) (part : string) {struct self}
    : Prop :=
  Forall (fun p =>
    (forall key, key ∈ groups self ++ (fst <$> ignored self) ->
                 is_Some (named p !! key)) /\
    match nestedPattern self with
    | Some nested => readable nested (whole p)
    | None => True
    end) (finditer (regex self) part).

End PatternBase.

(** ** Further sample data *)

Module Examples.

(** The dictionary of the docstring of [Bricks.flatten]. *)
Definition docstring : Bricks.Dict :=
  [("a", Bricks.Leaf (VInt 1));
   ("b", Bricks.Nested
           [[("c", Bricks.Leaf (VInt 2)); ("d", Bricks.Leaf (VInt 3))];
            [("c", Bricks.Leaf (VInt 4)); ("d", Bricks.Leaf (VInt 5))]])].

(** A dictionary one of whose lists is empty. *)
Definition hollow : Bricks.Dict :=
  [("a", Bricks.Leaf (VInt 1)); ("b", Bricks.Nested [])].

(** A cast for a [castDict]: it reads an unsigned decimal numeral and
    raises [ValueError] on the empty string and on any other character. *)
Fixpoint digits (s : string) (acc : Z) : option Z :=
  match s with
  | EmptyString => Some acc
  | String a s' =>
      let n := nat_of_ascii a in
      if ((48 <=? n) && (n <=? 57))%nat
      then digits s' (10 * acc + Z.of_nat (n - 48))
      else None
  end.

Definition to_int (s : string) : PyExc + PyVal :=
  match s with
  | EmptyString => inl ValueError
  | _ => match digits s 0 with
         | Some z => inr (VInt z)
         | None => inl ValueError
         end
  end.

(** Two arguments of [insertRecord]: the CID, as it is, and a rank, cast
    to a number. *)
Definition columns : list TextPatternBase.Arg :=
  [TextPatternBase.mkArg "cid" None;
   TextPatternBase.mkArg "rang" (Some to_int)].

(** [list(prepareForInsertion(parsed, values))]: the rows of the generator,
    or the exception that leaves it. *)
Definition rows_of (args : list TextPatternBase.Arg)
    (parsed : list (gmap string string)) (values : gmap string PyVal)
    : PyExc + list Row :=
  let run := TextPatternBase.prepareForInsertion args parsed values
               (fun row => modify (fun out => out ++ [row])) [] in
  match fst run with
  | inl e => inl e
  | inr _ => inr (snd run)
  end.

(** A pattern that captures what it matched as a rank; the rank is cast to
    a number when the rows are prepared. *)
Definition ranked : TextPattern.t :=
  {| TextPattern.main :=
       {| Pattern.regex := "<p>Rang";
          Pattern.captures := fun part => inr [{["rang" := part]}] |};
     TextPattern.prepareForInsertion := fun parsed c =>
       rows_of columns parsed {["cid" := VStr c]} |}.

(** Filters that try [ranked] before [Sample.tableau]. *)
Definition ranking : LegiStructure :=
  {| SearchFilters := Sample.Filters;
     structs := fun _ => [ranked; Sample.tableau];
     payload := fun _ => {[ "pageSize" := VInt 100 ]} |}.


(** A server that refuses every connection. *)
Definition unreachable : Backend :=
  {| fetchall := fun _ _ _ _ => [];
     fault := fun _ _ _ _ => false;
     refused := fun _ => true;
     commit_fault := fun _ _ => false |}.


(** A closed connector on an empty database. *)
Definition closed : DbConnector.state :=
  {| DbConnector.self :=
       DbConnector.__init__ "db" "user" "pw" "127.0.0.1" "5432";
     DbConnector.db := mkDatabase 0 [] [] [] |}.

(** A request that reaches its first scan after 59 seconds and reads the
    clock for its sleep three seconds later. *)
Definition late : LegiConnector.Elapsed :=
  let zero := LegiConnector.mkLapse 0 1 in
  LegiConnector.mkElapsed (LegiConnector.mkLapse 59 1)
    (LegiConnector.mkLapse 3 1) zero zero.

(** Three requests for which no time passes. *)
Definition few : list (string * LegiConnector.Elapsed) :=
  repeat ("/search", Sample.instant) 3.

(** A server that reports five results and returns none. *)
Definition empty_pages : Connector :=
  {| post_search := fun _ => inr (mkSearchResponse 5 []);
     post_consult := fun _ => inl KeyError |}.

(** A server whose second page holds a result without title, and which
    knows the text ["A"] only. *)
Definition untitled : Connector :=
  {| post_search := fun p =>
       match p !! "pageNumber" with
       | Some (VInt 1) =>
           inr (mkSearchResponse 3 [mkSearchResult [mkTitle "A"]])
       | Some (VInt 2) => inr (mkSearchResponse 3 [mkSearchResult []])
       | _ => inl KeyError
       end;
     post_consult := fun c =>
       if String.eqb c "A"
       then inr (mkJorfText c (Some 1577836800000) [mkArticle "<p>Tableau 2020"])
       else inl KeyError |}.

(** A regex engine that finds two occurrences in any text, with one group
    each. *)
Definition two_found : PatternBase.Finder :=
  {| PatternBase.finditer := fun _ _ =>
       [PatternBase.mkMatch "ligne 1" {["nom" := Some "Dupont"]};
        PatternBase.mkMatch "ligne 2" {["nom" := Some "Neant"]}] |}.

(** A pattern without nesting that ignores one value of its group. *)
Definition lines : PatternBase.t :=
  PatternBase.mk "ligne" ["nom"] [("nom", ["Neant"])] None "_".

End Examples.

(** * Properties *)

Lemma py_index_lookup {S A} (l : list A) (i : nat) (x : A) (s : S) :
  l !! i = Some x -> py_index l i s = (inr x, s).
Proof. intros E. unfold py_index. rewrite E. reflexivity. Qed.

(** ** The reentrant connector *)

Module DbConnectorFacts.
Import DbConnector.

Section Facts.
Context `{BE : Backend}.

Lemma set_nesting_connection n o :
  _connection (set_nesting n o) = _connection o.
Proof. reflexivity. Qed.

Lemma enter_at_zero (w : state) :
  _nesting (self w) = 0 ->
  refused (db w) = false ->
  __enter__ w =
    (inr tt,
     on_self (set_connection (Some (opened (db w))))
       (on_db db_opened (on_self (set_nesting 1) w))).
Proof.
  intros Hn Hr. unfold __enter__, connect. py_run.
  rewrite Hn. cbn [negb Z.eqb db on_self]. rewrite Hr. reflexivity.
Qed.

Lemma enter_refused (w : state) :
  _nesting (self w) = 0 ->
  refused (db w) = true ->
  __enter__ w = (inl DatabaseError, on_self (set_nesting 1) w).
Proof.
  intros Hn Hr. unfold __enter__, connect. py_run.
  rewrite Hn. cbn [negb Z.eqb db on_self]. rewrite Hr. reflexivity.
Qed.

Lemma enter_nested (w : state) :
  _nesting (self w) <> 0 ->
  __enter__ w = (inr tt, on_self (set_nesting (_nesting (self w) + 1)) w).
Proof.
  intros Hn. unfold __enter__, mbind, M_bind, gets, modify. simpl.
  destruct (Z.eqb_spec (_nesting (self w)) 0) as [E|E]; [contradiction|].
  reflexivity.
Qed.

Lemma exit_raised (e : PyExc) (w : state) (c : nat) :
  _nesting (self w) = 1 ->
  _connection (self w) = Some c ->
  __exit__ (Some e) w =
    (inr tt,
     on_self (set_connection None)
       (on_db db_rollback (on_self (set_nesting 0) w))).
Proof.
  intros Hn Hc. destruct w as [o d]. destruct o. simpl in *. subst.
  reflexivity.
Qed.

Lemma exit_committed (w : state) (c : nat) :
  _nesting (self w) = 1 ->
  _connection (self w) = Some c ->
  commit_fault (committed (db w)) (pending (db w)) = false ->
  __exit__ None w =
    (inr tt,
     on_self (set_connection None)
       (on_db db_commit (on_self (set_nesting 0) w))).
Proof.
  intros Hn Hc Hf.
  unfold __exit__, connection__exit__, connection_commit. py_run.
  cbn [self db on_self on_db set_nesting _nesting _connection].
  rewrite Hn. change (1 - 1 =? 0) with true. cbn beta iota.
  cbn [self db on_self on_db set_nesting _nesting _connection].
  rewrite Hc. cbn beta iota. cbn [db on_self]. rewrite Hf.
  cbn beta iota. f_equal.
  destruct w as [o d]. destruct o. cbn in *. subst. reflexivity.
Qed.

Lemma exit_commit_fails (w : state) (c : nat) :
  _nesting (self w) = 1 ->
  _connection (self w) = Some c ->
  commit_fault (committed (db w)) (pending (db w)) = true ->
  __exit__ None w =
    (inl DatabaseError, on_db db_rollback (on_self (set_nesting 0) w)).
Proof.
  intros Hn Hc Hf.
  unfold __exit__, connection__exit__, connection_commit. py_run.
  cbn [self db on_self on_db set_nesting _nesting _connection].
  rewrite Hn. change (1 - 1 =? 0) with true. cbn beta iota.
  cbn [self db on_self on_db set_nesting _nesting _connection].
  rewrite Hc. cbn beta iota. cbn [db on_self]. rewrite Hf.
  cbn beta iota. f_equal.
  destruct w as [o d]. destruct o. cbn in *. subst. reflexivity.
Qed.

Lemma exit_nested (exc : option PyExc) (w : state) :
  _nesting (self w) <> 1 ->
  __exit__ exc w = (inr tt, on_self (set_nesting (_nesting (self w) - 1)) w).
Proof.
  intros Hn. unfold __exit__, mbind, M_bind, gets, modify. simpl.
  destruct (Z.eqb_spec (_nesting (self w) - 1) 0) as [E|E]; [lia|].
  reflexivity.
Qed.

(** The connector after a refused connection: the counter says that a block
    is open and there is no connection.  [execute] finds it so and leaves
    it so. *)
Lemma execute_without_connection (query : string) (w : state) :
  _nesting (self w) = 1 ->
  _connection (self w) = None ->
  execute query w = (inl AttributeError, w).
Proof.
  intros Hn Hc. unfold execute, with_self, py_with.
  rewrite enter_nested by lia.
  unfold with_cursor. py_run. cbn [self on_self set_nesting _connection].
  rewrite Hc.
  rewrite exit_nested by (cbn; lia).
  f_equal. destruct w as [o d]. destruct o. cbn in *. subst.
  reflexivity.
Qed.

(** C10.  [DbConnector] is reentrant as long as the server takes its
    connection and its commit, and not beyond.  From a state where the
    connection is held exactly when the nesting counter is positive:
    [__enter__] inside a block only increments the counter; at depth zero
    it opens a connection, the next one of the backend, when the server
    accepts it, and the invariant holds again.  When the server refuses
    the connection, [__enter__] raises with the counter already at one
    and no connection: the invariant is broken, a later [__enter__] opens
    no connection either, and every [execute] raises [AttributeError] and
    leaves the connector in that state.  [__exit__] inside nested blocks
    only decrements the counter; on leaving the outermost block it runs
    the connection's own [__exit__] and then clears the reference, which
    restores the invariant, unless the commit of that [__exit__] fails:
    [__exit__] then raises before it clears the reference, and the
    connector is left with the counter at zero and its connection still
    set. *)
Theorem DbConnector_refused_entry (w : state) :
  invariant w ->
  0 <= _nesting (self w) ->
  (0 < _nesting (self w) ->
     exists w1,
       __enter__ w = (inr tt, w1) /\ invariant w1 /\
       _nesting (self w1) = _nesting (self w) + 1 /\
       _connection (self w1) = _connection (self w) /\
       db w1 = db w) /\
  (_nesting (self w) = 0 -> refused (db w) = false ->
     exists w1,
       __enter__ w = (inr tt, w1) /\ invariant w1 /\
       _nesting (self w1) = 1 /\
       _connection (self w1) = Some (opened (db w)) /\
       opened (db w1) = S (opened (db w))) /\
  (_nesting (self w) = 0 -> refused (db w) = true ->
     exists w1,
       __enter__ w = (inl DatabaseError, w1) /\ ~ invariant w1 /\
       _nesting (self w1) = 1 /\
       _connection (self w1) = None /\
       db w1 = db w /\
       __enter__ w1 = (inr tt, on_self (set_nesting 2) w1) /\
       forall query, execute query w1 = (inl AttributeError, w1)) /\
  (forall exc, 1 < _nesting (self w) ->
     exists w2,
       __exit__ exc w = (inr tt, w2) /\ invariant w2 /\
       _nesting (self w2) = _nesting (self w) - 1 /\
       _connection (self w2) = _connection (self w) /\
       db w2 = db w) /\
  (forall exc, _nesting (self w) = 1 ->
     (exc = None ->
      commit_fault (committed (db w)) (pending (db w)) = false) ->
     exists w2,
       __exit__ exc w = (inr tt, w2) /\ invariant w2 /\
       _nesting (self w2) = 0 /\
       _connection (self w2) = None /\
       db w2 = match exc with
               | None => db_commit (db w)
               | Some _ => db_rollback (db w)
               end) /\
  (_nesting (self w) = 1 ->
   commit_fault (committed (db w)) (pending (db w)) = true ->
     exists w2,
       __exit__ None w = (inl DatabaseError, w2) /\ ~ invariant w2 /\
       _nesting (self w2) = 0 /\
       _connection (self w2) = _connection (self w) /\
       is_Some (_connection (self w2)) /\
       db w2 = db_rollback (db w)).
Proof.
  intros Hinv Hnn.
  split; [|split; [|split; [|split; [|split]]]].
  - intros Hpos. eexists. split; [apply enter_nested; lia|].
    split; [|cbn; auto].
    unfold invariant in *. cbn. rewrite Hinv. lia.
  - intros Hz Hr. eexists. split; [apply enter_at_zero; assumption|].
    split; [|cbn; auto].
    unfold invariant. cbn. split; [lia|]. intros _. eexists; reflexivity.
  - intros Hz Hr. eexists. split; [apply enter_refused; assumption|].
    assert (Hc : _connection (self w) = None).
    { destruct (_connection (self w)) eqn:Ec; [|reflexivity].
      destruct Hinv as [Hinv _]. rewrite Ec in Hinv.
      specialize (Hinv (mk_is_Some _ _ eq_refl)). lia. }
    split; [|split; [reflexivity|split; [exact Hc|split; [reflexivity|]]]].
    + unfold invariant. cbn. rewrite Hc. intros [_ Hback].
      destruct Hback as [x Hx]; [lia|discriminate].
    + split.
      * rewrite enter_nested by (cbn; lia). reflexivity.
      * intros query. apply execute_without_connection; [reflexivity|exact Hc].
  - intros exc Hpos. eexists. split; [apply exit_nested; lia|].
    split; [|cbn; auto].
    unfold invariant in *. cbn. rewrite Hinv. lia.
  - intros exc H1 Hcommit.
    assert (Hc : is_Some (_connection (self w))) by (apply Hinv; lia).
    destruct Hc as [c Hc].
    assert (Hclosed : forall f,
      invariant (on_self (set_connection None)
                   (on_db f (on_self (set_nesting 0) w)))).
    { intros f. unfold invariant. cbn. split; [|lia].
      intros [x Hx]. discriminate. }
    destruct exc as [e|].
    + eexists. split; [eapply exit_raised; eassumption|].
      split; [apply Hclosed|]. cbn. auto.
    + eexists. split; [eapply exit_committed; eauto|].
      split; [apply Hclosed|]. cbn. auto.
  - intros H1 Hf.
    assert (Hc : is_Some (_connection (self w))) by (apply Hinv; lia).
    destruct Hc as [c Hc].
    eexists. split; [eapply exit_commit_fails; eassumption|].
    split; [|cbn; rewrite Hc; split; [reflexivity|]; split; [reflexivity|];
              split; [eexists; reflexivity|reflexivity]].
    unfold invariant. cbn. rewrite Hc. intros [Hfwd _].
    specialize (Hfwd (mk_is_Some _ _ eq_refl)). lia.
Qed.

End Facts.

(** The theorem at a closed connector whose server refuses every
    connection. *)
Lemma DbConnector_refused_entry_witness :
  invariant Examples.closed /\
  0 <= _nesting (self Examples.closed) /\
  _nesting (self Examples.closed) = 0 /\
  refused (Backend := Examples.unreachable) (db Examples.closed) = true /\
  exists w1,
    __enter__ (BE := Examples.unreachable) Examples.closed
      = (inl DatabaseError, w1) /\
    _nesting (self w1) = 1 /\
    _connection (self w1) = None /\
    execute (BE := Examples.unreachable) "SELECT 1" w1
      = (inl AttributeError, w1).
Proof.
  assert (Hinv : invariant Examples.closed).
  { split; cbn; [intros [x Hx]; discriminate|lia]. }
  assert (Hnn : 0 <= _nesting (self Examples.closed)) by (cbn; lia).
  split; [exact Hinv|]. split; [exact Hnn|].
  split; [reflexivity|]. split; [reflexivity|].
  destruct (DbConnector_refused_entry (BE := Examples.unreachable)
              Examples.closed Hinv Hnn)
    as (_ & _ & Hrefused & _).
  destruct (Hrefused eq_refl eq_refl)
    as (w1 & Hrun & _ & Hn & Hc & _ & _ & Hexec).
  exists w1. split; [exact Hrun|]. split; [exact Hn|].
  split; [exact Hc|apply Hexec].
Defined.

End DbConnectorFacts.

(** ** Statements run inside a [with] block *)

Section BlockFacts.
Context `{BE : Backend}.
Import DbConnector DbConnectorFacts.

Lemma db_only_ret {A} (a : A) : db_only (mret a).
Proof. intros w r w' E. inversion E. auto. Qed.

Lemma db_only_raise {A} (e : PyExc) : db_only (raise e : M state A).
Proof. intros w r w' E. inversion E. auto. Qed.

Lemma db_only_bind {A B} (c : M state A) (k : A -> M state B) :
  db_only c -> (forall a, db_only (k a)) -> db_only (c ≫= k).
Proof.
  intros Hc Hk w r w' E. unfold mbind, M_bind in E.
  destruct (c w) as [[e|a] w1] eqn:E1.
  - inversion E; subst. eapply Hc; eauto.
  - destruct (Hc _ _ _ E1) as (S1 & C1 & O1).
    destruct (Hk a _ _ _ E) as (S2 & C2 & O2).
    repeat split; congruence.
Qed.

Lemma db_only_cursor_execute (q : string) (args : Row) :
  db_only (cursor_execute q args).
Proof.
  intros w r w' E. unfold cursor_execute in E. revert E. py_run.
  cbn [db on_db committed pending db_sent].
  destruct (fault _ _ q args); intros E; inversion E; subst; auto.
Qed.

Lemma db_only_for {A} (l : list A) (body : A -> M state unit) :
  (forall x, db_only (body x)) -> db_only (py_for l body).
Proof.
  intros Hb. induction l as [|x l IH]; simpl.
  - apply (db_only_ret tt).
  - apply db_only_bind; [apply Hb|intros _; exact IH].
Qed.

Lemma db_only_with_cursor {A} (body : M state A) :
  db_only body -> db_only (with_cursor body).
Proof.
  intros Hb w r w' E. unfold with_cursor in E. revert E. py_run.
  destruct (_connection (self w)); [apply Hb|].
  intros E; inversion E; auto.
Qed.

(** Inside a block, [with self: body] runs the body (which touches the
    backend only) one level deeper and restores the counter. *)
Lemma with_self_in_block {A} (body : M state A) (w : state) :
  0 < _nesting (self w) ->
  db_only body ->
  exists d',
    with_self body w =
      (fst (body (on_self (set_nesting (_nesting (self w) + 1)) w)),
       {| self := self w; db := d' |}) /\
    committed d' = committed (db w) /\
    opened d' = opened (db w) /\
    d' = db (snd (body (on_self (set_nesting (_nesting (self w) + 1)) w))).
Proof.
  intros Hpos Hb. unfold with_self, py_with.
  rewrite enter_nested by lia.
  destruct (body (on_self (set_nesting (_nesting (self w) + 1)) w))
    as [r w1] eqn:E.
  destruct (Hb _ _ _ E) as (S1 & C1 & O1). simpl in S1, C1, O1.
  assert (Hn : _nesting (self w1) = _nesting (self w) + 1)
    by (rewrite S1; reflexivity).
  exists (db w1). cbn [fst snd].
  assert (Hw : on_self (set_nesting (_nesting (self w1) - 1)) w1 =
               {| self := self w; db := db w1 |}).
  { destruct w1 as [o1 d1]. destruct w as [o d]. simpl in *. subst o1.
    destruct o. unfold on_self, set_nesting. simpl.
    rewrite Z.add_simpl_r. reflexivity. }
  destruct r as [e|a].
  - rewrite exit_nested by lia. rewrite Hw. auto.
  - rewrite exit_nested by lia. rewrite Hw. auto.
Qed.

(** Inside a block, [executeMany] on parameters that are not empty sends
    its statements and then raises; the connector object is as before and
    nothing is committed. *)
Lemma executeMany_in_block (q : string) (p0 : Row) (params : list Row)
    (w : state) :
  0 < _nesting (self w) ->
  exists e d',
    executeMany q (p0 :: params) w = (inl e, {| self := self w; db := d' |}) /\
    committed d' = committed (db w) /\
    opened d' = opened (db w).
Proof.
  intros Hpos. unfold executeMany.
  match goal with
  | |- context [with_self ?b] => set (body := b)
  end.
  assert (Hb : db_only body).
  { unfold body. apply db_only_with_cursor.
    apply db_only_bind.
    { destruct (negb _); [apply db_only_cursor_execute|apply (db_only_ret tt)]. }
    intros _. apply db_only_bind.
    { unfold execute_batch. apply db_only_for. intros x.
      apply db_only_cursor_execute. }
    intros _. apply db_only_bind.
    { destruct (negb _); [apply db_only_cursor_execute|apply (db_only_ret tt)]. }
    intros _. apply db_only_raise. }
  destruct (with_self_in_block body w Hpos Hb) as (d' & E & C & O & _).
  assert (Hr : exists e,
    fst (body (on_self (set_nesting (_nesting (self w) + 1)) w)) = inl e).
  { generalize (on_self (set_nesting (_nesting (self w) + 1)) w). intros w0.
    unfold body, with_cursor. py_run.
    destruct (_connection (self w0)); [|eexists; reflexivity].
    repeat match goal with
    | |- context [let (_, _) := ?c ?x in _] =>
        destruct (c x) as [[?|?] ?]; cbn [fst]; try (eexists; reflexivity)
    end. }
  destruct Hr as [e He]. rewrite He in E.
  exists e, d'. auto.
Qed.

End BlockFacts.

(** ** The loop of the Middleman *)

Section MiddlemanFacts.
Context `{RE : Regex, LS : LegiStructure, DS : DbStructure, BE : Backend}.

Lemma continue_false_iff (self : Middleman) :
  _continue self = false <->
  PendingJobSet self = ∅ /\ TrackedItem self = ∅ /\ accepting self = false.
Proof.
  unfold _continue, PendingJobSet, TrackedItem, accepting.
  rewrite orb_false_iff, !negb_false_iff, !bool_decide_eq_true,
    bool_decide_eq_false.
  split.
  - intros [Hs Hd]. rewrite Hs.
    split; [set_solver|]. split; [exact Hd|set_solver].
  - intros (Hj & Hd & Hw). split; [|exact Hd].
    apply set_eq. intros x. split; [|set_solver].
    intros Hx. destruct (decide (x = wait)) as [->|Hne]; [contradiction|].
    assert (x ∈ _commandsSet self ∖ {[wait]}) by set_solver.
    rewrite Hj in *. set_solver.
Qed.

Lemma Middleman_loop_unfold (schedule : list Arrival) (self : Middleman) :
  Middleman_loop schedule self =
    if _continue self
    then
      match schedule with
      | [] => (inr false, self)
      | a :: schedule' => (Middleman_turn a ;; Middleman_loop schedule') self
      end
    else (inr true, shutdown_state self).
Proof.
  destruct schedule; simpl; unfold mbind, M_bind, gets; simpl;
    destruct (_continue self); reflexivity.
Qed.

Lemma Middleman_loop_returns (schedule : list Arrival) :
  forall self self',
    Middleman_loop schedule self = (inr true, self') ->
    exists last, _continue last = false /\ self' = shutdown_state last.
Proof.
  induction schedule as [|a schedule IH]; intros self self' Hrun;
    rewrite Middleman_loop_unfold in Hrun;
    destruct (_continue self) eqn:Hc.
  - discriminate.
  - exists self. split; [exact Hc|congruence].
  - unfold mbind, M_bind in Hrun.
    destruct (Middleman_turn a self) as [[e|[]] mid]; [discriminate|].
    eapply IH; exact Hrun.
  - exists self. split; [exact Hc|congruence].
Qed.

(** C1.  The test of the loop of [Middleman.__init__] fails exactly when no
    listing phase is open, no item is tracked and orders are no longer
    accepted.  While it holds the loop takes another turn (or keeps waiting
    when nothing more arrives); when it fails the method sends
    [Markers.END] to the Legifrance agent and to the database agent, then
    on the control connection, and returns.  So whenever the method returns,
    the object is drained and each of the three pipes has [Markers.END] as
    the last message sent. *)
Theorem Middleman_loop_exit (schedule : list Arrival) (self : Middleman) :
  (_continue self = false <->
     PendingJobSet self = ∅ /\ TrackedItem self = ∅ /\
     accepting self = false) /\
  Middleman_loop schedule self =
    (if _continue self
     then
       match schedule with
       | [] => (inr false, self)
       | a :: schedule' => (Middleman_turn a ;; Middleman_loop schedule') self
       end
     else (inr true, shutdown_state self)) /\
  (forall self',
     Middleman_loop schedule self = (inr true, self') ->
     PendingJobSet self' = ∅ /\ TrackedItem self' = ∅ /\
     accepting self' = false /\
     last (outbox (_toLegi self')) = Some OrderLegiEnd /\
     last (outbox (_toDb self')) = Some OrderDbEnd /\
     last (outbox (_fromCommand self')) = Some END).
Proof.
  split; [apply continue_false_iff|].
  split; [apply Middleman_loop_unfold|].
  intros self' Hrun.
  destruct (Middleman_loop_returns _ _ _ Hrun) as [final [Hc ->]].
  apply continue_false_iff in Hc. destruct Hc as (Hj & Hd & Hw).
  repeat split; try assumption; simpl; apply last_snoc.
Qed.

(** *** Tracking entries stay until the database agent acknowledges them *)

Lemma parseText_pure {S} (text : FilteredText) (criteria : SearchFilters)
    (s : S) :
  snd (_parseText text criteria s) = s.
Proof.
  unfold _parseText. py_run.
  assert (Hfm : forall ps, snd (first_match (S := S) ps (content text) s) = s).
  { induction ps as [|p ps IH]; [reflexivity|].
    simpl. py_run. unfold TextPattern.match_, Pattern.match_, Pattern.re__match.
    py_run. destruct (content text) as [c|]; [|reflexivity].
    destruct (re_match _ c) as [m|]; [|exact IH].
    destruct (Pattern.captures (TextPattern.main p) m); reflexivity. }
  specialize (Hfm (structs criteria)).
  destruct (first_match _ _ s) as [[e|[[p r]|]] s']; simpl in *;
    try congruence.
  destruct (publicationDate text); [|simpl; congruence].
  destruct (TextPattern.prepareForInsertion p r (cid text)); simpl;
    congruence.
Qed.

Lemma keeps_tracking_ret : keeps_tracking (mret tt).
Proof. intros self r self' E. inversion E. auto. Qed.

Lemma keeps_tracking_bind (c : M Middleman unit) (k : unit -> M Middleman unit) :
  keeps_tracking c -> (forall u, keeps_tracking (k u)) ->
  keeps_tracking (c ≫= k).
Proof.
  intros Hc Hk self r self' E. unfold mbind, M_bind in E.
  destruct (c self) as [[e|u] mid] eqn:E1.
  - inversion E; subst. eapply Hc; eauto.
  - destruct (Hc _ _ _ E1) as [D1 I1]. destruct (Hk u _ _ _ E) as [D2 I2].
    split; [intros key Hkey; auto|congruence].
Qed.







End MiddlemanFacts.

(** ** The database agent *)

Section StoreFacts.
Context `{RE : Regex, LS : LegiStructure, DS : DbStructure, BE : Backend}.
Import DbConnector DbConnectorFacts.

Lemma nested_roundtrip (w : state) (f : Database -> Database) :
  on_self (set_nesting (_nesting (self w) + 1 - 1))
    (on_db f (on_self (set_nesting (_nesting (self w) + 1)) w)) = on_db f w.
Proof.
  destruct w as [o d]. destruct o. unfold on_self, on_db, set_nesting. simpl.
  rewrite Z.add_simpl_r. reflexivity.
Qed.

Lemma executeAndFetch_in_block (w : state) (q : string) (args : Row) :
  in_block w ->
  fault (committed (db w)) (pending (db w)) q args = false ->
  executeAndFetch q args w =
    (inr (fetchall (committed (db w)) (pending (db w)) q args),
     on_db (db_sent q args) w).
Proof.
  intros [Hpos [c Hc]] Hfault.
  unfold executeAndFetch, with_self, py_with.
  rewrite enter_nested by lia.
  unfold with_cursor, cursor_execute_fetchall, mbind, M_bind, gets, modify.
  simpl. rewrite Hc. simpl. rewrite Hfault. simpl.
  rewrite exit_nested by (simpl; lia).
  simpl. f_equal. apply (nested_roundtrip w (db_sent q args)).
Qed.

Lemma db_sent_all_nil (w : state) : on_db (db_sent_all []) w = w.
Proof.
  destruct w as [o d]. destruct d. unfold on_db, db_sent_all. simpl.
  rewrite app_nil_r. reflexivity.
Qed.

Lemma db_sent_all_cons (w : state) (st : Stmt) (l : list Stmt) :
  on_db (db_sent_all l) (on_db (db_sent (fst st) (snd st)) w) =
  on_db (db_sent_all (st :: l)) w.
Proof.
  destruct w as [o d]. destruct d. destruct st. unfold on_db, db_sent_all.
  simpl. rewrite <- app_assoc. reflexivity.
Qed.

Lemma checkIfKnown_loop_spec (rest : list string) :
  forall (done : list (option string)) (w : state) (sent : list DbMsg),
    in_block w ->
    (forall c, c ∈ rest -> answers (db w) c) ->
    _checkIfKnown_loop (seq (length done) (length rest))
      (done ++ (Some <$> rest)) (mkStore w sent) =
    (inr (done ++ marked (db w) rest),
     mkStore
       (on_db (db_sent_all ((fun c => (selectCid, [VStr c])) <$> rest)) w)
       sent).
Proof.
  induction rest as [|c rest IH]; intros done w sent Hblock Hans.
  - simpl. rewrite db_sent_all_nil. reflexivity.
  - destruct (Hans c) as [Hfault (v & row & rows & Hrows)]; [left|].
    cbn [length seq _checkIfKnown_loop]. py_run.
    rewrite (py_index_lookup _ _ (Some c))
      by (rewrite lookup_app_r by lia; rewrite Nat.sub_diag; reflexivity).
    unfold on_conn at 1. cbn [store_conn store_sent].
    rewrite executeAndFetch_in_block by assumption.
    rewrite Hrows.
    rewrite (py_index_lookup _ _ (v :: row)) by reflexivity.
    rewrite (py_index_lookup _ _ v) by reflexivity.
    rewrite !fmap_cons.
    pose (cell := if truthy v then None else Some c).
    assert (Hupd :
      (if truthy v
       then <[length done := None]> (done ++ Some c :: (Some <$> rest))
       else done ++ Some c :: (Some <$> rest)) =
      (done ++ [cell]) ++ (Some <$> rest)).
    { unfold cell. destruct (truthy v).
      - rewrite insert_app_r_alt by lia. rewrite Nat.sub_diag. simpl.
        rewrite <- app_assoc. reflexivity.
      - rewrite <- app_assoc. reflexivity. }
    rewrite Hupd.
    replace (Datatypes.S (length done)) with (length (done ++ [cell]))
      by (rewrite length_app; simpl; lia).
    fold (_checkIfKnown_loop).
    rewrite (IH (done ++ [cell]) (on_db (db_sent selectCid [VStr c]) w) sent).
    + f_equal.
      * unfold marked. rewrite fmap_cons. unfold known at 2.
        cbn [db on_db committed pending db_sent]. rewrite Hrows.
        fold cell. rewrite <- app_assoc. reflexivity.
      * f_equal.
        apply (db_sent_all_cons w (selectCid, [VStr c])).
    + destruct Hblock as [Hp Hc]. split; assumption.
    + intros c' Hc'. apply (Hans c'). right. exact Hc'.
Qed.

Lemma omap_marked (d : Database) (l : list string) :
  omap id (marked d l) = List.filter (fun c => negb (known d c)) l.
Proof.
  induction l as [|c l IH]; [reflexivity|].
  unfold marked in *. rewrite fmap_cons. simpl.
  destruct (known d c); simpl; rewrite <- IH; reflexivity.
Qed.

(** C7.  For a non-empty batch of CIDs, with the connector inside its
    [with] block and every look-up answered, [_checkIfKnown] sends
    [Statements.selectCid] once per CID in the order of the batch and
    nothing else to the backend, writes nothing, and sends exactly one
    message: the first CID of the batch with the CIDs the store does not
    know, in the order of the batch.  The message is sent whatever that
    sub-list is, the empty one included. *)
Theorem checkIfKnown_spec (s : Store) (c0 : string) (rest : list string) :
  let cidList := c0 :: rest in
  in_block (store_conn s) ->
  (forall c, c ∈ cidList -> answers (db (store_conn s)) c) ->
  _checkIfKnown (inr cidList) s =
    (inr tt,
     {| store_conn :=
          on_db (db_sent_all ((fun c => (selectCid, [VStr c])) <$> cidList))
            (store_conn s);
        store_sent :=
          store_sent s ++
          [DbTextList c0
             (List.filter (fun c => negb (known (db (store_conn s)) c))
                cidList)] |}).
Proof.
  intros cidList Hblock Hans. destruct s as [w sent].
  unfold _checkIfKnown. py_run.
  rewrite (py_index_lookup _ _ c0) by reflexivity.
  pose proof (checkIfKnown_loop_spec cidList [] w sent Hblock Hans) as Hloop.
  cbn [length app] in Hloop. cbn [store_conn store_sent] in *.
  rewrite Hloop.
  unfold db_send. py_run. cbn [store_conn store_sent app].
  rewrite omap_marked. reflexivity.
Qed.

Lemma partition_texts_length (texts : list ParsedText) :
  forall success failure success' failure',
    partition_texts texts success failure = (success', failure') ->
    (length success' + length failure' =
     length texts + length success + length failure)%nat.
Proof.
  induction texts as [|t texts IH]; intros s f s' f' E; simpl in E.
  - inversion E. simpl. lia.
  - destruct t; apply IH in E; rewrite length_app in E; simpl in *; lia.
Qed.

(** Inside the block of [createDbManager], [_storeText] on a batch that is
    not empty raises in its first [executeMany]: the commit is not reached,
    nothing is sent, the connector object is as before. *)
Lemma storeText_in_block (s : Store) (t : ParsedText)
    (texts : list ParsedText) :
  0 < _nesting (self (store_conn s)) ->
  exists e d',
    _storeText (inr (t :: texts)) s =
      (inl e,
       {| store_conn := {| self := self (store_conn s); db := d' |};
          store_sent := store_sent s |}) /\
    committed d' = committed (db (store_conn s)) /\
    opened d' = opened (db (store_conn s)).
Proof.
  intros Hpos. destruct s as [w sent]. cbn [store_conn store_sent] in *.
  unfold _storeText.
  destruct (partition_texts (t :: texts) [] []) as [success failure] eqn:Ep.
  apply partition_texts_length in Ep. simpl in Ep.
  destruct failure as [|f failure].
  - destruct success as [|x success]; [simpl in Ep; lia|].
    rewrite (bool_decide_eq_false_2 (@nil string ≠ []))
      by (intros Hne; apply Hne; reflexivity).
    rewrite (bool_decide_eq_true_2 (x :: success ≠ [])) by discriminate.
    rewrite !fmap_cons.
    destruct (executeMany_in_block insertParsed (parsed_args x)
                (parsed_args <$> success) w Hpos) as (e & d' & E & C & O).
    exists e, d'. split; [|auto].
    py_run. unfold on_conn. cbn [store_conn store_sent].
    match type of E with
    | ?l = _ =>
        match goal with
        | |- context [executeMany ?q ?p w] => change (executeMany q p w) with l
        end
    end.
    rewrite E. reflexivity.
  - rewrite (bool_decide_eq_true_2 (f :: failure ≠ [])) by discriminate.
    rewrite fmap_cons.
    destruct (executeMany_in_block insertFailed [VStr f]
                ((fun x => [VStr x]) <$> failure) w Hpos)
      as (e & d' & E & C & O).
    exists e, d'. split; [|auto].
    py_run. unfold on_conn. cbn [store_conn store_sent].
    match type of E with
    | ?l = _ =>
        match goal with
        | |- context [executeMany ?q ?p w] => change (executeMany q p w) with l
        end
    end.
    rewrite E. reflexivity.
Qed.

(** C5.  In the block of [createDbManager], [_storeText] on a batch of at
    least one parsed text does not reach its commit: its first
    [executeMany] raises (the method ends by looking up the attribute
    [_executeMany], which [DbConnector] does not have), so nothing is
    committed and neither an acknowledgment nor [Markers.END] is sent. *)
Theorem storeText_raises_before_commit (s : Store) (t : ParsedText)
    (texts : list ParsedText) :
  0 < _nesting (self (store_conn s)) ->
  exists e s',
    _storeText (inr (t :: texts)) s = (inl e, s') /\
    committed (db (store_conn s')) = committed (db (store_conn s)) /\
    store_sent s' = store_sent s.
Proof.
  intros Hpos.
  destruct (storeText_in_block s t texts Hpos) as (e & d' & E & C & O).
  eexists e, _. split; [exact E|]. cbn [store_conn store_sent db]. auto.
Qed.



End StoreFacts.

(** ** The Legifrance agent *)

Section SourceFacts.
Context `{RE : Regex, LS : LegiStructure, DS : DbStructure, BE : Backend}.

Lemma mapM_titles {S} (l : list SearchResult) :
  Forall (fun x => titles x <> []) l ->
  forall s : S,
  mapM (fun x => t ← py_index (titles x) 0; mret (title_cid t)) l s =
    (inr ((fun x => match titles x with
                    | t :: _ => title_cid t
                    | [] => ""
                    end) <$> l), s).
Proof.
  induction 1 as [|x l Hx Hl IH]; intros s; [reflexivity|].
  cbn [mapM]. py_run. py_run_in IH. rewrite fmap_cons.
  destruct (titles x) as [|t ts]; [contradiction|].
  rewrite (py_index_lookup _ _ t) by reflexivity.
  rewrite IH. reflexivity.
Qed.

Lemma getTextIdListHelper_spec {S} (connector : Connector)
    (criteria : SearchFilters) (pageNumber resultNumber : Z)
    (r : SearchResponse) (s : S) :
  post_search connector (<["pageNumber" := VInt pageNumber]> (payload criteria))
    = inr r ->
  titled r ->
  _getTextIdListHelper pageNumber criteria connector resultNumber s =
    (inr (pageNumber + 1,
          resultNumber + Z.of_nat (length (search_results r)),
          totalResultNumber r, page_cids r), s).
Proof.
  intros Hpost Ht. unfold _getTextIdListHelper. py_run. rewrite Hpost.
  pose proof (mapM_titles (S := S) _ Ht s) as Hm. py_run_in Hm.
  rewrite Hm. reflexivity.
Qed.

Lemma returned_snoc (pages : list SearchResponse) (r : SearchResponse) :
  returned (pages ++ [r]) = returned pages + Z.of_nat (length (search_results r)).
Proof.
  unfold returned. rewrite fmap_app, concat_app, length_app. simpl.
  rewrite app_nil_r. lia.
Qed.

(** The loop of [_getTextIdList] once the pages [done ++ [r0]] are
    retrieved and the pages [rest] remain. *)
Lemma getTextIdList_loop_spec (connector : Connector)
    (criteria : SearchFilters) (rest : list SearchResponse) :
  forall (done : list SearchResponse) (r0 : SearchResponse) (fuel : nat)
         (sent : list LegiMsg),
    let pages := done ++ r0 :: rest in
    serves connector criteria pages ->
    Forall titled pages ->
    (forall (k : nat) (r : SearchResponse),
       (0 < k < length pages)%nat -> pages !! (k - 1)%nat = Some r ->
       returned (take k pages) < totalResultNumber r) ->
    (forall r, last pages = Some r -> totalResultNumber r <= returned pages) ->
    (length rest <= fuel)%nat ->
    _getTextIdList_loop fuel connector criteria
      (fun textList => legi_send (LegiTextList criteria textList))
      (Z.of_nat (length done) + 2) (returned (done ++ [r0]))
      (totalResultNumber r0) sent =
    (inr tt,
     sent ++ ((fun r => LegiTextList criteria (page_cids r)) <$> rest)).
Proof.
  induction rest as [|r rest IH]; intros done r0 fuel sent pages
    Hserve Htitled Hmore Hstop Hfuel.
  - assert (Hle : totalResultNumber r0 <= returned (done ++ [r0])).
    { apply Hstop. unfold pages. apply last_snoc. }
    destruct fuel; simpl;
      (destruct (Z.ltb_spec (returned (done ++ [r0])) (totalResultNumber r0));
       [lia|]); rewrite app_nil_r; reflexivity.
  - assert (Hlt : returned (done ++ [r0]) < totalResultNumber r0).
    { specialize (Hmore (Datatypes.S (length done)) r0).
      replace (take (Datatypes.S (length done)) pages) with (done ++ [r0])
        in Hmore.
      - apply Hmore.
        + unfold pages. rewrite length_app. simpl. lia.
        + unfold pages. simpl. rewrite Nat.sub_0_r.
          rewrite lookup_app_r by lia. rewrite Nat.sub_diag. reflexivity.
      - unfold pages.
        replace (done ++ r0 :: r :: rest) with ((done ++ [r0]) ++ r :: rest)
          by (rewrite <- app_assoc; reflexivity).
        rewrite take_app_length'; [reflexivity|].
        rewrite length_app. simpl. lia. }
    destruct fuel as [|fuel]; [simpl in Hfuel; lia|].
    cbn [_getTextIdList_loop].
    destruct (Z.ltb_spec (returned (done ++ [r0])) (totalResultNumber r0));
      [|lia].
    py_run.
    assert (Hpost :
      post_search connector
        (<["pageNumber" := VInt (Z.of_nat (length done) + 2)]>
           (payload criteria)) = inr r).
    { replace (Z.of_nat (length done) + 2)
        with (Z.of_nat (Datatypes.S (length done)) + 1) by lia.
      apply Hserve. unfold pages.
      rewrite lookup_app_r by lia.
      replace (Datatypes.S (length done) - length done)%nat with 1%nat by lia.
      reflexivity. }
    assert (Htr : titled r).
    { unfold pages in Htitled. rewrite Forall_app in Htitled.
      destruct Htitled as [_ Ht]. inversion Ht as [|? ? _ Ht']; subst.
      inversion Ht'; subst. assumption. }
    rewrite (getTextIdListHelper_spec _ _ _ _ r sent Hpost Htr).
    unfold legi_send at 1. py_run.
    replace (Z.of_nat (length done) + 2 + 1)
      with (Z.of_nat (length (done ++ [r0])) + 2)
      by (rewrite length_app; simpl; lia).
    rewrite <- returned_snoc.
    assert (Hpages : pages = (done ++ [r0]) ++ r :: rest).
    { unfold pages. rewrite <- app_assoc. reflexivity. }
    rewrite (IH (done ++ [r0]) r fuel
               (sent ++ [LegiTextList criteria (page_cids r)])).
    + rewrite fmap_cons, <- app_assoc. reflexivity.
    + rewrite <- Hpages. exact Hserve.
    + rewrite <- Hpages. exact Htitled.
    + rewrite <- Hpages. exact Hmore.
    + rewrite <- Hpages. exact Hstop.
    + simpl in Hfuel. lia.
Qed.

(** C8.  Let the connector answer the pages 1, 2, ... of a filter with
    [pages], every result carrying a title, such that the results returned
    stay below the total the server reports until the last of these pages,
    where they reach it.  On [(Markers.TEXT_LIST, criteria)] the agent then
    asks for exactly these pages, starting at page 1 (the connector may
    refuse every other request), and sends one message per page, holding
    the CIDs of the page in the order of the answer, followed by
    [(Markers.END, criteria)]. *)
Theorem getTextIdList_pages (connector : Connector) (criteria : SearchFilters)
    (r1 : SearchResponse) (more : list SearchResponse) (fuel : nat)
    (sent : list LegiMsg) :
  let pages := r1 :: more in
  serves connector criteria pages ->
  Forall titled pages ->
  (forall (k : nat) (r : SearchResponse),
     (0 < k < length pages)%nat -> pages !! (k - 1)%nat = Some r ->
     returned (take k pages) < totalResultNumber r) ->
  (forall r, last pages = Some r -> totalResultNumber r <= returned pages) ->
  (length more <= fuel)%nat ->
  textProvider_order fuel connector (OrderLegiTextList criteria) sent =
    (inr tt,
     sent ++ ((fun r => LegiTextList criteria (page_cids r)) <$> pages)
          ++ [LegiEnd criteria]).
Proof.
  intros pages Hserve Htitled Hmore Hstop Hfuel.
  unfold textProvider_order, _getTextIdList. py_run.
  assert (Hpost :
    post_search connector (<["pageNumber" := VInt 1]> (payload criteria))
      = inr r1).
  { apply (Hserve 0%nat r1). reflexivity. }
  assert (Ht1 : titled r1) by (inversion Htitled; assumption).
  rewrite (getTextIdListHelper_spec _ _ _ _ r1 sent Hpost Ht1).
  unfold legi_send at 1. py_run.
  pose proof (getTextIdList_loop_spec connector criteria more [] r1 fuel
                (sent ++ [LegiTextList criteria (page_cids r1)])
                Hserve Htitled Hmore Hstop Hfuel) as Hloop.
  cbn [length app] in Hloop.
  replace (returned [r1]) with (0 + Z.of_nat (length (search_results r1)))
    in Hloop by (unfold returned; simpl; rewrite app_nil_r; lia).
  change (Z.of_nat 0 + 2) with (1 + 1) in Hloop.
  rewrite Hloop. unfold legi_send. py_run.
  unfold pages. rewrite fmap_cons, <- !app_assoc. reflexivity.
Qed.

Lemma filterLegiText_incomplete {S} (text : JorfText) (s : S) :
  length (articles text) <> 1%nat ->
  _filterLegiText text s =
    (inr {| cid := jorf_cid text;
            publicationDate := dateParution text;
            content := None |}, s).
Proof.
  intros Hlen. unfold _filterLegiText. py_run.
  destruct (Nat.eqb_spec (length (articles text)) 1); [contradiction|].
  reflexivity.
Qed.

Lemma getText_incomplete (connector : Connector) (cids : list string)
    (texts : list JorfText) :
  Forall2 (fun c text => post_consult connector c = inr text) cids texts ->
  Forall (fun text => length (articles text) <> 1%nat) texts ->
  forall sent : list LegiMsg,
    py_for cids (fun e =>
      result ← lift_result (post_consult connector e);
      (t ← _filterLegiText result; legi_send (LegiText t))) sent =
    (inr tt, sent ++ (without_content <$> texts)).
Proof.
  induction 1 as [|c text cids texts Hpost Hrest IH]; intros Hinc sent.
  - simpl. rewrite app_nil_r. reflexivity.
  - inversion Hinc as [|? ? Hlen Hinc']; subst.
    specialize (IH Hinc'). py_run_in IH.
    cbn [py_for]. py_run. rewrite Hpost.
    rewrite (filterLegiText_incomplete text sent Hlen).
    unfold legi_send at 1. py_run.
    rewrite IH. rewrite fmap_cons, <- app_assoc. reflexivity.
Qed.

(** C9.  When the answers to [/consult/jorf] for the requested CIDs carry
    an [articles] array that does not hold exactly one element (none, or
    several), the agent does not raise: for each of them, in order, it sends
    [(Markers.TEXT, text)] where [text] has the CID and the publication date
    of the answer and [None] as content.  This holds for a list of CIDs and
    for a single CID. *)
Theorem getText_fails_soft (connector : Connector) (fuel : nat)
    (cids : list string) (texts : list JorfText) (sent : list LegiMsg) :
  Forall2 (fun c text => post_consult connector c = inr text) cids texts ->
  Forall (fun text => length (articles text) <> 1%nat) texts ->
  textProvider_order fuel connector (OrderLegiText (inr cids)) sent =
    (inr tt, sent ++ (without_content <$> texts)) /\
  (forall c text,
     cids = [c] -> texts = [text] ->
     textProvider_order fuel connector (OrderLegiText (inl c)) sent =
       (inr tt, sent ++ [without_content text])).
Proof.
  intros Hpost Hinc. split.
  - unfold textProvider_order, _getText.
    apply (getText_incomplete connector cids texts Hpost Hinc sent).
  - intros c text -> ->. unfold textProvider_order, _getText.
    apply (getText_incomplete connector [c] [text] Hpost Hinc sent).
Qed.

(** A listing without results: the agent sends the empty first page, then
    [(Markers.END, criteria)]. *)
Lemma getTextIdList_no_result (connector : Connector)
    (criteria : SearchFilters) (fuel : nat) (sent : list LegiMsg) :
  post_search connector (<["pageNumber" := VInt 1]> (payload criteria))
    = inr (mkSearchResponse 0 []) ->
  textProvider_order fuel connector (OrderLegiTextList criteria) sent =
    (inr tt, sent ++ [LegiTextList criteria []; LegiEnd criteria]).
Proof.
  intros Hpost. unfold textProvider_order, _getTextIdList. py_run.
  rewrite (getTextIdListHelper_spec _ _ _ _ (mkSearchResponse 0 []) sent Hpost)
    by constructor.
  unfold legi_send at 1. py_run. cbn [search_results length totalResultNumber].
  destruct fuel; simpl; unfold legi_send; py_run;
    rewrite <- app_assoc; reflexivity.
Qed.

End SourceFacts.

(** ** Pages without CIDs and texts without content *)

Section RoutingFacts.
Context `{RE : Regex, LS : LegiStructure, DS : DbStructure, BE : Backend}.

(** C2, as the code has it.  For a listing without results the Legifrance
    agent does not raise: it sends the first page, empty, and then
    [(Markers.END, criteria)].  On the empty page the Middleman does send
    the batch of size zero to the database agent, as [(Markers.TEXT_LIST,
    [])], and then raises [IndexError] when it takes the first CID of the
    page as key.  The database agent raises [IndexError] on that batch
    too. *)
Theorem empty_page_is_forwarded (connector : Connector)
    (criteria : SearchFilters) (fuel : nat) (sent : list LegiMsg)
    (self : Middleman) (s : Store) :
  post_search connector (<["pageNumber" := VInt 1]> (payload criteria))
    = inr (mkSearchResponse 0 []) ->
  textProvider_order fuel connector (OrderLegiTextList criteria) sent =
    (inr tt, sent ++ [LegiTextList criteria []; LegiEnd criteria]) /\
  _handleLegiMsg_message (LegiTextList criteria []) self =
    (inl IndexError, set_toDb (send (OrderDbTextList (inr []))) self) /\
  _checkIfKnown (inr []) s = (inl IndexError, s).
Proof.
  intros Hpost. split; [|split].
  - apply getTextIdList_no_result. exact Hpost.
  - reflexivity.
  - reflexivity.
Qed.

(** C3, as the code has it.  For a fetched text without content, tracked
    under a filter that has at least one pattern, the Middleman does call
    the pattern matching on the missing content: [re.match] refuses [None]
    with [TypeError], which leaves [_parseText] and the handler.  Nothing is
    sent to the database agent for the text, and its tracking entry
    stays. *)
Theorem none_content_is_matched (self : Middleman) (text : FilteredText)
    (criteria : SearchFilters) (p : TextPattern.t) (ps : list TextPattern.t) :
  content text = None ->
  _commandsDict self !! cid text = Some criteria ->
  structs criteria = p :: ps ->
  TextPattern.match_ (S := Middleman) p (content text) self
    = (inl TypeError, self) /\
  _handleLegiMsg_message (LegiText text) self = (inl TypeError, self).
Proof.
  intros Hnone Hdict Hstructs. split.
  - rewrite Hnone. reflexivity.
  - unfold _handleLegiMsg_message, dict_get, _parseText. py_run.
    rewrite Hdict, Hstructs, Hnone. reflexivity.
Qed.

End RoutingFacts.

(** ** The request quota *)

Module QuotaFacts.
Import LegiConnector.

Lemma lapse_nonneg (d : Lapse) : (0 <= lapse_Q d)%Q.
Proof.
  unfold lapse_Q, Qle. simpl. rewrite Z.mul_1_r. apply N2Z.is_nonneg.
Qed.

Lemma py_int_lt_succ (x : Q) : (x < inject_Z (py_int x) + 1)%Q.
Proof.
  unfold py_int. destruct (Qle_bool 0 x).
  - pose proof (Qlt_floor x) as Hf. rewrite inject_Z_plus in Hf. exact Hf.
  - pose proof (Qle_ceiling x). lra.
Qed.

Lemma py_int_gt_pred (x : Q) : (inject_Z (py_int x) - 1 < x)%Q.
Proof.
  unfold py_int. destruct (Qle_bool 0 x).
  - pose proof (Qfloor_le x). lra.
  - pose proof (Qceiling_lt x) as Hc.
    unfold Z.sub in Hc. rewrite inject_Z_plus, inject_Z_opp in Hc.
    change (inject_Z 1) with 1%Q in Hc. lra.
Qed.

Lemma int_below (e : Z) (x : Q) : (inject_Z e < x)%Q -> e <= py_int x.
Proof.
  intros He. pose proof (py_int_lt_succ x) as Hx.
  assert (Hlt : (inject_Z e < inject_Z (py_int x + 1))%Q)
    by (rewrite inject_Z_plus; change (inject_Z 1) with 1%Q; lra).
  rewrite <- Zlt_Qlt in Hlt. lia.
Qed.

Lemma py_int_mono (x y : Q) : (x <= y)%Q -> py_int x <= py_int y.
Proof.
  intros Hxy.
  assert (Hlt : (inject_Z (py_int x) - 1 < y)%Q)
    by (pose proof (py_int_gt_pred x); lra).
  assert (Hz : (inject_Z (py_int x - 1) < y)%Q).
  { unfold Z.sub. rewrite inject_Z_plus, inject_Z_opp.
    change (inject_Z 1) with 1%Q. lra. }
  apply int_below in Hz.
  destruct (Z.eq_dec (py_int y) (py_int x - 1)) as [Heq|Hne]; [|lia].
  exfalso. unfold py_int in *.
  destruct (Qle_bool 0 x) eqn:Ex; destruct (Qle_bool 0 y) eqn:Ey.
  - pose proof (Qfloor_resp_le _ _ Hxy). lia.
  - apply Qle_bool_iff in Ex.
    assert (Hy : ~ (0 <= y)%Q) by (rewrite <- Qle_bool_iff; congruence).
    lra.
  - assert (Hx : ~ (0 <= x)%Q) by (rewrite <- Qle_bool_iff; congruence).
    apply Qle_bool_iff in Ey.
    pose proof (Qfloor_resp_le _ _ Ey) as Hf. change 0%Q with (inject_Z 0) in Hf.
    rewrite Qfloor_Z in Hf.
    pose proof (Qceiling_lt x) as Hc.
    assert (Hc0 : (inject_Z (Qceiling x - 1) < inject_Z 0)%Q)
      by (change (inject_Z 0) with 0%Q; lra).
    rewrite <- Zlt_Qlt in Hc0. lia.
  - pose proof (Qceiling_resp_le _ _ Hxy). lia.
Qed.

Lemma scan_shift (now : Q) (l : list Z) :
  forall i, scan now l i = (i + scan now l 0)%nat.
Proof.
  induction l as [|q l IH]; intros i; simpl; [lia|].
  destruct (QMicromega.Qlt_bool (inject_Z q) now); [|lia].
  rewrite (IH (Datatypes.S i)), (IH 1%nat). lia.
Qed.

(** [_checkQuotas] removes a front of expired entries and stops at an entry
    that has not expired. *)
Lemma scan_split (now : Q) (l : list Z) :
  exists gone kept,
    l = gone ++ kept /\
    drop (scan now l 0) l = kept /\
    Forall (fun q => (inject_Z q < now)%Q) gone /\
    match kept with
    | [] => True
    | q :: _ => (now <= inject_Z q)%Q
    end.
Proof.
  induction l as [|q l IH].
  - exists [], []. repeat split; constructor.
  - simpl. destruct (QMicromega.Qlt_bool (inject_Z q) now) eqn:E.
    + destruct IH as (gone & kept & Hl & Hd & Hg & Hk).
      exists (q :: gone), kept. rewrite scan_shift. simpl.
      repeat split; [rewrite Hl; reflexivity|exact Hd| |exact Hk].
      constructor; [|exact Hg]. apply QMicromega.Qlt_bool_iff. exact E.
    + exists [], (q :: l). repeat split; [constructor|].
      apply Qnot_lt_le. rewrite <- QMicromega.Qlt_bool_iff. congruence.
Qed.

Lemma Inv_init (dummy : bool) (t0 : Q) :
  Inv {| self := __init__ dummy; wall := t0; issued := [] |}.
Proof.
  constructor; simpl.
  - exists [], []. repeat split; constructor.
  - unfold _QUOTA_LIMIT. lia.
  - constructor.
  - constructor.
Qed.

Lemma Forall_expired_later (l : list Z) (t t' : Q) :
  (t <= t')%Q ->
  Forall (fun s => (inject_Z (s + _PERIOD) < t)%Q) l ->
  Forall (fun s => (inject_Z (s + _PERIOD) < t')%Q) l.
Proof.
  intros Ht Hl. eapply Forall_impl; [exact Hl|]. intros s Hs. simpl in Hs. lra.
Qed.

Lemma Forall_past_later (l : list Z) (t t' : Q) :
  (t <= t')%Q ->
  Forall (fun s => s <= py_int t) l ->
  Forall (fun s => s <= py_int t') l.
Proof.
  intros Ht Hl. eapply Forall_impl; [exact Hl|]. intros s Hs. simpl in Hs.
  pose proof (py_int_mono _ _ Ht). lia.
Qed.

Lemma Inv_wall (w : state) (now : Q) :
  Inv w -> (wall w <= now)%Q -> Inv (set_wall now w).
Proof.
  intros [Hs Hl Ho Hp] Hnow. constructor; simpl; try assumption.
  - destruct Hs as (old & cur & Hi & Hq & He).
    exists old, cur. repeat split; try assumption.
    eapply Forall_expired_later; eassumption.
  - eapply Forall_past_later; eassumption.
Qed.

(** A scan at the current time keeps the invariant, and all that it keeps
    has not expired. *)
Lemma Inv_scan (w : state) :
  Inv w ->
  exists gone kept,
    _quotas (self w) = gone ++ kept /\
    drop (scan (wall w) (_quotas (self w)) 0) (_quotas (self w)) = kept /\
    Forall (fun q => (inject_Z q < wall w)%Q) gone /\
    Forall (fun q => (wall w <= inject_Z q)%Q) kept /\
    Inv (set_quotas kept w).
Proof.
  intros [Hs Hl Ho Hp].
  destruct (scan_split (wall w) (_quotas (self w)))
    as (gone & kept & Hq & Hd & Hg & Hk).
  exists gone, kept. repeat split; try assumption.
  - (* the rest is in order, so it is above its first entry *)
    destruct Hs as (old & cur & Hi & Hc & He).
    assert (Hsq : StronglySorted Z.le (_quotas (self w))).
    { rewrite Hc. apply StronglySorted_fmap with (R1 := Z.le); [intros; lia|].
      rewrite Hi in Ho. eapply StronglySorted_app_1_r. exact Ho. }
    rewrite Hq in Hsq. apply StronglySorted_app_1_r in Hsq.
    destruct kept as [|q kept]; [constructor|].
    apply StronglySorted_inv in Hsq. destruct Hsq as [_ Hall].
    constructor; [exact Hk|].
    eapply Forall_impl; [exact Hall|]. intros q' Hq'. simpl in Hq'.
    rewrite Zle_Qle in Hq'. lra.
  - destruct Hs as (old & cur & Hi & Hc & He).
    rewrite Hc in Hq. apply fmap_app_inv in Hq.
    destruct Hq as (cg & ck & Hgone & Hkept & Hcur).
    exists (old ++ cg), ck. simpl. repeat split.
    + rewrite Hi, Hcur, app_assoc. reflexivity.
    + exact Hkept.
    + apply Forall_app. split; [exact He|].
      rewrite Hgone in Hg. rewrite Forall_fmap in Hg. exact Hg.
  - simpl. rewrite Hq in Hl. rewrite length_app in Hl. lia.
Qed.

(** Recording a request at the current time keeps the invariant when the
    window has room. *)
Lemma Inv_append (w : state) :
  Inv w ->
  Z.of_nat (length (_quotas (self w))) < _QUOTA_LIMIT ->
  Inv {| self := {| _dummy := _dummy (self w);
                    _quotas := _quotas (self w) ++ [py_int (wall w) + _PERIOD] |};
         wall := wall w;
         issued := issued w ++ [py_int (wall w)] |}.
Proof.
  intros [Hs Hl Ho Hp] Hroom. constructor; simpl.
  - destruct Hs as (old & cur & Hi & Hc & He).
    exists old, (cur ++ [py_int (wall w)]). repeat split.
    + rewrite Hi, app_assoc. reflexivity.
    + rewrite Hc, fmap_app. reflexivity.
    + exact He.
  - rewrite length_app. simpl. lia.
  - apply StronglySorted_app_2; [|exact Ho|repeat constructor].
    intros x1 x2 H1 H2. apply list_elem_of_singleton in H2. subst x2.
    rewrite Forall_forall in Hp. apply Hp. exact H1.
  - apply Forall_app. split; [exact Hp|]. repeat constructor. lia.
Qed.

(** At most [_QUOTA_LIMIT] requests lie in the [_PERIOD] seconds that end
    with the current second. *)
Lemma Inv_recent (w : state) :
  Inv w ->
  Z.of_nat (length (recent (py_int (wall w)) (issued w))) <= _QUOTA_LIMIT.
Proof.
  intros [Hs Hl Ho Hp]. destruct Hs as (old & cur & Hi & Hc & He).
  unfold recent. rewrite Hi, List.filter_app, length_app.
  assert (Hold :
    List.filter (fun s => (py_int (wall w) - _PERIOD <? s)%Z) old = []).
  { clear Hi. induction old as [|s old IH]; [reflexivity|].
    inversion He as [|? ? Hs' He']; subst. simpl.
    apply int_below in Hs'.
    destruct (Z.ltb_spec (py_int (wall w) - _PERIOD) s); [lia|].
    apply IH. exact He'. }
  rewrite Hold. simpl.
  pose proof (List.filter_length_le
                (fun s => (py_int (wall w) - _PERIOD <? s)%Z) cur) as Hf.
  rewrite Hc, length_fmap in Hl. lia.
Qed.

Lemma waitIfNeeded_unfold (path : string) (e : Elapsed) (w : state) :
  let now1 := (wall w + lapse_Q (before_scan1 e))%Q in
  let kept1 := drop (scan now1 (_quotas (self w)) 0) (_quotas (self w)) in
  _waitIfNeeded path e w =
    if (_QUOTA_LIMIT <=? Z.of_nat (length kept1))%Z
    then
      match kept1 with
      | [] => (inl IndexError, set_quotas kept1 (set_wall now1 w))
      | q0 :: _ =>
          let now2 := (now1 + lapse_Q (before_sleep e))%Q in
          if (q0 - py_int now2 + 1 <? 0)%Z
          then (inl ValueError,
                set_wall now2 (set_quotas kept1 (set_wall now1 w)))
          else (inr tt,
                after_wait w kept1
                  (now2 + inject_Z (q0 - py_int now2 + 1)
                   + lapse_Q (before_scan2 e))%Q
                  (before_stamp e))
      end
    else (inr tt,
          after_wait w kept1 (now1 + lapse_Q (before_scan2 e))%Q
            (before_stamp e)).
Proof.
  intros now1 kept1.
  unfold _waitIfNeeded, _checkQuotas, time. py_run.
  cbn [self wall issued set_quotas set_wall _quotas _dummy].
  fold now1. fold kept1.
  destruct (_QUOTA_LIMIT <=? Z.of_nat (length kept1))%Z.
  - destruct kept1 as [|q0 rest] eqn:Ek; [reflexivity|].
    rewrite (py_index_lookup _ _ q0) by reflexivity.
    cbn [self wall issued set_quotas set_wall _quotas _dummy].
    unfold sleep.
    destruct (q0 - py_int (now1 + lapse_Q (before_sleep e)) + 1 <? 0)%Z;
      reflexivity.
  - reflexivity.
Qed.

(** The call, when the sleep (if any) is not refused. *)
Lemma waitIfNeeded_post (path : string) (e : Elapsed) (w : state) :
  Inv w ->
  let now1 := (wall w + lapse_Q (before_scan1 e))%Q in
  let now2 := (now1 + lapse_Q (before_sleep e))%Q in
  (forall q0 rest,
     drop (scan now1 (_quotas (self w)) 0) (_quotas (self w)) = q0 :: rest ->
     _QUOTA_LIMIT <= Z.of_nat (length (q0 :: rest)) ->
     0 <= q0 - py_int now2 + 1) ->
  exists (w' : state) (now3 : Q) (gone1 kept1 gone2 kept2 : list Z),
    _waitIfNeeded path e w = (inr tt, w') /\
    _quotas (self w) = gone1 ++ kept1 /\
    Forall (fun q => (inject_Z q < now1)%Q) gone1 /\
    Forall (fun q => (now1 <= inject_Z q)%Q) kept1 /\
    (_QUOTA_LIMIT <= Z.of_nat (length kept1) ->
       exists q0 rest,
         kept1 = q0 :: rest /\
         now3 = (now2 + inject_Z (q0 - py_int now2 + 1)
                 + lapse_Q (before_scan2 e))%Q /\
         (inject_Z q0 < now3)%Q) /\
    (Z.of_nat (length kept1) < _QUOTA_LIMIT ->
       now3 = (now1 + lapse_Q (before_scan2 e))%Q) /\
    kept1 = gone2 ++ kept2 /\
    Forall (fun q => (inject_Z q < now3)%Q) gone2 /\
    Forall (fun q => (now3 <= inject_Z q)%Q) kept2 /\
    wall w' = (now3 + lapse_Q (before_stamp e))%Q /\
    _quotas (self w') = kept2 ++ [py_int (wall w') + _PERIOD] /\
    issued w' = issued w ++ [py_int (wall w')] /\
    Inv w'.
Proof.
  intros Hinv now1 now2 Hsleep.
  pose proof (lapse_nonneg (before_scan1 e)) as L1.
  pose proof (lapse_nonneg (before_sleep e)) as Ls.
  pose proof (lapse_nonneg (before_scan2 e)) as L3.
  pose proof (lapse_nonneg (before_stamp e)) as L4.
  assert (Hinv1 : Inv (set_wall now1 w))
    by (apply Inv_wall; [exact Hinv|unfold now1; lra]).
  destruct (Inv_scan _ Hinv1) as (gone1 & kept1 & Hq1 & Hd1 & Hg1 & Hk1 & Hinv1').
  cbn [set_wall self wall] in Hq1, Hd1, Hg1, Hk1.
  (* the time of the second scan *)
  assert (Hnow3 : exists now3 : Q,
    (now1 <= now3)%Q /\
    _waitIfNeeded path e w = (inr tt, after_wait w kept1 now3 (before_stamp e)) /\
    (_QUOTA_LIMIT <= Z.of_nat (length kept1) ->
       exists q0 rest,
         kept1 = q0 :: rest /\
         now3 = (now2 + inject_Z (q0 - py_int now2 + 1)
                 + lapse_Q (before_scan2 e))%Q /\
         (inject_Z q0 < now3)%Q) /\
    (Z.of_nat (length kept1) < _QUOTA_LIMIT ->
       now3 = (now1 + lapse_Q (before_scan2 e))%Q)).
  { pose proof (waitIfNeeded_unfold path e w) as Hu. cbn zeta in Hu.
    fold now1 in Hu. rewrite Hd1 in Hu. fold now2 in Hu.
    destruct (Z.leb_spec _QUOTA_LIMIT (Z.of_nat (length kept1))) as [Hfull|Hroom].
    - destruct kept1 as [|q0 rest]; [unfold _QUOTA_LIMIT in Hfull; simpl in Hfull; lia|].
      specialize (Hsleep q0 rest Hd1 Hfull).
      destruct (Z.ltb_spec (q0 - py_int now2 + 1) 0) as [Hneg|Hpos]; [lia|].
      pose proof (py_int_gt_pred now2) as Hint.
      assert (Hmargin : (inject_Z q0 < now2 + inject_Z (q0 - py_int now2 + 1))%Q).
      { unfold Z.sub. rewrite !inject_Z_plus, inject_Z_opp.
        change (inject_Z 1) with 1%Q. lra. }
      assert (Hd0 : (0 <= inject_Z (q0 - py_int now2 + 1))%Q).
      { change 0%Q with (inject_Z 0). rewrite <- Zle_Qle. exact Hpos. }
      eexists. split; [|split; [exact Hu|split]].
      + unfold now2 in *. lra.
      + intros _. exists q0, rest. split; [reflexivity|].
        split; [reflexivity|]. lra.
      + intros Hlt. lia.
    - eexists. split; [|split; [exact Hu|split]].
      + lra.
      + intros Hfull. lia.
      + intros _. reflexivity. }
  destruct Hnow3 as (now3 & Hle3 & Hrun & Hfull & Hroom).
  assert (Hinv2 : Inv (set_wall now3 (set_quotas kept1 (set_wall now1 w))))
    by (apply Inv_wall; [exact Hinv1'|exact Hle3]).
  destruct (Inv_scan _ Hinv2) as (gone2 & kept2 & Hq2 & Hd2 & Hg2 & Hk2 & Hinv2').
  cbn [set_wall set_quotas self wall _quotas] in Hq2, Hd2, Hg2, Hk2.
  (* the window has room after the second scan *)
  assert (Hlen2 : Z.of_nat (length kept2) < _QUOTA_LIMIT).
  { pose proof (inv_length _ Hinv1') as Hl1.
    cbn [set_quotas self _quotas] in Hl1.
    rewrite Hq2, length_app in Hl1.
    destruct (Z.leb_spec _QUOTA_LIMIT (Z.of_nat (length kept1))) as [Hf|Hr].
    - destruct (Hfull Hf) as (q0 & rest & Hk & _ & Hexp).
      destruct gone2 as [|g gone2]; [|simpl in Hl1; lia].
      simpl in Hq2. rewrite <- Hq2, Hk in Hk2.
      inversion Hk2; subst. lra.
    - rewrite Hq2, length_app in Hr. lia. }
  set (now4 := (now3 + lapse_Q (before_stamp e))%Q).
  assert (Hinv3 :
    Inv (set_wall now4
           (set_quotas kept2
              (set_wall now3 (set_quotas kept1 (set_wall now1 w))))))
    by (apply Inv_wall; [exact Hinv2'|unfold now4; simpl; lra]).
  pose proof (Inv_append _ Hinv3 Hlen2) as Hinv4.
  cbn [set_wall set_quotas self wall _quotas _dummy issued] in Hinv4.
  assert (Hw' : after_wait w kept1 now3 (before_stamp e) =
    {| self := {| _dummy := _dummy (self w);
                  _quotas := kept2 ++ [py_int now4 + _PERIOD] |};
       wall := now4;
       issued := issued w ++ [py_int now4] |}).
  { unfold after_wait. rewrite Hd2. reflexivity. }
  rewrite <- Hw' in Hinv4.
  exists (after_wait w kept1 now3 (before_stamp e)), now3,
    gone1, kept1, gone2, kept2.
  split; [exact Hrun|]. split; [exact Hq1|]. split; [exact Hg1|].
  split; [exact Hk1|]. split; [exact Hfull|]. split; [exact Hroom|].
  split; [exact Hq2|]. split; [exact Hg2|]. split; [exact Hk2|].
  rewrite Hw'. cbn [self wall issued _quotas].
  split; [reflexivity|]. split; [reflexivity|]. split; [reflexivity|].
  rewrite <- Hw'. exact Hinv4.
Qed.

Lemma waitIfNeeded_inv (path : string) (e : Elapsed) (w w' : state) :
  Inv w -> _waitIfNeeded path e w = (inr tt, w') -> Inv w'.
Proof.
  intros Hinv Hrun.
  destruct (waitIfNeeded_post path e w Hinv)
    as (w2 & ? & ? & ? & ? & ? & Hrun2
        & _ & _ & _ & _ & _ & _ & _ & _ & _ & _ & _ & Hinv').
  - intros q0 rest Hk Hfull.
    pose proof (waitIfNeeded_unfold path e w) as Hu. cbn zeta in Hu.
    rewrite Hk in Hu.
    destruct (Z.leb_spec _QUOTA_LIMIT (Z.of_nat (length (q0 :: rest))));
      [|lia].
    destruct (Z.ltb_spec
                (q0 - py_int (wall w + lapse_Q (before_scan1 e)
                              + lapse_Q (before_sleep e)) + 1) 0);
      [|assumption].
    rewrite Hu in Hrun. discriminate.
  - rewrite Hrun in Hrun2. inversion Hrun2; subst. exact Hinv'.
Qed.

Lemma requests_inv (es : list (string * Elapsed)) :
  forall w w', Inv w -> requests es w = (inr tt, w') -> Inv w'.
Proof.
  unfold requests.
  induction es as [|[path e] es IH]; intros w w' Hinv Hrun.
  - inversion Hrun; subst. exact Hinv.
  - cbn [py_for] in Hrun. revert Hrun. py_run.
    cbn [fst snd].
    destruct (_waitIfNeeded path e w) as [[x|[]] w1] eqn:E1; [discriminate|].
    intros Hrun. eapply IH; [|exact Hrun].
    eapply waitIfNeeded_inv; eassumption.
Qed.

(** X23.  The window of [_waitIfNeeded] counted in whole seconds.  Take
    any state reached from a new connector by a sequence of
    requests, and one more call of [_waitIfNeeded] in which less than a
    second passes between the first scan and the reading that sets the
    length of the sleep.  The call returns.  Its first scan, at time
    [now1], removes from the front of the window the entries that have
    expired and keeps the others.  When the window is then full, the call
    sleeps for the expiry of the oldest entry minus the current second plus
    one, so that the oldest entry has expired when the window is scanned
    again at time [now3]; when there is room it does not sleep.  The
    second scan again removes the expired entries, and the call appends the
    expiry of the new request, its second plus [_PERIOD].  On return the
    window holds at most [_QUOTA_LIMIT] entries, and at most [_QUOTA_LIMIT]
    of all the requests let through so far, the new one included, have
    their recorded second, [int(time())], in the [_PERIOD] whole seconds
    that end with the current second.  The bound is on the recorded
    seconds only: an entry of [_quotas] can expire up to a second less
    than [_PERIOD] after its request. *)
Theorem waitIfNeeded_respects_quota (dummy : bool) (t0 : Q)
    (es : list (string * Elapsed)) (path : string) (e : Elapsed)
    (w : state) :
  requests es {| self := __init__ dummy; wall := t0; issued := [] |}
    = (inr tt, w) ->
  (lapse_Q (before_sleep e) < 1)%Q ->
  let now1 := (wall w + lapse_Q (before_scan1 e))%Q in
  let now2 := (now1 + lapse_Q (before_sleep e))%Q in
  exists (w' : state) (now3 : Q) (gone1 kept1 gone2 kept2 : list Z),
    _waitIfNeeded path e w = (inr tt, w') /\
    _quotas (self w) = gone1 ++ kept1 /\
    Forall (fun q => (inject_Z q < now1)%Q) gone1 /\
    Forall (fun q => (now1 <= inject_Z q)%Q) kept1 /\
    (_QUOTA_LIMIT <= Z.of_nat (length kept1) ->
       exists q0 rest,
         kept1 = q0 :: rest /\
         now3 = (now2 + inject_Z (q0 - py_int now2 + 1)
                 + lapse_Q (before_scan2 e))%Q /\
         (inject_Z q0 < now3)%Q) /\
    (Z.of_nat (length kept1) < _QUOTA_LIMIT ->
       now3 = (now1 + lapse_Q (before_scan2 e))%Q) /\
    kept1 = gone2 ++ kept2 /\
    Forall (fun q => (inject_Z q < now3)%Q) gone2 /\
    Forall (fun q => (now3 <= inject_Z q)%Q) kept2 /\
    wall w' = (now3 + lapse_Q (before_stamp e))%Q /\
    _quotas (self w') = kept2 ++ [py_int (wall w') + _PERIOD] /\
    issued w' = issued w ++ [py_int (wall w')] /\
    Z.of_nat (length (_quotas (self w'))) <= _QUOTA_LIMIT /\
    Z.of_nat (length (recent (py_int (wall w')) (issued w'))) <= _QUOTA_LIMIT.
Proof.
  intros Hreach Hfast now1 now2.
  assert (Hinv : Inv w).
  { eapply requests_inv; [|exact Hreach]. apply Inv_init. }
  destruct (waitIfNeeded_post path e w Hinv)
    as (w' & now3 & gone1 & kept1 & gone2 & kept2 & Hrun & Hq1 & Hg1 & Hk1
        & Hfull & Hroom & Hq2 & Hg2 & Hk2 & Hwall & Hquotas & Hissued & Hinv').
  - intros q0 rest Hk _. fold now1. fold now2.
    destruct (scan_split now1 (_quotas (self w)))
      as (gone & kept & _ & Hd & _ & Hhead).
    fold now1 in Hk. rewrite Hk in Hd. subst kept.
    pose proof (py_int_gt_pred now2) as Hint.
    assert (Hlt : (inject_Z (py_int now2) < inject_Z (q0 + 2))%Q).
    { rewrite inject_Z_plus. change (inject_Z 2) with 2%Q.
      unfold now2 in *. lra. }
    rewrite <- Zlt_Qlt in Hlt. lia.
  - exists w', now3, gone1, kept1, gone2, kept2.
    repeat (split; [assumption|]).
    split; [apply inv_length; exact Hinv'|].
    apply Inv_recent. exact Hinv'.
Qed.

Lemma py_int_comp (x y : Q) : (x == y)%Q -> py_int x = py_int y.
Proof.
  intros Hxy.
  assert (H1 : py_int x <= py_int y) by (apply py_int_mono; lra).
  assert (H2 : py_int y <= py_int x) by (apply py_int_mono; lra).
  lia.
Qed.

Lemma scan_kept (now : Q) (E : Z) (k : nat) :
  (now <= inject_Z E)%Q -> scan now (replicate k E) 0 = 0%nat.
Proof.
  intros Hle. destruct k as [|k]; [reflexivity|]. cbn.
  destruct (QMicromega.Qlt_bool (inject_Z E) now) eqn:Eq; [|reflexivity].
  apply QMicromega.Qlt_bool_iff in Eq. lra.
Qed.

Lemma scan_gone (now : Q) (E : Z) (k : nat) :
  (inject_Z E < now)%Q -> scan now (replicate k E) 0 = k.
Proof.
  intros Hlt. induction k as [|k IH]; [reflexivity|]. cbn.
  apply QMicromega.Qlt_bool_iff in Hlt. rewrite Hlt.
  rewrite scan_shift, IH. reflexivity.
Qed.

Lemma replicate_snoc {A} (k : nat) (x : A) :
  replicate k x ++ [x] = replicate (S k) x.
Proof. induction k as [|k IH]; [reflexivity|]. cbn. rewrite IH. reflexivity. Qed.

(** A call at once, while the window holds fewer than [_QUOTA_LIMIT]
    entries that all expire with the current second: it adds one more and
    does not sleep. *)
Lemma at_once_step (path : string) (w : state) (T : Q) (k : nat) :
  (wall w == T)%Q ->
  _quotas (self w) = replicate k (py_int T + _PERIOD) ->
  (k < Z.to_nat _QUOTA_LIMIT)%nat ->
  exists w',
    _waitIfNeeded path at_once w = (inr tt, w') /\
    (wall w' == T)%Q /\
    _quotas (self w') = replicate (S k) (py_int T + _PERIOD).
Proof.
  intros Hwall Hq Hk.
  pose proof (waitIfNeeded_unfold path at_once w) as Hu. cbn zeta in Hu.
  change (lapse_Q (before_scan1 at_once)) with (0 # 1)%Q in Hu.
  change (lapse_Q (before_scan2 at_once)) with (0 # 1)%Q in Hu.
  change (lapse_Q (before_stamp at_once)) with (0 # 1)%Q in Hu.
  change (lapse_Q (before_sleep at_once)) with (0 # 1)%Q in Hu.
  pose proof (py_int_lt_succ T) as Hint.
  assert (HE : (T <= inject_Z (py_int T + _PERIOD))%Q).
  { rewrite inject_Z_plus. change (inject_Z _PERIOD) with 60%Q. lra. }
  rewrite Hq in Hu.
  rewrite scan_kept in Hu by lra.
  rewrite !drop_0 in Hu. rewrite length_replicate in Hu.
  destruct (Z.leb_spec _QUOTA_LIMIT (Z.of_nat k)) as [Hge|_];
    [unfold _QUOTA_LIMIT in *; lia|].
  eexists. split; [exact Hu|].
  unfold after_wait. cbn [wall self _quotas].
  change (lapse_Q (before_stamp at_once)) with (0 # 1)%Q.
  rewrite scan_kept by lra. rewrite drop_0.
  split; [lra|].
  rewrite (py_int_comp (wall w + (0 # 1) + (0 # 1) + (0 # 1)) T) by lra.
  apply replicate_snoc.
Qed.

Lemma requests_app (es1 es2 : list (string * Elapsed)) (w w1 : state) :
  requests es1 w = (inr tt, w1) ->
  requests (es1 ++ es2) w = requests es2 w1 /\
  stamps (es1 ++ es2) w = stamps es1 w ++ stamps es2 w1.
Proof.
  unfold requests. revert w.
  induction es1 as [|[path e] es1 IH]; intros w Hrun.
  - inversion Hrun; subst. auto.
  - cbn [app py_for stamps fst snd] in *. revert Hrun. py_run.
    destruct (_waitIfNeeded path e w) as [[x|[]] w'] eqn:E; [discriminate|].
    intros Hrun. cbn [snd]. destruct (IH w' Hrun) as [Hr Hs].
    rewrite Hs. auto.
Qed.

Lemma at_once_run (path : string) (T : Q) (n : nat) :
  forall (k : nat) (w : state),
    (wall w == T)%Q ->
    _quotas (self w) = replicate k (py_int T + _PERIOD) ->
    (k + n <= Z.to_nat _QUOTA_LIMIT)%nat ->
    exists w',
      requests (repeat (path, at_once) n) w = (inr tt, w') /\
      (wall w' == T)%Q /\
      _quotas (self w') = replicate (k + n) (py_int T + _PERIOD) /\
      length (stamps (repeat (path, at_once) n) w) = n /\
      Forall (fun t => (t == T)%Q) (stamps (repeat (path, at_once) n) w).
Proof.
  induction n as [|n IH]; intros k w Hwall Hq Hk.
  - exists w. rewrite Nat.add_0_r. cbn. auto.
  - destruct (at_once_step path w T k Hwall Hq) as (w1 & E1 & Hwall1 & Hq1);
      [lia|].
    destruct (IH (S k) w1 Hwall1 Hq1) as (w' & E' & Hwall' & Hq' & Hlen & Hall);
      [lia|].
    exists w'. cbn [repeat stamps fst snd]. rewrite E1. cbn [snd].
    split; [|split; [exact Hwall'|split; [|split]]].
    + unfold requests in *. cbn [py_for fst snd]. py_run. rewrite E1.
      exact E'.
    + rewrite Hq'. f_equal. lia.
    + cbn. rewrite Hlen. reflexivity.
    + constructor; [exact Hwall1|exact Hall].
Qed.

(** A call that comes when every entry of the window has expired: the
    window is emptied and the call does not sleep. *)
Lemma after_step (path : string) (w : state) (T : Q) (d : Lapse) (k : nat) :
  (wall w == T)%Q ->
  _quotas (self w) = replicate k (py_int T + _PERIOD) ->
  (inject_Z (py_int T + _PERIOD) < T + lapse_Q d)%Q ->
  exists w',
    _waitIfNeeded path (after d) w = (inr tt, w') /\
    (wall w' == T + lapse_Q d)%Q /\
    _quotas (self w') = replicate 1 (py_int (T + lapse_Q d) + _PERIOD).
Proof.
  intros Hwall Hq Hlate.
  pose proof (waitIfNeeded_unfold path (after d) w) as Hu. cbn zeta in Hu.
  change (lapse_Q (before_scan1 (after d))) with (lapse_Q d) in Hu.
  change (lapse_Q (before_scan2 (after d))) with (0 # 1)%Q in Hu.
  change (lapse_Q (before_stamp (after d))) with (0 # 1)%Q in Hu.
  change (lapse_Q (before_sleep (after d))) with (0 # 1)%Q in Hu.
  rewrite Hq in Hu.
  rewrite scan_gone in Hu by lra.
  rewrite drop_replicate, Nat.sub_diag in Hu. cbn [replicate length] in Hu.
  change (_QUOTA_LIMIT <=? Z.of_nat 0) with false in Hu.
  eexists. split; [exact Hu|].
  unfold after_wait. cbn [wall self _quotas scan drop app].
  change (lapse_Q (before_stamp (after d))) with (0 # 1)%Q.
  split; [lra|].
  rewrite (py_int_comp (wall w + lapse_Q d + (0 # 1) + (0 # 1))
             (T + lapse_Q d)) by lra.
  reflexivity.
Qed.

(** C4.  The window of [_waitIfNeeded] is cut by whole seconds, so the
    quota can be exceeded.  A request let through at time [t] leaves the
    expiry [int(t) + _PERIOD], and a scan drops it as soon as the clock
    has passed that second, which can be up to a second less than
    [_PERIOD] after the request.  So take a new connector at time [t0],
    up to [_QUOTA_LIMIT] requests at once, and up to [_QUOTA_LIMIT] more
    requests that come a lapse [d] later, where [t0 + d] is past
    [int(t0) + _PERIOD]: every call returns, none sleeps (the clock ends
    at [t0 + d]), and all the requests were let through between [t0] and
    [t0 + d].  When [t0] is not a whole second, [d] can be less than
    [_PERIOD]: twice [_QUOTA_LIMIT] requests then go out within less than
    [_PERIOD] seconds. *)
Theorem quota_exceeded_within_period (dummy : bool) (t0 : Q) (d : Lapse)
    (n1 n2 : nat) (path : string) :
  (n1 <= Z.to_nat _QUOTA_LIMIT)%nat ->
  (n2 < Z.to_nat _QUOTA_LIMIT)%nat ->
  (inject_Z (py_int t0 + _PERIOD) < t0 + lapse_Q d)%Q ->
  let w0 := {| self := __init__ dummy; wall := t0; issued := [] |} in
  let es := repeat (path, at_once) n1
            ++ (path, after d) :: repeat (path, at_once) n2 in
  exists w,
    requests es w0 = (inr tt, w) /\
    length (stamps es w0) = (n1 + 1 + n2)%nat /\
    Forall (fun t => (t0 <= t <= t0 + lapse_Q d)%Q) (stamps es w0) /\
    (wall w == t0 + lapse_Q d)%Q /\
    length (_quotas (self w)) = S n2.
Proof.
  intros Hn1 Hn2 Hlate w0 es.
  pose proof (lapse_nonneg d) as Hd.
  destruct (at_once_run path t0 n1 0 w0) as (w1 & E1 & Hwall1 & Hq1 & L1 & A1);
    [reflexivity|reflexivity|lia|].
  destruct (after_step path w1 t0 d (0 + n1) Hwall1 Hq1 Hlate)
    as (w2 & E2 & Hwall2 & Hq2).
  destruct (at_once_run path (t0 + lapse_Q d) n2 1 w2 Hwall2 Hq2)
    as (w3 & E3 & Hwall3 & Hq3 & L3 & A3); [lia|].
  destruct (requests_app (repeat (path, at_once) n1)
              ((path, after d) :: repeat (path, at_once) n2) w0 w1 E1)
    as [Hrun Hstamps].
  exists w3. fold es in Hrun, Hstamps.
  assert (Htail : requests ((path, after d) :: repeat (path, at_once) n2) w1
                  = (inr tt, w3)).
  { unfold requests in *. cbn [py_for fst snd]. py_run. rewrite E2.
    exact E3. }
  split; [rewrite Hrun; exact Htail|].
  rewrite Hstamps. cbn [stamps fst snd]. rewrite E2. cbn [snd].
  split; [rewrite length_app; cbn [length]; rewrite L1, L3; lia|].
  split; [|split; [exact Hwall3|rewrite Hq3, length_replicate; reflexivity]].
  apply Forall_app. split.
  - eapply Forall_impl; [exact A1|]. cbn. intros t Ht. lra.
  - constructor; [lra|].
    eapply Forall_impl; [exact A3|]. cbn. intros t Ht. lra.
Qed.

End QuotaFacts.

(** * The properties on the sample instance *)

Module Instances.
Import Sample.
#[local] Existing Instances regex_literal legi statements backend.

(** C1 on the sample run: the method returns, drained, after the three
    [Markers.END]. *)
Lemma Middleman_loop_exit_witness :
  let self' := snd (Middleman_loop schedule Middleman_new) in
  Middleman_loop schedule Middleman_new = (inr true, self') /\
  PendingJobSet self' = ∅ /\ TrackedItem self' = ∅ /\
  accepting self' = false /\
  last (outbox (_toLegi self')) = Some OrderLegiEnd /\
  last (outbox (_toDb self')) = Some OrderDbEnd /\
  last (outbox (_fromCommand self')) = Some END.
Proof.
  intros self'.
  assert (Hrun : Middleman_loop schedule Middleman_new = (inr true, self'))
    by (vm_compute; reflexivity).
  split; [exact Hrun|].
  exact (proj2 (proj2 (Middleman_loop_exit schedule Middleman_new)) self' Hrun).
Defined.

(** C2 on a listing without results. *)
Lemma empty_page_is_forwarded_witness :
  post_search nothing_listed (<["pageNumber" := VInt 1]> (payload TAFilter))
    = inr (mkSearchResponse 0 []) /\
  textProvider_order 0 nothing_listed (OrderLegiTextList TAFilter) [] =
    (inr tt, [LegiTextList TAFilter []; LegiEnd TAFilter]) /\
  _handleLegiMsg_message (LegiTextList TAFilter []) Middleman_new =
    (inl IndexError,
     set_toDb (send (OrderDbTextList (inr []))) Middleman_new) /\
  _checkIfKnown (inr []) store = (inl IndexError, store).
Proof.
  assert (Hpost :
    post_search nothing_listed (<["pageNumber" := VInt 1]> (payload TAFilter))
      = inr (mkSearchResponse 0 [])) by reflexivity.
  split; [exact Hpost|].
  exact (empty_page_is_forwarded nothing_listed TAFilter 0 [] Middleman_new
           store Hpost).
Defined.

(** C3 on the text ["C"], fetched without content. *)
Lemma none_content_is_matched_witness :
  let text := mkFilteredText "C" (Some 1577836800000) None in
  content text = None /\
  _commandsDict tracking_C !! cid text = Some TAFilter /\
  structs TAFilter = [tableau] /\
  TextPattern.match_ (S := Middleman) tableau (content text) tracking_C
    = (inl TypeError, tracking_C) /\
  _handleLegiMsg_message (LegiText text) tracking_C
    = (inl TypeError, tracking_C).
Proof.
  intros text.
  assert (H1 : content text = None) by reflexivity.
  assert (H2 : _commandsDict tracking_C !! cid text = Some TAFilter)
    by reflexivity.
  assert (H3 : structs TAFilter = [tableau]) by reflexivity.
  split; [exact H1|]. split; [exact H2|]. split; [exact H3|].
  exact (none_content_is_matched tracking_C text TAFilter tableau [] H1 H2 H3).
Defined.

(** X23 after a hundred requests in the same instant: the next call returns
    and the window is within the limit. *)
Lemma waitIfNeeded_respects_quota_witness :
  let w0 := LegiConnector.mkState (LegiConnector.__init__ false) (9 # 10) [] in
  let w := snd (LegiConnector.requests burst w0) in
  LegiConnector.requests burst w0 = (inr tt, w) /\
  (LegiConnector.lapse_Q (LegiConnector.before_sleep instant) < 1)%Q /\
  exists w',
    LegiConnector._waitIfNeeded "/consult/jorf" instant w = (inr tt, w') /\
    Z.of_nat (length (LegiConnector._quotas (LegiConnector.self w')))
      <= LegiConnector._QUOTA_LIMIT /\
    Z.of_nat (length (LegiConnector.recent
                        (LegiConnector.py_int (LegiConnector.wall w'))
                        (LegiConnector.issued w')))
      <= LegiConnector._QUOTA_LIMIT.
Proof.
  intros w0 w.
  assert (Hreach : LegiConnector.requests burst w0 = (inr tt, w))
    by (vm_compute; reflexivity).
  assert (Hfast :
    (LegiConnector.lapse_Q (LegiConnector.before_sleep instant) < 1)%Q)
    by reflexivity.
  split; [exact Hreach|]. split; [exact Hfast|].
  destruct (QuotaFacts.waitIfNeeded_respects_quota false (9 # 10) burst
              "/consult/jorf" instant w Hreach Hfast)
    as (w' & now3 & gone1 & kept1 & gone2 & kept2 & Hrun & _ & _ & _ & _ & _
        & _ & _ & _ & _ & _ & _ & Hlen & Hrecent).
  exists w'. split; [exact Hrun|]. split; [exact Hlen|exact Hrecent].
Defined.

(** C4 on a connector created at 0.9 s: a hundred requests at once, and a
    hundred more 59.2 s later, at 60.1 s.  The first expiries are
    [int(0.9) + 60 = 60], which is before 60.1, so no call sleeps and two
    hundred requests go out within 59.2 s. *)
Lemma quota_exceeded_within_period_witness :
  let d := LegiConnector.mkLapse 592 10 in
  let w0 := LegiConnector.mkState (LegiConnector.__init__ false) (9 # 10) [] in
  let es := repeat ("/search", LegiConnector.at_once) 100
            ++ ("/search", LegiConnector.after d)
               :: repeat ("/search", LegiConnector.at_once) 99 in
  (100 <= Z.to_nat LegiConnector._QUOTA_LIMIT)%nat /\
  (99 < Z.to_nat LegiConnector._QUOTA_LIMIT)%nat /\
  (inject_Z (LegiConnector.py_int (9 # 10) + LegiConnector._PERIOD)
     < (9 # 10) + LegiConnector.lapse_Q d)%Q /\
  (LegiConnector.lapse_Q d < inject_Z LegiConnector._PERIOD)%Q /\
  exists w,
    LegiConnector.requests es w0 = (inr tt, w) /\
    length (LegiConnector.stamps es w0) = 200%nat /\
    Forall (fun t => ((9 # 10) <= t <= (9 # 10) + LegiConnector.lapse_Q d)%Q)
      (LegiConnector.stamps es w0) /\
    (LegiConnector.wall w == (9 # 10) + LegiConnector.lapse_Q d)%Q /\
    length (LegiConnector._quotas (LegiConnector.self w)) = 100%nat.
Proof.
  intros d w0 es.
  assert (H1 : (100 <= Z.to_nat LegiConnector._QUOTA_LIMIT)%nat)
    by (vm_compute; lia).
  assert (H2 : (99 < Z.to_nat LegiConnector._QUOTA_LIMIT)%nat)
    by (vm_compute; lia).
  assert (H3 : (inject_Z (LegiConnector.py_int (9 # 10) + LegiConnector._PERIOD)
                < (9 # 10) + LegiConnector.lapse_Q d)%Q) by reflexivity.
  assert (H4 : (LegiConnector.lapse_Q d < inject_Z LegiConnector._PERIOD)%Q)
    by reflexivity.
  split; [exact H1|]. split; [exact H2|]. split; [exact H3|].
  split; [exact H4|].
  exact (QuotaFacts.quota_exceeded_within_period false (9 # 10) d 100 99
           "/search" H1 H2 H3).
Defined.

(** C5 on a batch of one failed text. *)
Lemma storeText_raises_before_commit_witness :
  0 < DbConnector._nesting (DbConnector.self (store_conn store)) /\
  exists e s',
    _storeText (inr [Failure "B"]) store = (inl e, s') /\
    committed (DbConnector.db (store_conn s'))
      = committed (DbConnector.db (store_conn store)) /\
    store_sent s' = store_sent store.
Proof.
  assert (Hpos : 0 < DbConnector._nesting (DbConnector.self (store_conn store)))
    by reflexivity.
  split; [exact Hpos|].
  exact (storeText_raises_before_commit store (Failure "B") [] Hpos).
Defined.



(** C7 on a batch of three CIDs of which the store knows the first. *)
Lemma checkIfKnown_spec_witness :
  DbConnector.in_block (store_conn store) /\
  (forall c, c ∈ ["A"; "B"; "C"] ->
     answers (DbConnector.db (store_conn store)) c) /\
  store_sent (snd (_checkIfKnown (inr ["A"; "B"; "C"]) store))
    = [DbTextList "A" ["B"; "C"]].
Proof.
  assert (Hblock : DbConnector.in_block (store_conn store)).
  { split; [reflexivity|]. eexists. reflexivity. }
  assert (Hans : forall c, c ∈ ["A"; "B"; "C"] ->
                   answers (DbConnector.db (store_conn store)) c).
  { intros c _. split; [reflexivity|]. eexists _, _, _. reflexivity. }
  split; [exact Hblock|]. split; [exact Hans|].
  rewrite (checkIfKnown_spec store "A" ["B"; "C"] Hblock Hans).
  reflexivity.
Defined.

(** C8 on the listing in two pages. *)
Lemma getTextIdList_pages_witness :
  serves connector TAFilter two_pages /\
  Forall titled two_pages /\
  textProvider_order 1 connector (OrderLegiTextList TAFilter) [] =
    (inr tt,
     [LegiTextList TAFilter ["A"; "B"]; LegiTextList TAFilter ["C"];
      LegiEnd TAFilter]).
Proof.
  assert (Hserve : serves connector TAFilter two_pages).
  { intros k r Hk. destruct k as [|[|k]]; [| |discriminate];
      inversion Hk; subst; reflexivity. }
  assert (Htitled : Forall titled two_pages).
  { repeat constructor; discriminate. }
  split; [exact Hserve|]. split; [exact Htitled|].
  refine (getTextIdList_pages connector TAFilter _ _ 1 [] Hserve Htitled _ _ _).
  - intros k r Hk Hr. destruct k as [|[|k]]; [lia| |simpl in Hk; lia].
    inversion Hr; subst. reflexivity.
  - intros r Hr. inversion Hr; subst. discriminate.
  - simpl. lia.
Defined.

(** C9 on the text ["B"], whose answer has no article. *)
Lemma getText_fails_soft_witness :
  let text := mkJorfText "B" (Some 1577836800000) [] in
  Forall2 (fun c t => post_consult connector c = inr t) ["B"] [text] /\
  Forall (fun t => length (articles t) <> 1%nat) [text] /\
  textProvider_order 0 connector (OrderLegiText (inr ["B"])) [] =
    (inr tt, [LegiText (mkFilteredText "B" (Some 1577836800000) None)]) /\
  textProvider_order 0 connector (OrderLegiText (inl "B")) [] =
    (inr tt, [LegiText (mkFilteredText "B" (Some 1577836800000) None)]).
Proof.
  intros text.
  assert (Hpost : Forall2 (fun c t => post_consult connector c = inr t)
                    ["B"] [text]) by (repeat constructor).
  assert (Hinc : Forall (fun t => length (articles t) <> 1%nat) [text])
    by (repeat constructor; discriminate).
  split; [exact Hpost|]. split; [exact Hinc|].
  destruct (getText_fails_soft connector 0 ["B"] [text] [] Hpost Hinc)
    as [Hlist Hone].
  split; [exact Hlist|]. exact (Hone "B" text eq_refl eq_refl).
Defined.

End Instances.

(** * More of the sources *)

(** ** [Bricks.flatten] *)

Module BricksFacts.
Import Bricks.

(** Induction on values, through the lists and the dictionaries they
    hold. *)
Lemma Val_nested_ind (P : Val -> Prop)
    (HLeaf : forall v, P (Leaf v))
    (HNested : forall l,
       Forall (Forall (fun kv => P (snd kv))) l -> P (Nested l))
    (v : Val) : P v.
Proof.
  revert v. fix IH 1. intros [x|l].
  - apply HLeaf.
  - apply HNested.
    induction l as [|d l IHl]; constructor; [|exact IHl].
    induction d as [|[k v'] d IHd]; constructor; [|exact IHd].
    apply IH.
Qed.

Lemma flatten_cons (d : Dict) (l : list Dict) :
  flatten (inr (d :: l)) = flatten (inl d) ++ flatten (inr l).
Proof. unfold flatten. simpl. rewrite app_nil_r. reflexivity. Qed.

Lemma flatten_nil : flatten (inr []) = [].
Proof. reflexivity. Qed.

(** The inner loop of [flatten] on one dictionary. *)
Lemma flatten_dict (d : Dict) :
  flatten (inl d) =
    match List.filter (fun kv => is_list (snd kv)) d with
    | [] => [d]
    | _ :: _ =>
        fold_left product ((fun l => flatten (inr l)) <$> lists_of d)
          [List.filter (fun kv => negb (is_list (snd kv))) d]
    end.
Proof.
  unfold flatten at 1. cbn [flatten_value]. rewrite app_nil_r.
  match goal with
  | |- context [fold_left product (?f d)] =>
      assert (Hrec : forall es,
        f es = (fun l => flatten (inr l)) <$> lists_of es)
  end.
  { induction es as [|[k v] es IH]; [reflexivity|].
    destruct v as [x|l]; cbn; rewrite IH; reflexivity. }
  rewrite Hrec. reflexivity.
Qed.

Lemma filter_is_list_nil (d : Dict) :
  List.filter (fun kv => is_list (snd kv)) d = [] <-> flat d.
Proof.
  unfold flat. induction d as [|[k v] d IH]; simpl.
  - split; [constructor|reflexivity].
  - destruct (is_list v) eqn:E; simpl.
    + split; [discriminate|]. intros Hf. inversion Hf; subst. simpl in *.
      congruence.
    + rewrite IH. split; [intros Hf; constructor; assumption|].
      intros Hf. inversion Hf; assumption.
Qed.

Lemma flatten_flat_dict (d : Dict) : flat d -> flatten (inl d) = [d].
Proof.
  intros Hf. rewrite flatten_dict.
  apply filter_is_list_nil in Hf. rewrite Hf. reflexivity.
Qed.

Lemma flatten_flat_list (l : list Dict) :
  Forall flat l -> flatten (inr l) = l.
Proof.
  induction 1 as [|d l Hd Hl IH]; [reflexivity|].
  rewrite flatten_cons, IH, flatten_flat_dict by assumption. reflexivity.
Qed.

Lemma dict_set_flat (k : string) (x : PyVal) (d : Dict) :
  flat d -> flat (dict_set k (Leaf x) d).
Proof.
  unfold flat. induction 1 as [|[k' v'] d Hkv Hd IH]; simpl.
  - repeat constructor.
  - destruct (String.eqb k k'); constructor; auto.
Qed.

Lemma dict_merge_flat (x y : Dict) : flat x -> flat y -> flat (dict_merge x y).
Proof.
  unfold dict_merge. intros Hx Hy. revert x Hx.
  induction Hy as [|[k v] y Hkv Hy IH]; intros x Hx; simpl; [exact Hx|].
  apply IH. simpl in Hkv. destruct v as [v|l]; [|discriminate].
  apply dict_set_flat. exact Hx.
Qed.

Lemma product_flat (p r : list Dict) :
  Forall flat p -> Forall flat r -> Forall flat (product p r).
Proof.
  intros Hp Hr. unfold product. apply Forall_forall. intros z Hz.
  apply list_elem_of_bind in Hz. destruct Hz as (x & Hz & Hx).
  apply list_elem_of_bind in Hz. destruct Hz as (y & Hz & Hy).
  apply list_elem_of_singleton in Hz. subst z.
  rewrite Forall_forall in Hp, Hr. apply dict_merge_flat; auto.
Qed.

Lemma fold_product_flat (recs : list (list Dict)) :
  forall p,
    Forall flat p -> Forall (Forall flat) recs ->
    Forall flat (fold_left product recs p).
Proof.
  induction recs as [|r recs IH]; intros p Hp Hr; simpl; [exact Hp|].
  inversion Hr; subst. apply IH; [apply product_flat|]; assumption.
Qed.

Lemma filter_standard_flat (d : Dict) :
  flat (List.filter (fun kv => negb (is_list (snd kv))) d).
Proof.
  unfold flat. induction d as [|[k v] d IH]; simpl; [constructor|].
  destruct (is_list v) eqn:E; simpl; [exact IH|].
  constructor; [exact E|exact IH].
Qed.

Lemma flatten_value_flat (v : Val) : Forall flat (flatten_value v).
Proof.
  induction v as [x|l IH] using Val_nested_ind; [constructor|].
  change (flatten_value (Nested l)) with (flatten (inr l)).
  induction IH as [|d l Hd Hl IHl]; [constructor|].
  rewrite flatten_cons. apply Forall_app. split; [|exact IHl].
  rewrite flatten_dict.
  destruct (List.filter (fun kv => is_list (snd kv)) d) eqn:E.
  - constructor; [|constructor]. apply filter_is_list_nil. exact E.
  - apply fold_product_flat.
    + constructor; [apply filter_standard_flat|constructor].
    + clear E. induction Hd as [|[k w] d Hw Hd IHd]; [constructor|].
      unfold lists_of in *. simpl. destruct w as [x|l']; [exact IHd|].
      simpl. constructor; [exact Hw|exact IHd].
Qed.

(** X1.  [Bricks.flatten] returns dictionaries none of whose values is a
    list; a dictionary without a list is returned alone, as it is; so
    flattening what [flatten] returned changes nothing. *)
Theorem flatten_idempotent (parsed : Dict + list Dict) :
  Forall flat (flatten parsed) /\
  (forall d, flat d -> flatten (inl d) = [d]) /\
  flatten (inr (flatten parsed)) = flatten parsed.
Proof.
  assert (Hflat : Forall flat (flatten parsed)) by apply flatten_value_flat.
  split; [exact Hflat|]. split; [exact flatten_flat_dict|].
  apply flatten_flat_list. exact Hflat.
Qed.

Lemma product_length (p r : list Dict) :
  length (product p r) = (length p * length r)%nat.
Proof.
  unfold product. induction p as [|x p IH]; [reflexivity|].
  cbn [mbind list_bind]. rewrite length_app, IH.
  assert (Hr : forall r' : list Dict,
    length (y ← r'; [dict_merge x y]) = length r').
  { induction r' as [|y r' IHr]; [reflexivity|].
    cbn [mbind list_bind]. rewrite length_app, IHr. reflexivity. }
  rewrite Hr. simpl. lia.
Qed.

Lemma fold_product_length (recs : list (list Dict)) :
  forall p,
    length (fold_left product recs p) =
    (length p * foldr Nat.mul 1 (length <$> recs))%nat.
Proof.
  induction recs as [|r recs IH]; intros p; [simpl; lia|].
  rewrite fmap_cons. cbn [fold_left foldr].
  rewrite IH, product_length. lia.
Qed.

Lemma lists_of_cons (k : string) (v : Val) (d : Dict) :
  lists_of ((k, v) :: d) =
    match v with
    | Leaf _ => lists_of d
    | Nested l => l :: lists_of d
    end.
Proof. destruct v; reflexivity. Qed.

Lemma lists_of_nil (d : Dict) :
  List.filter (fun kv => is_list (snd kv)) d = [] -> lists_of d = [].
Proof.
  unfold lists_of. induction d as [|[k v] d IH]; [reflexivity|].
  simpl. destruct v as [x|l]; simpl; [exact IH|discriminate].
Qed.

(** X2.  The number of dictionaries that [Bricks.flatten] returns for one
    dictionary is the product, over its keys that hold a list, of the
    number returned for that list (one when no key holds a list); for a
    list it is the sum over its elements.  So a dictionary with a key that
    holds an empty list returns nothing: the record is lost. *)
Theorem flatten_length (d : Dict) (l : list Dict) :
  length (flatten (inl d)) =
    foldr Nat.mul 1%nat
      ((fun l' => length (flatten (inr l'))) <$> lists_of d) /\
  length (flatten (inr l)) =
    foldr Nat.add 0%nat ((fun d' => length (flatten (inl d'))) <$> l) /\
  (forall k, (k, Nested []) ∈ d -> flatten (inl d) = []).
Proof.
  assert (Hd : forall d' : Dict,
    length (flatten (inl d')) =
    foldr Nat.mul 1%nat
      ((fun l' => length (flatten (inr l'))) <$> lists_of d')).
  { intros d'. rewrite flatten_dict.
    destruct (List.filter (fun kv => is_list (snd kv)) d') eqn:E.
    - rewrite (lists_of_nil d' E). reflexivity.
    - rewrite fold_product_length. simpl.
      rewrite <- list_fmap_compose. unfold compose. lia. }
  split; [apply Hd|]. split.
  - induction l as [|d' l IH]; [reflexivity|].
    rewrite flatten_cons, length_app, IH. reflexivity.
  - intros k Hk. apply length_zero_iff_nil. rewrite Hd.
    clear Hd. induction d as [|[k' v] d IH]; [inversion Hk|].
    rewrite lists_of_cons. apply elem_of_cons in Hk. destruct Hk as [Hk|Hk].
    + inversion Hk; subst. reflexivity.
    + destruct v as [x|l']; [apply IH; exact Hk|].
      rewrite fmap_cons. cbn [foldr]. rewrite (IH Hk). lia.
Qed.

End BricksFacts.

(** ** [TextPattern.prepareForInsertion] *)

Module PrepareFacts.
Import TextPatternBase.

Lemma mapM_pure {S A B} (f : A -> M S B) (g : A -> B) (l : list A) :
  (forall x s, x ∈ l -> f x s = (inr (g x), s)) ->
  forall s, mapM f l s = (inr (g <$> l), s).
Proof.
  induction l as [|x l IH]; intros Hf s; [reflexivity|].
  cbn [mapM]. py_run. rewrite Hf by left.
  specialize (IH (fun y s' Hy => Hf y s' (list_elem_of_further _ _ _ Hy)) s).
  py_run_in IH. rewrite IH. reflexivity.
Qed.

Lemma mapM_raises {S A B} (f : A -> M S B) (g : A -> B) (done rest : list A)
    (x : A) (e : PyExc) (s : S) :
  (forall y s', y ∈ done -> f y s' = (inr (g y), s')) ->
  f x s = (inl e, s) ->
  mapM f (done ++ x :: rest) s = (inl e, s).
Proof.
  intros Hdone Hx. induction done as [|y done IH]; cbn [app mapM]; py_run.
  - rewrite Hx. reflexivity.
  - rewrite Hdone by left.
    specialize (IH (fun z s' Hz => Hdone z s' (list_elem_of_further _ _ _ Hz))).
    py_run_in IH. rewrite IH. reflexivity.
Qed.

Lemma column_cell {S} (args : list Arg) (values : gmap string PyVal)
    (element : gmap string string) (arg : Arg) (s : S) :
  casts_succeed args [element] values -> arg ∈ args ->
  column values element arg s = (inr (cell values element arg), s).
Proof.
  intros Hcasts Harg. unfold column, cell.
  destruct (values !! arg_name arg) eqn:Ev; [reflexivity|].
  destruct (arg_cast arg) as [cast|] eqn:Ec;
    destruct (element !! arg_name arg) as [x|] eqn:Ee; try reflexivity.
  destruct (String.eqb_spec x "") as [->|Hne]; [reflexivity|]. cbn [negb].
  destruct (Hcasts element arg cast x) as [v Hv]; try assumption; [left|].
  unfold lift_result. rewrite Hv. reflexivity.
Qed.

Lemma casts_succeed_cons (args : list Arg) (element : gmap string string)
    (parsed : list (gmap string string)) (values : gmap string PyVal) :
  casts_succeed args (element :: parsed) values ->
  casts_succeed args [element] values /\ casts_succeed args parsed values.
Proof.
  intros H. split; intros el arg cast s Hel; apply H.
  - apply list_elem_of_singleton in Hel. subst. left.
  - right. exact Hel.
Qed.

Lemma rows_yielded {S} (args : list Arg) (values : gmap string PyVal)
    (yield : Row -> M S unit) (parsed : list (gmap string string)) :
  casts_succeed args parsed values ->
  forall (rest : list (gmap string string)) (s : S),
    prepareForInsertion args (parsed ++ rest) values yield s =
      (py_for ((fun element => cell values element <$> args) <$> parsed) yield ;;
       prepareForInsertion args rest values yield) s.
Proof.
  unfold prepareForInsertion.
  induction parsed as [|element parsed IH]; intros Hcasts rest s;
    [reflexivity|].
  apply casts_succeed_cons in Hcasts. destruct Hcasts as [Hel Hrest].
  rewrite fmap_cons. cbn [app py_for]. py_run.
  pose proof (mapM_pure (S := S) (column values element)
                (cell values element) args
                (fun x s' Hx => column_cell args values element x s' Hel Hx) s)
    as Hm.
  py_run_in Hm. rewrite Hm.
  destruct (yield (cell values element <$> args) s) as [[e|[]] s1];
    [reflexivity|].
  specialize (IH Hrest rest s1). py_run_in IH. exact IH.
Qed.

(** X3.  As long as the casts that are called return,
    [prepareForInsertion] yields exactly one row per parsed element, in
    their order, and every row has one value per argument of
    [Statements.insertRecord], in the order of the arguments.  In a row,
    an argument found in [values] takes its value from there, whatever the
    element captured and without a cast; an argument found neither in
    [values] nor in the element gives [None]; a captured value is cast
    when the argument has a cast and the value is not the empty string,
    and is taken as it is otherwise.  When a cast raises on an element,
    the rows of the elements before it have been yielded, nothing is
    yielded for that element or the later ones, and the exception leaves
    the generator. *)
Theorem prepareForInsertion_rows (args : list Arg)
    (parsed : list (gmap string string)) (values : gmap string PyVal)
    (out : list Row) :
  casts_succeed args parsed values ->
  (exists rows : list Row,
     prepareForInsertion args parsed values
       (fun row => modify (fun out => out ++ [row])) out
       = (inr tt, out ++ rows) /\
     length rows = length parsed /\
     forall (i : nat) (element : gmap string string),
       parsed !! i = Some element ->
       exists row,
         rows !! i = Some row /\
         length row = length args /\
         forall (j : nat) (arg : Arg),
           args !! j = Some arg ->
           (forall v, values !! arg_name arg = Some v -> row !! j = Some v) /\
           (values !! arg_name arg = None ->
            element !! arg_name arg = None -> row !! j = Some VNone) /\
           (forall s,
              values !! arg_name arg = None ->
              element !! arg_name arg = Some s ->
              arg_cast arg = None \/ s = "" ->
              row !! j = Some (VStr s)) /\
           (forall s cast v,
              values !! arg_name arg = None ->
              element !! arg_name arg = Some s ->
              s <> "" ->
              arg_cast arg = Some cast ->
              cast s = inr v ->
              row !! j = Some v)) /\
  (forall (element : gmap string string) (later : list (gmap string string))
          (done rest : list Arg) (arg : Arg) (cast : string -> PyExc + PyVal)
          (s : string) (e : PyExc),
     args = done ++ arg :: rest ->
     casts_succeed done [element] values ->
     values !! arg_name arg = None ->
     element !! arg_name arg = Some s ->
     s <> "" ->
     arg_cast arg = Some cast ->
     cast s = inl e ->
     exists rows : list Row,
       prepareForInsertion args (parsed ++ element :: later) values
         (fun row => modify (fun out => out ++ [row])) out
         = (inl e, out ++ rows) /\
       length rows = length parsed).
Proof.
  intros Hcasts.
  set (rows := (fun element => cell values element <$> args) <$> parsed).
  assert (Hsent : forall l (out : list Row),
    py_for l (fun row => modify (fun out => out ++ [row])) out
      = (inr tt, out ++ l)).
  { clear. induction l as [|row l IH]; intros out.
    - cbn. rewrite app_nil_r. reflexivity.
    - cbn [py_for]. py_run. specialize (IH (out ++ [row])). py_run_in IH.
      rewrite IH, <- app_assoc. reflexivity. }
  split.
  - exists rows. split; [|split].
    + pose proof (rows_yielded args values
                    (fun row => modify (fun out => out ++ [row]))
                    parsed Hcasts [] out) as Hrun.
      rewrite app_nil_r in Hrun. rewrite Hrun. py_run.
      fold rows. specialize (Hsent rows out). py_run_in Hsent.
      rewrite Hsent. reflexivity.
    + apply length_fmap.
    + intros i element Hi. eexists. split.
      * unfold rows. rewrite list_lookup_fmap, Hi. reflexivity.
      * split; [apply length_fmap|].
        intros j arg Hj. rewrite list_lookup_fmap, Hj. simpl. unfold cell.
        split; [|split; [|split]].
        -- intros v Hv. rewrite Hv. reflexivity.
        -- intros Hv He. rewrite Hv, He. destruct (arg_cast arg); reflexivity.
        -- intros s Hv He Hplain. rewrite Hv, He.
           destruct Hplain as [->| ->]; [reflexivity|].
           destruct (arg_cast arg); reflexivity.
        -- intros s cast v Hv He Hne Hc Hcast. rewrite Hv, He, Hc, Hcast.
           destruct (String.eqb_spec s ""); [contradiction|]. reflexivity.
  - intros element later done rest arg cast s e -> Hdone Hv He Hne Hc Hcast.
    exists rows. split; [|apply length_fmap].
    rewrite (rows_yielded _ values _ parsed Hcasts (element :: later) out).
    py_run. fold rows. specialize (Hsent rows out). py_run_in Hsent.
    rewrite Hsent. unfold prepareForInsertion. cbn [py_for]. py_run.
    pose proof (mapM_raises (S := list Row) (column values element)
                  (cell values element) done rest arg e (out ++ rows)) as Hm.
    py_run_in Hm. rewrite Hm; [reflexivity| |].
    + intros y s' Hy. apply (column_cell done values element y s' Hdone Hy).
    + unfold column. rewrite Hv, Hc, He.
      destruct (String.eqb_spec s ""); [contradiction|]. cbn [negb].
      unfold lift_result. rewrite Hcast. reflexivity.
Qed.

End PrepareFacts.

(** ** Transactions of the connector *)

Section TransactionFacts.
Context `{BE : Backend}.
Import DbConnector DbConnectorFacts Transactions.


Lemma closed_self (o : t) :
  _nesting o = 0 -> _connection o = None ->
  set_connection None (set_nesting 0 o) = o.
Proof. destruct o. cbn. intros -> ->. reflexivity. Qed.





Lemma with_self_nested {A} (body : M state A) (w w2 : state)
    (r : PyExc + A) :
  _nesting (self w) <> 0 ->
  body (on_self (set_nesting (_nesting (self w) + 1)) w) = (r, w2) ->
  self w2 = set_nesting (_nesting (self w) + 1) (self w) ->
  with_self body w = (r, {| self := self w; db := db w2 |}).
Proof.
  intros Hn Hb Hs. unfold with_self, py_with.
  rewrite enter_nested by exact Hn. rewrite Hb.
  assert (Hn2 : _nesting (self w2) <> 1) by (rewrite Hs; cbn; lia).
  assert (Hw : on_self (set_nesting (_nesting (self w2) - 1)) w2 =
               {| self := self w; db := db w2 |}).
  { destruct w2 as [o2 d2]. destruct w as [o d]. cbn in *. subst o2.
    destruct o. unfold on_self, set_nesting. cbn.
    rewrite Z.add_simpl_r. reflexivity. }
  destruct r; rewrite exit_nested by exact Hn2; rewrite Hw; reflexivity.
Qed.




Lemma cursor_execute_taken (q : string) (a : Row) (v : state) :
  fault (committed (db v)) (pending (db v)) q a = false ->
  exists v', cursor_execute q a v = (inr tt, v') /\ extended [(q, a)] v v'.
Proof.
  intros Hf. unfold cursor_execute. py_run.
  cbn [db on_db committed pending db_sent]. rewrite Hf.
  eexists. split; [reflexivity|].
  repeat split.
Qed.

Lemma extended_trans (l1 l2 : list Stmt) (v1 v2 v3 : state) :
  extended l1 v1 v2 -> extended l2 v2 v3 -> extended (l1 ++ l2) v1 v3.
Proof.
  intros (S1 & O1 & C1 & P1 & T1) (S2 & O2 & C2 & P2 & T2).
  repeat split; try congruence.
  - rewrite P2, P1, app_assoc. reflexivity.
  - rewrite T2, T1, app_assoc. reflexivity.
Qed.

Lemma extended_nil (v : state) : extended [] v v.
Proof. repeat split; rewrite app_nil_r; reflexivity. Qed.

Lemma execute_batch_taken (q : string) (params : list Row) :
  faultless ->
  forall v, exists v',
    execute_batch q params v = (inr tt, v') /\
    extended ((fun p => (q, p)) <$> params) v v'.
Proof.
  intros Hf. unfold execute_batch.
  induction params as [|p params IH]; intros v.
  - exists v. split; [reflexivity|apply extended_nil].
  - destruct (cursor_execute_taken q p v (Hf _ _ _ _)) as (v1 & E1 & X1).
    destruct (IH v1) as (v2 & E2 & X2).
    exists v2. split.
    + cbn [py_for]. py_run. rewrite E1. py_run_in E2. rewrite E2. reflexivity.
    + rewrite fmap_cons. apply (extended_trans [(q, p)] _ v v1 v2 X1 X2).
Qed.

Lemma map_const_seq {A} (x : A) (n start : nat) :
  List.map (fun _ => x) (seq start n) = replicate n x.
Proof.
  revert start. induction n as [|n IH]; intros start; [reflexivity|].
  cbn. rewrite IH. reflexivity.
Qed.

(** X7.  What [executeMany] sends.  Inside a [with] block and on a backend
    that takes every statement, [executeMany] with parameters sends, for a
    query that does not start with [EXECUTE] (aside from the white space
    that [strip] removes: the characters of which [str.isspace] holds, in
    a query whose characters are code points below 256),
    [PREPARE stmt AS query], then [EXECUTE stmt (%s,...,%s)] once for each
    element of [params] and in their order, with as many [%s] as the first
    element has values, then [DEALLOCATE stmt]; for a query that starts
    with [EXECUTE] it sends the query itself once for each element.  These
    statements join the open transaction, and then the method raises
    [AttributeError]. *)
Theorem executeMany_statements (query : string) (p0 : Row)
    (params : list Row) (w : state) :
  faultless ->
  in_block w ->
  exists w',
    executeMany query (p0 :: params) w = (inl AttributeError, w') /\
    extended (batch query p0 params) w w'.
Proof.
  intros Hf [Hpos [c Hc]].
  set (w1 := on_self (set_nesting (_nesting (self w) + 1)) w).
  unfold executeMany.
  match goal with
  | |- context [with_self ?b] => set (body := b)
  end.
  assert (Hb : exists w2,
    body w1 = (inl AttributeError, w2) /\ extended (batch query p0 params) w1 w2).
  { unfold body, with_cursor, batch, startswith. py_run.
    cbn [w1 self on_self set_nesting _connection]. rewrite Hc.
    rewrite map_const_seq.
    destruct (String.prefix "EXECUTE" (strip query)); cbn [negb].
    - destruct (execute_batch_taken query (p0 :: params) Hf w1)
        as (w2 & E2 & X2).
      py_run_in E2. fold w1. rewrite E2.
      exists w2. split; [reflexivity|exact X2].
    - destruct (cursor_execute_taken ("PREPARE stmt AS " +:+ query) [] w1
                  (Hf _ _ _ _)) as (v1 & E1 & X1).
      destruct (execute_batch_taken
                  ("EXECUTE stmt (" +:+ join "," (replicate (length p0) "%s")
                   +:+ ")") (p0 :: params) Hf v1) as (v2 & E2 & X2).
      destruct (cursor_execute_taken "DEALLOCATE stmt" [] v2 (Hf _ _ _ _))
        as (v3 & E3 & X3).
      py_run_in E1. py_run_in E2. py_run_in E3.
      fold w1. rewrite E1.
      change ("EXECUTE stmt" +:+ " (" +:+ join "," (replicate (length p0) "%s")
              +:+ ")")
        with ("EXECUTE stmt (" +:+ join "," (replicate (length p0) "%s")
              +:+ ")").
      rewrite E2, E3.
      exists v3. split; [reflexivity|].
      eapply extended_trans; [exact X1|].
      eapply extended_trans; [exact X2|exact X3]. }
  destruct Hb as (w2 & Hbody & (S2 & O2 & C2 & P2 & T2)).
  rewrite (with_self_nested body w w2 (inl AttributeError)
             ltac:(lia) Hbody S2).
  eexists. split; [reflexivity|].
  repeat split; assumption.
Qed.





End TransactionFacts.

(** ** How long and when [_waitIfNeeded] holds a request *)

Module QuotaDelay.
Import LegiConnector QuotaFacts.

Lemma waitIfNeeded_issued (path : string) (e : Elapsed) (w w' : state) :
  _waitIfNeeded path e w = (inr tt, w') ->
  length (issued w') = S (length (issued w)).
Proof.
  pose proof (waitIfNeeded_unfold path e w) as Hu. cbn zeta in Hu.
  rewrite Hu. clear Hu.
  assert (Ha : forall k n l, length (issued (after_wait w k n l))
                             = S (length (issued w))).
  { intros. unfold after_wait. cbn [issued]. rewrite length_app. cbn. lia. }
  destruct (_QUOTA_LIMIT <=? _)%Z.
  - destruct (drop _ _) as [|q0 rest]; [discriminate|].
    destruct (_ <? 0)%Z; [discriminate|].
    intros E. inversion E. apply Ha.
  - intros E. inversion E. apply Ha.
Qed.

Lemma requests_issued (es : list (string * Elapsed)) :
  forall w w', requests es w = (inr tt, w') ->
  length (issued w') = (length (issued w) + length es)%nat.
Proof.
  unfold requests.
  induction es as [|[path e] es IH]; intros w w' Hrun.
  - inversion Hrun; subst. cbn. lia.
  - cbn [py_for] in Hrun. revert Hrun. py_run. cbn [fst snd].
    destruct (_waitIfNeeded path e w) as [[x|[]] w1] eqn:E1; [discriminate|].
    intros Hrun. apply IH in Hrun. apply waitIfNeeded_issued in E1.
    cbn [length]. lia.
Qed.

Lemma window_in_past (w : state) (q : Z) :
  Inv w -> q ∈ _quotas (self w) -> q - _PERIOD <= py_int (wall w).
Proof.
  intros [(old & cur & Hi & Hq & _) _ _ Hp] Hin.
  rewrite Hq in Hin. apply list_elem_of_fmap in Hin.
  destruct Hin as (s & -> & Hs).
  rewrite Hi in Hp. apply Forall_app in Hp. destruct Hp as [_ Hp].
  rewrite Forall_forall in Hp. specialize (Hp s Hs). lia.
Qed.

Lemma window_length (w : state) :
  Inv w -> (length (_quotas (self w)) <= length (issued w))%nat.
Proof.
  intros [(old & cur & Hi & Hq & _) _ _ _].
  rewrite Hq, Hi, length_fmap, length_app. lia.
Qed.

(** X9.  A request is never held for long.  In any state reached from a
    new connector by a sequence of requests, a call of [_waitIfNeeded] in
    which less than a second passes between the first scan and the reading
    that sets the length of the sleep returns, and it returns at most
    [_PERIOD + 1] seconds later than the time its own steps take.  As long
    as fewer than [_QUOTA_LIMIT] requests were made before it, the call
    does not sleep at all. *)
Theorem waitIfNeeded_delay (dummy : bool) (t0 : Q)
    (es : list (string * Elapsed)) (path : string) (e : Elapsed)
    (w : state) :
  requests es {| self := __init__ dummy; wall := t0; issued := [] |}
    = (inr tt, w) ->
  (lapse_Q (before_sleep e) < 1)%Q ->
  let steps :=
    (lapse_Q (before_scan1 e) + lapse_Q (before_scan2 e)
     + lapse_Q (before_stamp e))%Q in
  exists w' : state,
    _waitIfNeeded path e w = (inr tt, w') /\
    (wall w + steps <= wall w')%Q /\
    (wall w' <= wall w + steps + lapse_Q (before_sleep e)
                + inject_Z (_PERIOD + 1))%Q /\
    (Z.of_nat (length es) < _QUOTA_LIMIT ->
     (wall w' == wall w + steps)%Q).
Proof.
  intros Hreach Hfast steps.
  assert (Hinv : Inv w).
  { eapply requests_inv; [|exact Hreach]. apply Inv_init. }
  pose proof (lapse_nonneg (before_scan1 e)) as L1.
  pose proof (lapse_nonneg (before_sleep e)) as Ls.
  pose proof (lapse_nonneg (before_scan2 e)) as L3.
  pose proof (lapse_nonneg (before_stamp e)) as L4.
  set (now1 := (wall w + lapse_Q (before_scan1 e))%Q).
  set (now2 := (now1 + lapse_Q (before_sleep e))%Q).
  assert (Hsleep : forall q0 rest,
    drop (scan now1 (_quotas (self w)) 0) (_quotas (self w)) = q0 :: rest ->
    _QUOTA_LIMIT <= Z.of_nat (length (q0 :: rest)) ->
    0 <= q0 - py_int now2 + 1).
  { intros q0 rest Hk _.
    destruct (scan_split now1 (_quotas (self w)))
      as (gone & kept & _ & Hd & _ & Hhead).
    rewrite Hk in Hd. subst kept.
    pose proof (py_int_gt_pred now2) as Hint.
    assert (Hlt : (inject_Z (py_int now2) < inject_Z (q0 + 2))%Q).
    { rewrite inject_Z_plus. change (inject_Z 2) with 2%Q.
      unfold now2 in *. lra. }
    rewrite <- Zlt_Qlt in Hlt. lia. }
  pose proof (waitIfNeeded_unfold path e w) as Hu. cbn zeta in Hu.
  fold now1 in Hu. fold now2 in Hu.
  set (kept1 := drop (scan now1 (_quotas (self w)) 0) (_quotas (self w)))
    in *.
  assert (Hlen : (length kept1 <= length es)%nat).
  { pose proof (window_length w Hinv) as Hwl.
    pose proof (requests_issued es _ _ Hreach) as Hri. cbn in Hri.
    unfold kept1. rewrite length_drop. lia. }
  assert (Hp : (0 <= inject_Z (_PERIOD + 1))%Q).
  { change 0%Q with (inject_Z 0). rewrite <- Zle_Qle. unfold _PERIOD. lia. }
  destruct (Z.leb_spec _QUOTA_LIMIT (Z.of_nat (length kept1))) as [Hge|Hlt].
  - destruct kept1 as [|q0 rest] eqn:Hk;
      [cbn in Hge; unfold _QUOTA_LIMIT in Hge; lia|].
    pose proof (Hsleep q0 rest eq_refl Hge) as Hlow.
    destruct (Z.ltb_spec (q0 - py_int now2 + 1) 0) as [Hneg|_]; [lia|].
    assert (Hq0 : q0 ∈ _quotas (self w)).
    { assert (Hin : q0 ∈ kept1) by (rewrite Hk; left).
      apply (subseteq_drop _ _ _ Hin). }
    pose proof (window_in_past w q0 Hinv Hq0) as Hpast.
    assert (Hmono : py_int (wall w) <= py_int now2)
      by (apply py_int_mono; unfold now2, now1; lra).
    assert (Hhigh : q0 - py_int now2 + 1 <= _PERIOD + 1) by lia.
    rewrite Zle_Qle in Hlow, Hhigh. change (inject_Z 0) with 0%Q in Hlow.
    eexists. split; [exact Hu|].
    unfold after_wait. cbn [wall].
    set (z := inject_Z (q0 - py_int now2 + 1)) in *.
    unfold now2, now1, steps.
    split; [lra|]. split; [lra|].
    intros Hfew. cbn [length] in *. lia.
  - eexists. split; [exact Hu|].
    unfold after_wait. cbn [wall]. unfold now1, steps.
    split; [lra|]. split; [lra|]. intros _. lra.
Qed.

(** X10.  The only way [_waitIfNeeded] fails.  A call never raises
    [IndexError]: it either returns or raises [ValueError], from [sleep]
    with a negative argument.  It raises exactly when the window is still
    full after the first scan and the clock reading for the sleep gives a
    second later than the one after the expiry of the oldest entry; this
    takes more than one second between the first scan and that reading.  A
    call that raises has recorded no request: the window is the one the
    first scan left. *)
Theorem waitIfNeeded_fails_only_late (path : string) (e : Elapsed)
    (w : state) :
  let now1 := (wall w + lapse_Q (before_scan1 e))%Q in
  let now2 := (now1 + lapse_Q (before_sleep e))%Q in
  let kept1 := drop (scan now1 (_quotas (self w)) 0) (_quotas (self w)) in
  exists (r : PyExc + unit) (w' : state),
    _waitIfNeeded path e w = (r, w') /\
    (r = inr tt \/ r = inl ValueError) /\
    (r = inl ValueError <->
     _QUOTA_LIMIT <= Z.of_nat (length kept1) /\
     exists q0 rest, kept1 = q0 :: rest /\ q0 + 1 < py_int now2) /\
    (r = inl ValueError ->
     (1 < lapse_Q (before_sleep e))%Q /\
     issued w' = issued w /\
     _quotas (self w') = kept1).
Proof.
  intros now1 now2 kept1.
  pose proof (waitIfNeeded_unfold path e w) as Hu. cbn zeta in Hu.
  fold now1 in Hu. fold now2 in Hu. fold kept1 in Hu.
  destruct (scan_split now1 (_quotas (self w)))
    as (gone & kept & _ & Hd & _ & Hhead).
  fold kept1 in Hd. subst kept.
  destruct (Z.leb_spec _QUOTA_LIMIT (Z.of_nat (length kept1))) as [Hge|Hlt].
  - destruct kept1 as [|q0 rest] eqn:Hk;
      [cbn in Hge; unfold _QUOTA_LIMIT in Hge; lia|].
    destruct (Z.ltb_spec (q0 - py_int now2 + 1) 0) as [Hneg|Hpos].
    + eexists _, _. split; [exact Hu|].
      split; [right; reflexivity|].
      split.
      * split; [|reflexivity]. intros _. split; [exact Hge|].
        exists q0, rest. split; [reflexivity|lia].
      * intros _. cbn. split; [|auto].
        pose proof (py_int_gt_pred now2) as Hint.
        assert (Hz : q0 + 2 <= py_int now2) by lia.
        rewrite Zle_Qle, inject_Z_plus in Hz.
        change (inject_Z 2) with 2%Q in Hz.
        set (z := inject_Z (py_int now2)) in *.
        unfold now2 in Hint. lra.
    + eexists _, _. split; [exact Hu|].
      split; [left; reflexivity|].
      split; [|discriminate].
      split; [discriminate|].
      intros (_ & q1 & rest1 & Heq & Hlate). inversion Heq; subst. lia.
  - eexists _, _. split; [exact Hu|].
    split; [left; reflexivity|].
    split; [|discriminate].
    split; [discriminate|]. intros (Hge & _). lia.
Qed.

End QuotaDelay.

(** ** More on the Legifrance agent *)

Section AgentFacts.
Context `{RE : Regex, LS : LegiStructure, DS : DbStructure, BE : Backend}.

Lemma first_match_none {S} (s : string) (st : S)
    (patterns : list TextPattern.t) :
  Forall (unmatched s) patterns ->
  first_match patterns (Some s) st = (inr None, st).
Proof.
  induction 1 as [|p patterns Hp _ IH]; [reflexivity|].
  cbn [first_match].
  unfold TextPattern.match_, Pattern.match_, Pattern.re__match. py_run.
  unfold unmatched in Hp. rewrite Hp. exact IH.
Qed.

Lemma first_match_first {S} (s m : string) (st : S)
    (before after : list TextPattern.t) (p : TextPattern.t) :
  Forall (unmatched s) before ->
  re_match (Pattern.regex (TextPattern.main p)) s = Some m ->
  first_match (before ++ p :: after) (Some s) st =
    (match Pattern.captures (TextPattern.main p) m with
     | inl e => inl e
     | inr records => inr (Some (p, records))
     end, st).
Proof.
  intros Hbefore Hm.
  induction Hbefore as [|p0 before Hp _ IH]; cbn [app first_match];
    unfold TextPattern.match_, Pattern.match_, Pattern.re__match; py_run.
  - rewrite Hm. unfold lift_result.
    destruct (Pattern.captures (TextPattern.main p) m); reflexivity.
  - unfold unmatched in Hp. rewrite Hp. exact IH.
Qed.

(** X11.  What [_parseText] gives for a text that has a content.  The
    state is never changed.  When none of the patterns of the filter
    matches the content, the result is a failure with the CID of the text.
    Otherwise the first pattern that matches, in the order of
    [criteria.structs], decides alone and the later patterns are not
    tried.  When collecting its captures raises, that exception leaves
    [_parseText]; if not, a text without publication date raises
    [TypeError]; if not, when [prepareForInsertion] raises, as on a cast
    that refuses a value, that exception leaves [_parseText]; otherwise
    the result is a success with the CID, the publication date divided by
    1000 (rounded down) and the rows prepared from the captures, even when
    there are none.  A filter without patterns gives a failure whatever
    the content, a missing one included. *)
Theorem parseText_first_match {S} (text : FilteredText)
    (criteria : SearchFilters) (st : S) :
  (structs criteria = [] ->
   _parseText text criteria st = (inr (Failure (cid text)), st)) /\
  (forall s, content text = Some s ->
   (Forall (unmatched s) (structs criteria) ->
    _parseText text criteria st = (inr (Failure (cid text)), st)) /\
   (forall before p after m,
      structs criteria = before ++ p :: after ->
      Forall (unmatched s) before ->
      re_match (Pattern.regex (TextPattern.main p)) s = Some m ->
      _parseText text criteria st =
        (match Pattern.captures (TextPattern.main p) m with
         | inl e => inl e
         | inr records =>
             match publicationDate text with
             | None => inl TypeError
             | Some milliseconds =>
                 match TextPattern.prepareForInsertion p records (cid text)
                 with
                 | inl e => inl e
                 | inr rows =>
                     inr (Success (cid text) (milliseconds / 1000) rows)
                 end
             end
         end, st))).
Proof.
  split.
  - intros Hnone. unfold _parseText. rewrite Hnone. reflexivity.
  - intros s Hs. split.
    + intros Hall. unfold _parseText. rewrite Hs. py_run.
      pose proof (first_match_none s st (structs criteria) Hall) as Hrun.
      py_run_in Hrun. rewrite Hrun. reflexivity.
    + intros before p after m Heq Hbefore Hm.
      unfold _parseText. rewrite Hs, Heq. py_run.
      pose proof (first_match_first s m st before after p Hbefore Hm) as Hrun.
      py_run_in Hrun. rewrite Hrun.
      destruct (Pattern.captures (TextPattern.main p) m) as [e|records];
        [reflexivity|].
      destruct (publicationDate text); [|reflexivity].
      destruct (TextPattern.prepareForInsertion p records (cid text));
        reflexivity.
Qed.

Lemma helper_empty_page {S} (connector : Connector) (criteria : SearchFilters)
    (pageNumber resultNumber : Z) (st : S) :
  (forall request, exists r,
     post_search connector request = inr r /\
     search_results r = [] /\ 0 < totalResultNumber r) ->
  exists total,
    0 < total /\
    _getTextIdListHelper pageNumber criteria connector resultNumber st =
      (inr (pageNumber + 1, resultNumber + 0, total, []), st).
Proof.
  intros Hempty.
  destruct (Hempty (<["pageNumber" := VInt pageNumber]> (payload criteria)))
    as (r & Hpost & Hres & Htotal).
  exists (totalResultNumber r). split; [exact Htotal|].
  unfold _getTextIdListHelper. py_run. rewrite Hpost, Hres. reflexivity.
Qed.

(** X12.  A listing that cannot end.  When the server keeps answering with
    a positive total and a page without results, the loop of
    [_getTextIdList] never stops: whatever the number of iterations
    allowed, the agent has by then sent one empty page for the first
    request and one for each iteration, and the loop is still running;
    [(Markers.END, criteria)] is never sent. *)
Theorem getTextIdList_never_ends (connector : Connector)
    (criteria : SearchFilters) (fuel : nat) (sent : list LegiMsg) :
  (forall request, exists r,
     post_search connector request = inr r /\
     search_results r = [] /\ 0 < totalResultNumber r) ->
  textProvider_order fuel connector (OrderLegiTextList criteria) sent =
    (inl OutOfFuel,
     sent ++ replicate (S fuel) (LegiTextList criteria [])).
Proof.
  intros Hempty.
  assert (Hloop : forall fuel page total sent,
    0 < total ->
    _getTextIdList_loop fuel connector criteria
      (fun textList => legi_send (LegiTextList criteria textList))
      page 0 total sent =
    (inl OutOfFuel, sent ++ replicate fuel (LegiTextList criteria []))).
  { clear fuel sent. induction fuel as [|fuel IH]; intros page total sent Hpos.
    - cbn [_getTextIdList_loop replicate].
      destruct (Z.ltb_spec 0 total); [|lia].
      rewrite app_nil_r. reflexivity.
    - cbn [_getTextIdList_loop].
      destruct (Z.ltb_spec 0 total); [|lia].
      destruct (helper_empty_page connector criteria page 0 sent Hempty)
        as (total' & Hpos' & Hh).
      py_run. rewrite Hh. unfold legi_send at 1. py_run.
      change (0 + 0) with 0.
      rewrite (IH (page + 1) total' _ Hpos').
      cbn [replicate]. rewrite <- app_assoc. reflexivity. }
  unfold textProvider_order, _getTextIdList.
  destruct (helper_empty_page connector criteria 1 0 sent Hempty)
    as (total & Hpos & Hh).
  py_run. rewrite Hh. unfold legi_send at 1. py_run.
  change (0 + 0) with 0.
  rewrite (Hloop fuel (1 + 1) total _ Hpos).
  cbn [replicate]. rewrite <- app_assoc. reflexivity.
Qed.

Lemma helper_fails {S} (connector : Connector) (criteria : SearchFilters)
    (pageNumber resultNumber : Z) (e : PyExc) (st : S) :
  page_fails connector criteria pageNumber e ->
  _getTextIdListHelper pageNumber criteria connector resultNumber st
    = (inl e, st).
Proof.
  intros [Hpost|(-> & r & Hpost & Hun)];
    unfold _getTextIdListHelper; py_run; rewrite Hpost; [reflexivity|].
  assert (Hm : forall l (s : S), ~ Forall (fun x => titles x <> []) l ->
    mapM (fun x => t ← py_index (titles x) 0; mret (title_cid t)) l s
      = (inl IndexError, s)).
  { induction l as [|x l IH]; intros s Hl.
    - contradiction Hl. constructor.
    - cbn [mapM]. py_run. destruct (titles x) as [|t ts] eqn:Ex.
      + reflexivity.
      + rewrite (py_index_lookup _ _ t) by reflexivity.
        assert (Hl' : ~ Forall (fun x => titles x <> []) l).
        { intros Hall. apply Hl. constructor; [congruence|exact Hall]. }
        specialize (IH s Hl'). py_run_in IH. rewrite IH. reflexivity. }
  specialize (Hm (search_results r) st Hun). py_run_in Hm. rewrite Hm.
  reflexivity.
Qed.

Lemma getTextIdList_loop_fails (connector : Connector)
    (criteria : SearchFilters) (e : PyExc) (rest : list SearchResponse) :
  forall (done : list SearchResponse) (r0 : SearchResponse) (fuel : nat)
         (sent : list LegiMsg),
    let pages := done ++ r0 :: rest in
    serves connector criteria pages ->
    Forall titled pages ->
    (forall (k : nat) (r : SearchResponse),
       pages !! k = Some r ->
       returned (take (S k) pages) < totalResultNumber r) ->
    page_fails connector criteria (Z.of_nat (length pages) + 1) e ->
    (length rest < fuel)%nat ->
    _getTextIdList_loop fuel connector criteria
      (fun textList => legi_send (LegiTextList criteria textList))
      (Z.of_nat (length done) + 2) (returned (done ++ [r0]))
      (totalResultNumber r0) sent =
    (inl e, sent ++ (page_message criteria <$> rest)).
Proof.
  induction rest as [|r rest IH]; intros done r0 fuel sent pages
    Hserve Htitled Hmore Hfail Hfuel.
  - assert (Hlt : returned (done ++ [r0]) < totalResultNumber r0).
    { specialize (Hmore (length done) r0).
      unfold pages in Hmore.
      rewrite lookup_app_r, Nat.sub_diag in Hmore by lia.
      specialize (Hmore eq_refl).
      rewrite take_ge in Hmore by (rewrite length_app; cbn; lia).
      exact Hmore. }
    destruct fuel as [|fuel]; [cbn in Hfuel; lia|].
    cbn [_getTextIdList_loop].
    destruct (Z.ltb_spec (returned (done ++ [r0])) (totalResultNumber r0));
      [|lia].
    py_run.
    replace (Z.of_nat (length done) + 2)
      with (Z.of_nat (length pages) + 1)
      by (unfold pages; rewrite length_app; cbn; lia).
    rewrite (helper_fails connector criteria _ _ e sent Hfail).
    rewrite app_nil_r. reflexivity.
  - assert (Hpages : pages = (done ++ [r0]) ++ r :: rest).
    { unfold pages. rewrite <- app_assoc. reflexivity. }
    assert (Hlt : returned (done ++ [r0]) < totalResultNumber r0).
    { specialize (Hmore (length done) r0).
      unfold pages in Hmore.
      rewrite lookup_app_r, Nat.sub_diag in Hmore by lia.
      specialize (Hmore eq_refl).
      replace (done ++ r0 :: r :: rest) with ((done ++ [r0]) ++ r :: rest)
        in Hmore by (rewrite <- app_assoc; reflexivity).
      rewrite take_app_length' in Hmore by (rewrite length_app; cbn; lia).
      exact Hmore. }
    destruct fuel as [|fuel]; [cbn in Hfuel; lia|].
    cbn [_getTextIdList_loop].
    destruct (Z.ltb_spec (returned (done ++ [r0])) (totalResultNumber r0));
      [|lia].
    py_run.
    assert (Hpost :
      post_search connector
        (<["pageNumber" := VInt (Z.of_nat (length done) + 2)]>
           (payload criteria)) = inr r).
    { replace (Z.of_nat (length done) + 2)
        with (Z.of_nat (Datatypes.S (length done)) + 1) by lia.
      apply Hserve. unfold pages.
      rewrite lookup_app_r by lia.
      replace (Datatypes.S (length done) - length done)%nat with 1%nat by lia.
      reflexivity. }
    assert (Htr : titled r).
    { unfold pages in Htitled. rewrite Forall_app in Htitled.
      destruct Htitled as [_ Ht]. inversion Ht as [|? ? _ Ht']; subst.
      inversion Ht'; subst. assumption. }
    rewrite (getTextIdListHelper_spec _ _ _ _ r sent Hpost Htr).
    unfold legi_send at 1. py_run.
    replace (Z.of_nat (length done) + 2 + 1)
      with (Z.of_nat (length (done ++ [r0])) + 2)
      by (rewrite length_app; simpl; lia).
    rewrite <- returned_snoc.
    rewrite (IH (done ++ [r0]) r fuel
               (sent ++ [LegiTextList criteria (page_cids r)])).
    + rewrite fmap_cons, <- app_assoc. reflexivity.
    + rewrite <- Hpages. exact Hserve.
    + rewrite <- Hpages. exact Htitled.
    + rewrite <- Hpages. exact Hmore.
    + rewrite <- Hpages. exact Hfail.
    + simpl in Hfuel. lia.
Qed.

(** X13.  A listing that breaks.  Let the connector answer the first pages
    of a filter with [pages], every result carrying a title and the
    results returned staying below the reported total, and let the request
    for the next page fail: the connector raises, or it answers with a
    result that has no title.  Then the agent sends the messages of
    [pages], in order, and raises the exception of the connector,
    respectively [IndexError]: nothing of the page that failed is sent and
    [(Markers.END, criteria)] is not sent either.  This covers a failure of
    the very first request, where nothing is sent. *)
Theorem listing_error (connector : Connector) (criteria : SearchFilters)
    (pages : list SearchResponse) (e : PyExc) (fuel : nat)
    (sent : list LegiMsg) :
  serves connector criteria pages ->
  Forall titled pages ->
  (forall (k : nat) (r : SearchResponse),
     pages !! k = Some r ->
     returned (take (S k) pages) < totalResultNumber r) ->
  page_fails connector criteria (Z.of_nat (length pages) + 1) e ->
  (length pages <= fuel)%nat ->
  textProvider_order fuel connector (OrderLegiTextList criteria) sent =
    (inl e, sent ++ (page_message criteria <$> pages)).
Proof.
  intros Hserve Htitled Hmore Hfail Hfuel.
  unfold textProvider_order, _getTextIdList. py_run.
  destruct pages as [|r1 more].
  - rewrite (helper_fails connector criteria _ _ e sent Hfail).
    rewrite app_nil_r. reflexivity.
  - assert (Hpost :
      post_search connector (<["pageNumber" := VInt 1]> (payload criteria))
        = inr r1).
    { apply (Hserve 0%nat r1). reflexivity. }
    assert (Ht1 : titled r1) by (inversion Htitled; assumption).
    rewrite (getTextIdListHelper_spec _ _ _ _ r1 sent Hpost Ht1).
    unfold legi_send at 1. py_run.
    pose proof (getTextIdList_loop_fails connector criteria e more [] r1 fuel
                  (sent ++ [LegiTextList criteria (page_cids r1)])
                  Hserve Htitled Hmore Hfail) as Hloop.
    cbn [length app] in Hloop.
    replace (returned [r1]) with (0 + Z.of_nat (length (search_results r1)))
      in Hloop by (unfold returned; simpl; rewrite app_nil_r; lia).
    change (Z.of_nat 0 + 2) with (1 + 1) in Hloop.
    rewrite Hloop by (cbn in Hfuel; lia).
    rewrite fmap_cons, <- !app_assoc. reflexivity.
Qed.

Lemma filterLegiText_message (text : JorfText) (sent : list LegiMsg) :
  (t ← _filterLegiText text; legi_send (LegiText t)) sent =
    (inr tt, sent ++ [text_message text]).
Proof.
  unfold _filterLegiText, text_message. py_run.
  destruct (articles text) as [|a [|b rest]]; reflexivity.
Qed.

Lemma getText_sent (connector : Connector) (cids : list string)
    (texts : list JorfText) :
  Forall2 (fun c text => post_consult connector c = inr text) cids texts ->
  forall (rest : list string) (sent : list LegiMsg),
    py_for (cids ++ rest) (fun e =>
      result ← lift_result (post_consult connector e);
      (t ← _filterLegiText result; legi_send (LegiText t))) sent =
    py_for rest (fun e =>
      result ← lift_result (post_consult connector e);
      (t ← _filterLegiText result; legi_send (LegiText t)))
      (sent ++ (text_message <$> texts)).
Proof.
  induction 1 as [|c text cids texts Hpost Hrest IH]; intros rest sent.
  - cbn. rewrite app_nil_r. reflexivity.
  - cbn [app py_for]. py_run. rewrite Hpost.
    pose proof (filterLegiText_message text sent) as Hf. py_run_in Hf.
    rewrite Hf. specialize (IH rest (sent ++ [text_message text])).
    py_run_in IH. rewrite IH. rewrite fmap_cons, <- app_assoc. reflexivity.
Qed.

(** X14.  What the agent sends for [(Markers.TEXT, cids)].  When the
    connector answers every CID, the agent sends one [(Markers.TEXT, text)]
    per CID, in the order of the list; each carries the CID and the date of
    its answer, and as content the content of the article when the answer
    holds exactly one article, [None] otherwise.  When the connector raises
    for a CID, the agent has sent the messages of the CIDs before it and
    raises the same exception: the CIDs after it are not requested.  A
    single CID is handled as the list that holds it. *)
Theorem getText_messages (connector : Connector) (fuel : nat)
    (cids : list string) (texts : list JorfText) (sent : list LegiMsg) :
  Forall2 (fun c text => post_consult connector c = inr text) cids texts ->
  textProvider_order fuel connector (OrderLegiText (inr cids)) sent =
    (inr tt, sent ++ (text_message <$> texts)) /\
  (forall c e after,
     post_consult connector c = inl e ->
     textProvider_order fuel connector
       (OrderLegiText (inr (cids ++ c :: after))) sent =
       (inl e, sent ++ (text_message <$> texts))) /\
  (forall c,
     textProvider_order fuel connector (OrderLegiText (inl c)) sent =
     textProvider_order fuel connector (OrderLegiText (inr [c])) sent).
Proof.
  intros Hpost. split; [|split].
  - unfold textProvider_order, _getText.
    pose proof (getText_sent connector cids texts Hpost [] sent) as H.
    rewrite app_nil_r in H. rewrite H. reflexivity.
  - intros c e after Hc. unfold textProvider_order, _getText.
    rewrite (getText_sent connector cids texts Hpost (c :: after) sent).
    cbn [py_for]. py_run. rewrite Hc. reflexivity.
  - reflexivity.
Qed.

End AgentFacts.

(** ** More on the database agent and the Middleman *)

Section CoordinationFacts.
Context `{RE : Regex, LS : LegiStructure, DS : DbStructure, BE : Backend}.
Import DbConnector DbConnectorFacts.

(** X15.  [_storeText] can only store nothing.  Inside the block of
    [createDbManager], the call returns normally exactly when the batch is
    the empty list and the commit of the open transaction goes through;
    it has then committed that transaction and sent [Markers.END] alone.
    In every other case it raises and has neither committed nor sent
    anything: on a batch that holds a text, a single text included, and on
    the empty list when the commit fails. *)
Theorem storeText_returns_iff_empty (s : Store)
    (texts : ParsedText + list ParsedText) :
  in_block (store_conn s) ->
  exists (r : PyExc + unit) (s' : Store),
    _storeText texts s = (r, s') /\
    (r = inr tt <->
     texts = inr [] /\
     commit_fault (committed (db (store_conn s)))
       (pending (db (store_conn s))) = false) /\
    (r = inr tt ->
     store_sent s' = store_sent s ++ [DbEnd] /\
     store_conn s' = on_db db_commit (store_conn s)) /\
    (r <> inr tt ->
     store_sent s' = store_sent s /\
     committed (db (store_conn s')) = committed (db (store_conn s))).
Proof.
  intros [Hpos [c Hc]].
  assert (Hne : forall t l, exists e s',
    _storeText (inr (t :: l)) s = (inl e, s') /\
    store_sent s' = store_sent s /\
    committed (db (store_conn s')) = committed (db (store_conn s))).
  { intros t l.
    destruct (storeText_in_block s t l Hpos) as (e & d' & E & C & _).
    eexists _, _. split; [exact E|]. cbn. auto. }
  destruct texts as [t|[|t l]].
  - destruct (Hne t []) as (e & s' & E & Hs & Hcm).
    exists (inl e), s'. split; [exact E|].
    split; [split; [discriminate|intros [Hx _]; discriminate]|].
    split; [discriminate|]. auto.
  - assert (Hrun : _storeText (inr []) s =
      if commit_fault (committed (db (store_conn s)))
           (pending (db (store_conn s)))
      then (inl DatabaseError,
            {| store_conn := on_db db_rollback (store_conn s);
               store_sent := store_sent s |})
      else (inr tt,
            {| store_conn := on_db db_commit (store_conn s);
               store_sent := store_sent s ++ [DbEnd] |})).
    { unfold _storeText. cbn [partition_texts].
      rewrite !(bool_decide_eq_false_2 (@nil _ ≠ []))
        by (intros Hn; apply Hn; reflexivity).
      py_run. unfold on_conn, commit, connection_commit. py_run. rewrite Hc.
      destruct (commit_fault _ _); reflexivity. }
    destruct (commit_fault _ _) eqn:Hf.
    + eexists _, _. split; [exact Hrun|].
      split; [split; [discriminate|intros [_ Hx]; discriminate]|].
      split; [discriminate|]. intros _. cbn. auto.
    + eexists _, _. split; [exact Hrun|].
      split; [split; auto|].
      split; [intros _; cbn; auto|].
      intros Hn. contradiction Hn. reflexivity.
  - destruct (Hne t l) as (e & s' & E & Hs & Hcm).
    exists (inl e), s'. split; [exact E|].
    split; [split; [discriminate|intros [Hx _]; discriminate]|].
    split; [discriminate|]. auto.
Qed.

Lemma handleOrder_loop_filters (commands : list SearchFilters) :
  forall (self : Middleman) (m : nat) (rest : list Command),
    wait ∈ _commandsSet self ->
    inbox (_fromCommand self) = (CommandFilter <$> commands) ++ rest ->
    exists self1,
      _handleOrder_loop (length commands + m) self
        = _handleOrder_loop m self1 /\
      _commandsSet self1
        = _commandsSet self ∪ list_to_set (filter_ <$> commands) /\
      _commandsDict self1 = _commandsDict self /\
      inbox (_toLegi self1) = inbox (_toLegi self) /\
      outbox (_toLegi self1)
        = outbox (_toLegi self) ++ listing_orders commands /\
      _toDb self1 = _toDb self /\
      inbox (_fromCommand self1) = rest /\
      outbox (_fromCommand self1) = outbox (_fromCommand self).
Proof.
  induction commands as [|c commands IH]; intros self m rest Hw Hin.
  - exists self. cbn. rewrite app_nil_r.
    repeat split; try done. symmetry. apply union_empty_r_L.
  - rewrite fmap_cons in Hin. cbn [app] in Hin.
    cbn [length Nat.add _handleOrder_loop]. py_run.
    unfold poll. rewrite Hin. cbn [andb].
    rewrite bool_decide_eq_true_2 by exact Hw.
    cbn [_handleOrder_message]. py_run.
    match goal with
    | |- context [_handleOrder_loop _ ?s] =>
        destruct (IH s m rest) as (self1 & E & Hset & Hd & Hli & Hlo & Hdb
                                   & Hci & Hco)
    end.
    + cbn. apply elem_of_union_l. exact Hw.
    + cbn. rewrite Hin. reflexivity.
    + exists self1. split; [exact E|].
      cbn in Hset, Hd, Hli, Hlo, Hdb, Hco.
      rewrite Hset, Hd, Hli, Hlo, Hdb, Hci, Hco.
      repeat split; try done.
      * rewrite fmap_cons. cbn [list_to_set]. symmetry. apply (assoc_L (∪)).
      * unfold listing_orders. rewrite fmap_cons, <- app_assoc. reflexivity.
Qed.

Lemma handleOrder_loop_closed (n : nat) (self : Middleman) :
  wait ∉ _commandsSet self ->
  _handleOrder_loop n self = (inr tt, self).
Proof.
  intros Hw. destruct n; [reflexivity|].
  cbn [_handleOrder_loop]. py_run.
  rewrite (bool_decide_eq_false_2 _ Hw), andb_false_r. reflexivity.
Qed.

(** X16.  [_handleOrder] reads the control messages up to the first
    [Markers.END].  While orders are accepted, every search filter read is
    added to the set of the listings under way and one
    [(Markers.TEXT_LIST, filter)] is sent to the Legifrance agent for it,
    in the order of arrival and with repetitions.  [Markers.END] removes
    ["wait"] and ends the reading: the messages behind it stay unread, and
    from then on [_handleOrder] reads nothing and changes nothing. *)
Theorem handleOrder_until_END (self : Middleman)
    (commands : list SearchFilters) (rest : list Command) :
  (wait ∉ _commandsSet self -> _handleOrder self = (inr tt, self)) /\
  (wait ∈ _commandsSet self ->
   inbox (_fromCommand self)
     = (CommandFilter <$> commands) ++ CommandEnd :: rest ->
   exists self',
     _handleOrder self = (inr tt, self') /\
     _commandsSet self'
       = (_commandsSet self ∪ list_to_set (filter_ <$> commands)) ∖ {[wait]} /\
     _commandsDict self' = _commandsDict self /\
     outbox (_toLegi self')
       = outbox (_toLegi self) ++ listing_orders commands /\
     inbox (_fromCommand self') = rest /\
     outbox (_fromCommand self') = outbox (_fromCommand self) /\
     outbox (_toDb self') = outbox (_toDb self)).
Proof.
  split.
  - intros Hw. unfold _handleOrder. py_run.
    apply handleOrder_loop_closed. exact Hw.
  - intros Hw Hin. unfold _handleOrder. py_run. rewrite Hin.
    rewrite length_app, length_fmap. cbn [length].
    destruct (handleOrder_loop_filters commands self (S (length rest))
                (CommandEnd :: rest) Hw Hin)
      as (self1 & E & Hset & Hd & Hli & Hlo & Hdb & Hci & Hco).
    rewrite E. cbn [_handleOrder_loop]. py_run.
    unfold poll. rewrite Hci. cbn [andb].
    assert (Hw1 : wait ∈ _commandsSet self1)
      by (rewrite Hset; apply elem_of_union_l; exact Hw).
    rewrite (bool_decide_eq_true_2 _ Hw1).
    cbn [_handleOrder_message]. unfold set_remove. py_run.
    cbn [set_fromCommand _commandsSet].
    rewrite (bool_decide_eq_true_2 _ Hw1).
    rewrite handleOrder_loop_closed
      by (cbn; rewrite elem_of_difference, elem_of_singleton; tauto).
    eexists. split; [reflexivity|].
    cbn. rewrite Hset, Hd, Hlo, Hci, Hco, Hdb. repeat split; done.
Qed.

Lemma dict_sets (criteria : SearchFilters) (cids : list string) :
  forall self : Middleman,
    py_for cids (fun cid => dict_set cid criteria) self =
      (inr tt,
       set_commandsDict
         (fun d => foldl (fun d c => <[c := criteria]> d) d cids) self).
Proof.
  induction cids as [|c cids IH]; intros self.
  - destruct self. reflexivity.
  - transitivity (py_for cids (fun cid => dict_set cid criteria)
                    (set_commandsDict (<[c := criteria]>) self));
      [reflexivity|].
    rewrite IH. reflexivity.
Qed.

Lemma foldl_insert_lookup (criteria : SearchFilters) (cids : list string) :
  forall (d : gmap string SearchFilters) (k : string),
    foldl (fun d c => <[c := criteria]> d) d cids !! k =
      if bool_decide (k ∈ cids) then Some criteria else d !! k.
Proof.
  induction cids as [|c cids IH]; intros d k.
  - cbn. rewrite bool_decide_eq_false_2 by apply not_elem_of_nil.
    reflexivity.
  - cbn [foldl]. rewrite IH.
    destruct (decide (k ∈ cids)) as [Hin|Hout].
    + rewrite !bool_decide_eq_true_2; [reflexivity|right; exact Hin|exact Hin].
    + rewrite (bool_decide_eq_false_2 _ Hout).
      destruct (decide (k = c)) as [->|Hne].
      * rewrite lookup_insert_eq.
        rewrite bool_decide_eq_true_2 by left. reflexivity.
      * rewrite lookup_insert_ne by congruence.
        rewrite bool_decide_eq_false_2; [reflexivity|].
        rewrite elem_of_cons. tauto.
Qed.

(** X17.  What the Middleman does with the answer
    [(Markers.TEXT_LIST, refCid, cids)] of the database agent.  When
    [refCid] is not tracked, [pop] raises [KeyError] and nothing has
    changed.  When it is tracked, under a filter, the entry of [refCid] is
    taken out and every CID of [cids] is tracked under that filter
    ([refCid] again when it is one of them); the other entries are as
    before.  The Legifrance agent gets one order [(Markers.TEXT, cids)]
    when [cids] is not empty and no order when it is empty. *)
Theorem handleDbMsg_check_reply (self : Middleman) (refCid : string)
    (cids : list string) :
  (_commandsDict self !! refCid = None ->
   _handleDbMsg_message (DbTextList refCid cids) self = (inl KeyError, self)) /\
  (forall criteria,
   _commandsDict self !! refCid = Some criteria ->
   exists self',
     _handleDbMsg_message (DbTextList refCid cids) self = (inr tt, self') /\
     (forall k,
        _commandsDict self' !! k =
          if bool_decide (k ∈ cids) then Some criteria
          else if bool_decide (k = refCid) then None
          else _commandsDict self !! k) /\
     outbox (_toLegi self') =
       outbox (_toLegi self) ++
       (if bool_decide (cids ≠ []) then [OrderLegiText (inr cids)] else []) /\
     _commandsSet self' = _commandsSet self /\
     inbox (_toLegi self') = inbox (_toLegi self) /\
     _toDb self' = _toDb self /\
     _fromCommand self' = _fromCommand self).
Proof.
  split.
  - intros Hnone. cbn [_handleDbMsg_message]. unfold dict_pop, dict_get.
    py_run. rewrite Hnone. reflexivity.
  - intros criteria Hsome. cbn [_handleDbMsg_message].
    unfold dict_pop, dict_get. py_run. rewrite Hsome.
    assert (Hlook : forall k,
      delete refCid (_commandsDict self) !! k =
        if bool_decide (k = refCid) then None else _commandsDict self !! k).
    { intros k. destruct (decide (k = refCid)) as [->|Hne].
      - rewrite lookup_delete_eq, bool_decide_eq_true_2; reflexivity.
      - rewrite lookup_delete_ne by congruence.
        rewrite bool_decide_eq_false_2 by exact Hne. reflexivity. }
    destruct cids as [|c cids].
    + rewrite (bool_decide_eq_false_2 (@nil string ≠ []))
        by (intros Hn; apply Hn; reflexivity).
      eexists. split; [reflexivity|]. cbn.
      split; [|rewrite app_nil_r; auto 10].
      intros k. rewrite bool_decide_eq_false_2 by apply not_elem_of_nil.
      apply Hlook.
    + rewrite (bool_decide_eq_true_2 (c :: cids ≠ [])) by discriminate.
      pose proof (dict_sets criteria (c :: cids)
                    (set_commandsDict (delete refCid) self)) as Hsets.
      py_run_in Hsets. rewrite Hsets.
      eexists. split; [reflexivity|]. cbn [_commandsDict _commandsSet _toLegi
        _toDb _fromCommand set_commandsDict set_toLegi send inbox outbox].
      split; [|auto 10].
      intros k. rewrite foldl_insert_lookup, Hlook. reflexivity.
Qed.

Lemma legi_message_shrinks (message : LegiMsg) (self self' : Middleman)
    (r : PyExc + unit) :
  _handleLegiMsg_message message self = (r, self') ->
  _commandsSet self' ⊆ _commandsSet self /\
  inbox (_toLegi self') = inbox (_toLegi self).
Proof.
  destruct message as [criteria|criteria textList|text]; cbn.
  - unfold set_remove. py_run.
    destruct (bool_decide _); intros E; inversion E; subst; cbn;
      (split; [|reflexivity]).
    + apply subseteq_difference_l. reflexivity.
    + reflexivity.
  - py_run. unfold py_index. destruct (textList !! 0%nat) as [key|]; py_run;
      intros E; inversion E; subst; cbn; auto.
  - unfold dict_get. py_run.
    destruct (_commandsDict self !! cid text) as [criteria|];
      [|intros E; inversion E; subst; auto].
    pose proof (parseText_pure text criteria self) as Hp.
    destruct (_parseText text criteria self) as [[e|parsed] mid];
      simpl in Hp; subst mid; intros E; inversion E; subst; cbn; auto.
Qed.

Lemma legi_loop_second_end (criteria : SearchFilters) (rest : list LegiMsg)
    (between : list LegiMsg) :
  forall (n : nat) (self : Middleman),
    filter_ criteria ∉ _commandsSet self ->
    inbox (_toLegi self) = between ++ LegiEnd criteria :: rest ->
    (length between < n)%nat ->
    exists e self', _handleLegiMsg_loop n self = (inl e, self').
Proof.
  induction between as [|m between IH]; intros n self Hout Hin Hn;
    (destruct n as [|n]; [cbn in Hn; lia|]);
    cbn [_handleLegiMsg_loop]; py_run; rewrite Hin; cbn [app].
  - cbn [_handleLegiMsg_message]. unfold set_remove. py_run.
    cbn [set_toLegi _commandsSet].
    rewrite (bool_decide_eq_false_2 _ Hout). eexists _, _. reflexivity.
  - match goal with
    | |- context [_handleLegiMsg_message m ?s] =>
        destruct (_handleLegiMsg_message m s) as [[e|[]] self1] eqn:E;
          [eexists _, _; reflexivity|];
        destruct (legi_message_shrinks m s self1 _ E) as [Hsub Hbox]
    end.
    cbn in Hsub, Hbox. rewrite Hin in Hbox. cbn in Hbox.
    apply (IH n self1); [|exact Hbox|cbn in Hn; lia].
    intros Hc. apply Hout. apply Hsub. exact Hc.
Qed.

(** X18.  The set of listings does not count.  When the messages of the
    Legifrance agent that [_handleLegiMsg] reads in one call hold
    [(Markers.END, filter)] twice for one filter, as they do when the same
    filter was ordered twice, the handler raises: the first of the two
    takes the filter out of the set, none of the messages between them can
    put it back, and the [remove] of the second raises [KeyError] unless a
    message in between has raised before it. *)
Theorem second_list_end_raises (self : Middleman) (criteria : SearchFilters)
    (before between rest : list LegiMsg) :
  inbox (_toLegi self)
    = before ++ LegiEnd criteria :: between ++ LegiEnd criteria :: rest ->
  exists e self', _handleLegiMsg self = (inl e, self').
Proof.
  intros Hin. unfold _handleLegiMsg. py_run. rewrite Hin.
  assert (Hgen : forall before n self,
    inbox (_toLegi self)
      = before ++ LegiEnd criteria :: between ++ LegiEnd criteria :: rest ->
    (length before + length between + 1 < n)%nat ->
    exists e self', _handleLegiMsg_loop n self = (inl e, self')).
  { clear. induction before as [|m before IH]; intros n self Hin Hn;
      (destruct n as [|n]; [lia|]);
      cbn [_handleLegiMsg_loop]; py_run; rewrite Hin; cbn [app].
    - cbn [_handleLegiMsg_message]. unfold set_remove. py_run.
      cbn [set_toLegi _commandsSet].
      destruct (bool_decide (filter_ criteria ∈ _commandsSet self));
        [|eexists _, _; reflexivity].
      apply (legi_loop_second_end criteria rest between).
      + cbn. rewrite elem_of_difference, elem_of_singleton. tauto.
      + cbn. rewrite Hin. reflexivity.
      + cbn in Hn. lia.
    - match goal with
      | |- context [_handleLegiMsg_message m ?s] =>
          destruct (_handleLegiMsg_message m s) as [[e|[]] self1] eqn:E;
            [eexists _, _; reflexivity|];
          destruct (legi_message_shrinks m s self1 _ E) as [_ Hbox]
      end.
      cbn in Hbox. rewrite Hin in Hbox. cbn in Hbox.
      apply (IH n self1 Hbox). cbn in Hn. lia. }
  apply (Hgen before _ self Hin).
  rewrite !length_app. cbn [length]. rewrite length_app. cbn [length]. lia.
Qed.

Lemma sends_no_END_same (c : M Middleman unit) :
  (forall self r self',
     c self = (r, self') ->
     outbox (_fromCommand self') = outbox (_fromCommand self) /\
     outbox (_toLegi self') = outbox (_toLegi self) /\
     outbox (_toDb self') = outbox (_toDb self)) ->
  sends_no_END c.
Proof.
  intros Hc self r self' E. destruct (Hc self r self' E) as (H1 & H2 & H3).
  split; [exact H1|].
  split; exists []; rewrite app_nil_r; (split; [assumption|]);
    apply not_elem_of_nil.
Qed.

Lemma sends_no_END_bind (c : M Middleman unit) (k : unit -> M Middleman unit) :
  sends_no_END c -> (forall a, sends_no_END (k a)) -> sends_no_END (c ≫= k).
Proof.
  intros Hc Hk self r self' E. py_run_in E.
  destruct (c self) as [[e|a] mid] eqn:Ec.
  - inversion E; subst. apply (Hc _ _ _ Ec).
  - destruct (Hc _ _ _ Ec) as (C1 & (l1 & L1 & N1) & (d1 & D1 & M1)).
    destruct (Hk a _ _ _ E) as (C2 & (l2 & L2 & N2) & (d2 & D2 & M2)).
    split; [congruence|].
    split.
    + exists (l1 ++ l2). rewrite L2, L1, app_assoc. split; [reflexivity|].
      rewrite elem_of_app. tauto.
    + exists (d1 ++ d2). rewrite D2, D1, app_assoc. split; [reflexivity|].
      rewrite elem_of_app. tauto.
Qed.

Lemma sends_no_END_ret : sends_no_END (mret tt).
Proof. apply sends_no_END_same. intros self r self' E. inversion E. auto. Qed.

Lemma sends_no_END_set_remove (x : Item) : sends_no_END (set_remove x).
Proof.
  apply sends_no_END_same. intros self r self' E. revert E.
  unfold set_remove. py_run.
  destruct (bool_decide _); intros E; inversion E; subst; cbn; auto.
Qed.

Lemma sends_no_END_order (message : Command) :
  sends_no_END (_handleOrder_message message).
Proof.
  destruct message as [|criteria]; cbn [_handleOrder_message].
  - apply sends_no_END_set_remove.
  - intros self r self' E. py_run_in E. inversion E; subst. cbn.
    split; [reflexivity|]. split.
    + eexists. split; [reflexivity|].
      intros Hin. apply list_elem_of_singleton in Hin. discriminate.
    + exists []. rewrite app_nil_r. split; [reflexivity|apply not_elem_of_nil].
Qed.

Lemma sends_no_END_legi (message : LegiMsg) :
  sends_no_END (_handleLegiMsg_message message).
Proof.
  destruct message as [criteria|criteria textList|text];
    cbn [_handleLegiMsg_message].
  - apply sends_no_END_set_remove.
  - intros self r self' E. revert E. py_run. unfold py_index.
    destruct (textList !! 0%nat) as [key|]; py_run;
      intros E; inversion E; subst; cbn;
      (split; [reflexivity|]); (split;
        [exists []; rewrite app_nil_r; split;
           [reflexivity|apply not_elem_of_nil]|]);
      (eexists; split; [reflexivity|]);
      intros Hin; apply list_elem_of_singleton in Hin; discriminate.
  - intros self r self' E. revert E. unfold dict_get. py_run.
    destruct (_commandsDict self !! cid text) as [criteria|].
    + pose proof (parseText_pure text criteria self) as Hp.
      destruct (_parseText text criteria self) as [[e|parsed] mid];
        simpl in Hp; subst mid; intros E; inversion E; subst; cbn;
        (split; [reflexivity|]); (split;
          [exists []; rewrite app_nil_r; split;
             [reflexivity|apply not_elem_of_nil]|]).
      * exists []. rewrite app_nil_r. split; [reflexivity|apply not_elem_of_nil].
      * eexists. split; [reflexivity|].
        intros Hin. apply list_elem_of_singleton in Hin. discriminate.
    + intros E; inversion E; subst.
      split; [reflexivity|].
      split; exists []; rewrite app_nil_r;
        (split; [reflexivity|apply not_elem_of_nil]).
Qed.

Lemma sends_no_END_db (message : DbMsg) :
  sends_no_END (_handleDbMsg_message message).
Proof.
  destruct message as [|refCid cids|cid]; cbn [_handleDbMsg_message].
  - apply sends_no_END_ret.
  - intros self r self' E. revert E. unfold dict_pop, dict_get. py_run.
    destruct (_commandsDict self !! refCid) as [criteria|].
    + destruct (bool_decide (cids ≠ [])).
      * pose proof (dict_sets criteria cids
                      (set_commandsDict (delete refCid) self)) as Hsets.
        py_run_in Hsets. rewrite Hsets.
        intros E; inversion E; subst; cbn.
        split; [reflexivity|]. split.
        -- eexists. split; [reflexivity|].
           intros Hin. apply list_elem_of_singleton in Hin. discriminate.
        -- exists []. rewrite app_nil_r.
           split; [reflexivity|apply not_elem_of_nil].
      * intros E; inversion E; subst; cbn.
        split; [reflexivity|].
        split; exists []; rewrite app_nil_r;
          (split; [reflexivity|apply not_elem_of_nil]).
    + intros E; inversion E; subst.
      split; [reflexivity|].
      split; exists []; rewrite app_nil_r;
        (split; [reflexivity|apply not_elem_of_nil]).
  - apply sends_no_END_same. intros self r self' E. revert E.
    unfold dict_pop, dict_get. py_run.
    destruct (_commandsDict self !! cid) as [criteria|];
      intros E; inversion E; subst; cbn; auto.
Qed.

Lemma sends_no_END_received_command (c : M Middleman unit) :
  sends_no_END c ->
  sends_no_END (modify (set_fromCommand received) ;; c).
Proof.
  intros Hc. apply sends_no_END_bind; [|intros _; exact Hc].
  apply sends_no_END_same. intros self r self' E. inversion E. auto.
Qed.

Lemma sends_no_END_handleOrder : sends_no_END _handleOrder.
Proof.
  assert (Hloop : forall n, sends_no_END (_handleOrder_loop n)).
  { induction n as [|n IH]; [apply sends_no_END_ret|].
    intros self r self' E. revert E. cbn [_handleOrder_loop]. py_run.
    destruct (poll (_fromCommand self) && bool_decide (wait ∈ _commandsSet self));
      [|intros E; apply (sends_no_END_ret _ _ _ E)].
    destruct (inbox (_fromCommand self)) as [|message rest];
      [intros E; apply (sends_no_END_ret _ _ _ E)|].
    intros E.
    apply (sends_no_END_received_command
             (_handleOrder_message message ;; _handleOrder_loop n)
             (sends_no_END_bind _ _ (sends_no_END_order message)
                (fun _ => IH)) self r self').
    py_run. exact E. }
  intros self r self' E. unfold _handleOrder in E. py_run_in E.
  apply (Hloop _ _ _ _ E).
Qed.

Lemma sends_no_END_handleLegiMsg : sends_no_END _handleLegiMsg.
Proof.
  assert (Hloop : forall n, sends_no_END (_handleLegiMsg_loop n)).
  { induction n as [|n IH]; [apply sends_no_END_ret|].
    intros self r self' E. revert E. cbn [_handleLegiMsg_loop]. py_run.
    destruct (inbox (_toLegi self)) as [|message rest];
      [intros E; apply (sends_no_END_ret _ _ _ E)|].
    intros E.
    assert (Hstep : sends_no_END
      (modify (set_toLegi received) ;;
       (_handleLegiMsg_message message ;; _handleLegiMsg_loop n))).
    { apply sends_no_END_bind.
      - apply sends_no_END_same. intros s0 r0 s0' E0. inversion E0. auto.
      - intros _. apply sends_no_END_bind; [apply sends_no_END_legi|].
        intros _. exact IH. }
    apply (Hstep self r self'). py_run. exact E. }
  intros self r self' E. unfold _handleLegiMsg in E. py_run_in E.
  apply (Hloop _ _ _ _ E).
Qed.

Lemma sends_no_END_handleDbMsg : sends_no_END _handleDbMsg.
Proof.
  assert (Hloop : forall n, sends_no_END (_handleDbMsg_loop n)).
  { induction n as [|n IH]; [apply sends_no_END_ret|].
    intros self r self' E. revert E. cbn [_handleDbMsg_loop]. py_run.
    destruct (inbox (_toDb self)) as [|message rest];
      [intros E; apply (sends_no_END_ret _ _ _ E)|].
    intros E.
    assert (Hstep : sends_no_END
      (modify (set_toDb received) ;;
       (_handleDbMsg_message message ;; _handleDbMsg_loop n))).
    { apply sends_no_END_bind.
      - apply sends_no_END_same. intros s0 r0 s0' E0. inversion E0. auto.
      - intros _. apply sends_no_END_bind; [apply sends_no_END_db|].
        intros _. exact IH. }
    apply (Hstep self r self'). py_run. exact E. }
  intros self r self' E. unfold _handleDbMsg in E. py_run_in E.
  apply (Hloop _ _ _ _ E).
Qed.

Lemma sends_no_END_turn (a : Arrival) : sends_no_END (Middleman_turn a).
Proof.
  unfold Middleman_turn.
  apply sends_no_END_bind.
  { apply sends_no_END_same. intros s0 r0 s0' E0. inversion E0. auto. }
  intros _. apply sends_no_END_bind; [apply sends_no_END_handleOrder|].
  intros _. apply sends_no_END_bind; [apply sends_no_END_handleLegiMsg|].
  intros _. apply sends_no_END_handleDbMsg.
Qed.

(** X21.  [Markers.END] goes out once, and last.  Whatever arrives and
    however the loop of [Middleman.__init__] ends, none of the handlers
    sends [Markers.END]: while the loop runs, and when a handler raises,
    nothing at all is sent on the control connection and no agent is told
    to stop.  Only when the method returns has [Markers.END] been sent, one
    to each agent and one on the control connection, as the last
    message. *)
Theorem END_only_at_exit (schedule : list Arrival) (self self' : Middleman)
    (r : PyExc + bool) :
  Middleman_loop schedule self = (r, self') ->
  let returned := match r with inr true => true | _ => false end in
  exists (toLegi : list LegiOrder) (toDb : list DbOrder),
    (OrderLegiEnd ∉ toLegi) /\
    (OrderDbEnd ∉ toDb) /\
    outbox (_toLegi self') =
      outbox (_toLegi self) ++ toLegi
      ++ (if returned then [OrderLegiEnd] else []) /\
    outbox (_toDb self') =
      outbox (_toDb self) ++ toDb ++ (if returned then [OrderDbEnd] else []) /\
    outbox (_fromCommand self') =
      outbox (_fromCommand self) ++ (if returned then [END] else []).
Proof.
  revert self. induction schedule as [|a schedule IH]; intros self Hrun;
    rewrite Middleman_loop_unfold in Hrun;
    destruct (_continue self).
  - inversion Hrun; subst. exists [], []. cbn. rewrite !app_nil_r.
    repeat split; try apply not_elem_of_nil.
  - inversion Hrun; subst. exists [], []. cbn.
    repeat split; try apply not_elem_of_nil.
  - py_run_in Hrun.
    destruct (Middleman_turn a self) as [[e|[]] mid] eqn:Eturn.
    + inversion Hrun; subst.
      destruct (sends_no_END_turn a _ _ _ Eturn)
        as (C1 & (l1 & L1 & N1) & (d1 & D1 & M1)).
      exists l1, d1. cbn. rewrite !app_nil_r. auto.
    + destruct (sends_no_END_turn a _ _ _ Eturn)
        as (C1 & (l1 & L1 & N1) & (d1 & D1 & M1)).
      destruct (IH mid Hrun) as (l2 & d2 & N2 & M2 & L2 & D2 & C2).
      exists (l1 ++ l2), (d1 ++ d2).
      rewrite L2, D2, C2, L1, D1, C1, <- !app_assoc.
      repeat split; try reflexivity; rewrite elem_of_app; tauto.
  - inversion Hrun; subst. exists [], []. cbn.
    repeat split; try apply not_elem_of_nil.
Qed.















End CoordinationFacts.

(** ** [Pattern._matchPart] and [Pattern.match] *)

Section PatternFacts.
Context `{RE : Regex, FI : PatternBase.Finder}.
Import Bricks PatternBase.

Lemma t_nested_ind (P : t -> Prop)
    (step : forall rx gr ig nested nm,
       (forall n, nested = Some n -> P n) -> P (mk rx gr ig nested nm)) :
  forall x, P x.
Proof.
  fix go 1. intros [rx gr ig nested nm]. apply step.
  destruct nested as [n|]; intros n' E.
  - injection E as <-. apply go.
  - discriminate.
Qed.

Lemma value_of_dict_set (k k' : string) (v : Val) (d : Dict) :
  value_of k (dict_set k' v d) =
    if String.eqb k k' then Some v else value_of k d.
Proof.
  unfold value_of. induction d as [|[k0 v0] d IH]; cbn.
  - destruct (String.eqb k k'); reflexivity.
  - destruct (String.eqb_spec k' k0) as [->|Hne]; cbn.
    + destruct (String.eqb k k0); reflexivity.
    + destruct (String.eqb_spec k k0) as [->|Hne0]; cbn.
      * destruct (String.eqb_spec k0 k'); [congruence|reflexivity].
      * exact IH.
Qed.

Lemma value_of_entries (f : string -> Val) (keys : list string) :
  forall (acc : Dict) (k : string),
    value_of k (fold_left (fun acc kv => dict_set (fst kv) (snd kv) acc)
                  ((fun key => (key, f key)) <$> keys) acc) =
      if bool_decide (k ∈ keys) then Some (f k) else value_of k acc.
Proof.
  induction keys as [|k0 keys IH]; intros acc k.
  - cbn. rewrite bool_decide_eq_false_2 by apply not_elem_of_nil.
    reflexivity.
  - rewrite fmap_cons. cbn [fold_left fst snd]. rewrite IH.
    destruct (decide (k ∈ keys)) as [Hin|Hout].
    + rewrite !bool_decide_eq_true_2; [reflexivity|right; exact Hin|exact Hin].
    + rewrite (bool_decide_eq_false_2 _ Hout), value_of_dict_set.
      destruct (String.eqb_spec k k0) as [->|Hne].
      * rewrite bool_decide_eq_true_2 by left. reflexivity.
      * rewrite bool_decide_eq_false_2; [reflexivity|].
        rewrite elem_of_cons. tauto.
Qed.

Lemma mapM_values {S A B} (f : A -> M S B) (g : A -> B) (l : list A) (s : S) :
  (forall x, x ∈ l -> f x s = (inr (g x), s)) ->
  mapM f l s = (inr (g <$> l), s).
Proof.
  induction l as [|x l IH]; intros Hf; [reflexivity|].
  cbn [mapM]. py_run. rewrite Hf by left.
  specialize (IH (fun y Hy => Hf y (list_elem_of_further _ _ _ Hy))).
  py_run_in IH. rewrite IH. reflexivity.
Qed.

Lemma existsb_id_fmap {A} (g : A -> bool) (l : list A) :
  existsb id (g <$> l) = existsb g l.
Proof.
  induction l as [|x l IH]; [reflexivity|].
  rewrite fmap_cons. cbn [existsb id]. rewrite IH. reflexivity.
Qed.

Lemma discarded_kept {S} (self : t) (p : Match) (st : S) :
  (forall key, key ∈ fst <$> ignored self -> is_Some (named p !! key)) ->
  discarded (ignored self) p st = (inr (negb (kept self p)), st).
Proof.
  intros Hread. unfold discarded, kept. py_run.
  pose proof (mapM_values (S := S)
    (fun entry => v ← item p (fst entry); mret (is_in v (snd entry)))
    (fun entry => match named p !! fst entry with
                  | Some v => is_in v (snd entry)
                  | None => false
                  end) (ignored self) st) as Hm.
  py_run_in Hm. rewrite Hm.
  - rewrite negb_involutive, existsb_id_fmap. reflexivity.
  - intros entry Hentry. unfold item.
    destruct (Hread (fst entry)) as [v Hv].
    { apply list_elem_of_fmap. exists entry. auto. }
    rewrite Hv. reflexivity.
Qed.

Lemma record_values {S} (keys : list string) (p : Match) (st : S) :
  (forall key, key ∈ keys -> is_Some (named p !! key)) ->
  exists d,
    record keys p st = (inr d, st) /\
    flat d /\
    forall key,
      value_of key d =
        if bool_decide (key ∈ keys)
        then captured <$> named p !! key
        else None.
Proof.
  intros Hread.
  set (f := fun key => captured (default None (named p !! key))).
  exists (fold_left (fun acc kv => dict_set (fst kv) (snd kv) acc)
            ((fun key => (key, f key)) <$> keys) []).
  split; [|split].
  - unfold record. py_run.
    pose proof (mapM_values (S := S)
      (fun key => v ← item p key; mret (key, captured v))
      (fun key => (key, f key)) keys st) as Hm.
    py_run_in Hm. rewrite Hm; [reflexivity|].
    intros key Hkey. unfold item, f.
    destruct (Hread key Hkey) as [v Hv]. rewrite Hv. reflexivity.
  - assert (Hflat : forall acc, flat acc ->
      flat (fold_left (fun acc kv => dict_set (fst kv) (snd kv) acc)
              ((fun key => (key, f key)) <$> keys) acc)).
    { clear. induction keys as [|k keys IH]; intros acc Hacc; [exact Hacc|].
      rewrite fmap_cons. cbn [fold_left fst snd]. apply IH.
      apply BricksFacts.dict_set_flat. exact Hacc. }
    apply Hflat. constructor.
  - intros key. rewrite value_of_entries.
    destruct (decide (key ∈ keys)) as [Hin|Hout].
    + rewrite bool_decide_eq_true_2 by exact Hin.
      destruct (Hread key Hin) as [v Hv]. unfold f. rewrite Hv. reflexivity.
    + rewrite bool_decide_eq_false_2 by exact Hout. reflexivity.
Qed.

Lemma matchPart_spec {S} (self : t) (part : string) (st : S) :
  readable self part ->
  exists records : list Dict,
    _matchPart self part st = (inr records, st) /\
    Forall2 (fun p d =>
      (forall key v,
         key ∈ groups self ->
         key <> name self \/ nestedPattern self = None ->
         named p !! key = Some v ->
         value_of key d = Some (captured v)) /\
      (forall nested,
         nestedPattern self = Some nested ->
         exists sub,
           _matchPart nested (whole p) st = (inr sub, st) /\
           value_of (name self) d = Some (Nested sub)) /\
      (nestedPattern self = None -> flat d))
      (List.filter (kept self) (finditer (regex self) part)) records.
Proof.
  revert part st.
  induction self as [rx gr ig nested nm IHn] using t_nested_ind.
  intros part st Hread. cbn [readable regex groups ignored nestedPattern] in Hread.
  cbn [_matchPart regex groups ignored nestedPattern name].
  set (self := mk rx gr ig nested nm).
  set (body := fun p : Match =>
      skip ← discarded ig p;
      (if (skip : bool) then mret None
       else
         base ← record gr p;
         extra ←
           match nested with
           | Some nested0 =>
               sub ← _matchPart nested0 (whole p);
               mret [(nm, Nested sub)]
           | None => mret []
           end;
         mret (Some (dict_merge base extra))) : M S (option Dict)).
  assert (Hfound : exists found,
    mapM body (finditer rx part) st = (inr found, st) /\
    Forall2 (fun p d =>
      (forall key v,
         key ∈ gr -> key <> nm \/ nested = None ->
         named p !! key = Some v ->
         value_of key d = Some (captured v)) /\
      (forall nested0,
         nested = Some nested0 ->
         exists sub,
           _matchPart nested0 (whole p) st = (inr sub, st) /\
           value_of nm d = Some (Nested sub)) /\
      (nested = None -> flat d))
      (List.filter (kept self) (finditer rx part)) (omap id found)).
  { induction Hread as [|p l [Hkeys Hnested] _ IHl].
    - exists []. split; [reflexivity|constructor].
    - destruct IHl as (found & Hrun & Hrec).
      assert (Hbody : exists o,
        body p st = (inr o, st) /\
        match o with
        | None => kept self p = false
        | Some d =>
            kept self p = true /\
            (forall key v,
               key ∈ gr -> key <> nm \/ nested = None ->
               named p !! key = Some v ->
               value_of key d = Some (captured v)) /\
            (forall nested0,
               nested = Some nested0 ->
               exists sub,
                 _matchPart nested0 (whole p) st = (inr sub, st) /\
                 value_of nm d = Some (Nested sub)) /\
            (nested = None -> flat d)
        end).
      { unfold body. py_run.
        pose proof (discarded_kept self p st) as Hd.
        cbn [ignored self] in Hd. py_run_in Hd. rewrite Hd
          by (intros key Hkey; apply Hkeys; rewrite elem_of_app; auto).
        destruct (kept self p) eqn:Hk; cbn [negb].
        + destruct (record_values (S := S) gr p st)
            as (base & Hbase & Hflat & Hval).
          { intros key Hkey. apply Hkeys. rewrite elem_of_app. auto. }
          py_run_in Hbase. rewrite Hbase.
          destruct nested as [nested0|].
          * destruct (IHn nested0 eq_refl (whole p) st Hnested)
              as (sub & Hsub & _).
            py_run_in Hsub. rewrite Hsub.
            eexists. split; [reflexivity|]. split; [reflexivity|].
            split; [|split; [|discriminate]].
            -- intros key v Hkey [Hne|Hnone] Hv; [|discriminate].
               unfold dict_merge. cbn [fold_left fst snd].
               rewrite value_of_dict_set.
               destruct (String.eqb_spec key nm); [contradiction|].
               rewrite Hval, bool_decide_eq_true_2, Hv by exact Hkey.
               reflexivity.
            -- intros n0 Hn0. inversion Hn0; subst n0. exists sub.
               split; [exact Hsub|].
               unfold dict_merge. cbn [fold_left fst snd].
               rewrite value_of_dict_set, String.eqb_refl. reflexivity.
          * eexists. split; [reflexivity|]. split; [reflexivity|].
            split; [|split; [|intros _; exact Hflat]].
            -- intros key v Hkey _ Hv. unfold dict_merge. cbn [fold_left].
               rewrite Hval, bool_decide_eq_true_2, Hv by exact Hkey.
               reflexivity.
            -- intros n0 Hn0. discriminate.
        + eexists. split; [reflexivity|]. reflexivity. }
      destruct Hbody as (o & Hbody & Ho).
      exists (o :: found). split.
      + cbn [mapM]. py_run. py_run_in Hbody. rewrite Hbody.
        py_run_in Hrun. rewrite Hrun. reflexivity.
      + cbn [List.filter omap id]. destruct o as [d|].
        * destruct Ho as (Hk & Hg & Hn & Hf). rewrite Hk.
          constructor; [auto|exact Hrec].
        * rewrite Ho. exact Hrec. }
  destruct Hfound as (found & Hrun & Hrec).
  exists (omap id found). split; [|exact Hrec].
  fold body. py_run. py_run_in Hrun. rewrite Hrun. reflexivity.
Qed.

(** X19.  What [_matchPart] returns.  When every occurrence found has the
    groups that the pattern and its nested patterns read, [_matchPart]
    returns without raising.  Its result holds one dictionary for each
    occurrence in which no ignored key has captured one of its ignored
    values, in the order of the occurrences; the other occurrences leave
    nothing.  The dictionary of an occurrence gives to each group of the
    pattern what that group captured, and, when there is a nested pattern,
    it holds under the name of the pattern what the nested pattern returns
    on the text of the occurrence; without a nested pattern none of its
    values is a list. *)
Theorem matchPart_records {S} (self : t) (part : string) (st : S) :
  readable self part ->
  exists records : list Dict,
    _matchPart self part st = (inr records, st) /\
    length records
      = length (List.filter (kept self) (finditer (regex self) part)) /\
    Forall2 (fun p d =>
      (forall key v,
         key ∈ groups self ->
         key <> name self \/ nestedPattern self = None ->
         named p !! key = Some v ->
         value_of key d = Some (captured v)) /\
      (forall nested,
         nestedPattern self = Some nested ->
         exists sub,
           _matchPart nested (whole p) st = (inr sub, st) /\
           value_of (name self) d = Some (Nested sub)) /\
      (nestedPattern self = None -> flat d))
      (List.filter (kept self) (finditer (regex self) part)) records.
Proof.
  intros Hread.
  destruct (matchPart_spec self part st Hread) as (records & Hrun & Hrec).
  exists records. split; [exact Hrun|]. split; [|exact Hrec].
  symmetry. eapply Forall2_length. exact Hrec.
Qed.

(** X20.  What [Pattern.match] returns.  A text that is missing makes
    [re.match] raise [TypeError]; a text which the regex does not match at
    its start gives [None].  On a match, and when the occurrences have the
    groups that are read, the method returns a list of dictionaries none
    of whose values is a list; for a pattern without a nested pattern this
    list is the very list of [_matchPart], one dictionary for each
    occurrence that is kept, in their order. *)
Theorem match_outcome {S} (self : t) (text : option string) (st : S) :
  (text = None -> match_ self text st = (inl TypeError, st)) /\
  (forall s,
     text = Some s -> re_match (regex self) s = None ->
     match_ self text st = (inr None, st)) /\
  (forall s m,
     text = Some s -> re_match (regex self) s = Some m ->
     readable self m ->
     exists records,
       match_ self text st = (inr (Some records), st) /\
       Forall flat records /\
       (nestedPattern self = None ->
        _matchPart self m st = (inr records, st) /\
        length records
          = length (List.filter (kept self) (finditer (regex self) m)))).
Proof.
  unfold match_, Pattern.re__match. split; [|split].
  - intros ->. reflexivity.
  - intros s -> Hno. py_run. rewrite Hno. reflexivity.
  - intros s m -> Hm Hread. py_run. rewrite Hm.
    destruct (matchPart_spec self m st Hread) as (records & Hrun & Hrec).
    py_run_in Hrun. rewrite Hrun.
    eexists. split; [reflexivity|].
    split; [apply BricksFacts.flatten_value_flat|].
    intros Hnone.
    assert (Hflat : Forall flat records).
    { clear Hrun. induction Hrec as [|p d ps ds (_ & _ & Hf) _ IH];
        constructor; auto. }
    rewrite (BricksFacts.flatten_flat_list records Hflat).
    split; [reflexivity|].
    symmetry. eapply Forall2_length. exact Hrec.
Qed.

End PatternFacts.

(** * The further properties on sample data *)

Module MoreInstances.
Import Sample Examples.
#[local] Existing Instances regex_literal legi statements.

Lemma flatten_idempotent_witness :
  Bricks.flat [("a", Bricks.Leaf (VInt 1))] /\
  Bricks.flatten (inl [("a", Bricks.Leaf (VInt 1))])
    = [[("a", Bricks.Leaf (VInt 1))]] /\
  Bricks.flatten (inr (Bricks.flatten (inl docstring)))
    = Bricks.flatten (inl docstring).
Proof.
  destruct (BricksFacts.flatten_idempotent (inl docstring))
    as (_ & Hflat & Hagain).
  assert (H : Bricks.flat [("a", Bricks.Leaf (VInt 1))])
    by (repeat constructor).
  split; [exact H|]. split; [exact (Hflat _ H)|exact Hagain].
Defined.

Lemma flatten_length_witness :
  ("b", Bricks.Nested []) ∈ hollow /\
  Bricks.flatten (inl hollow) = [] /\
  length (Bricks.flatten (inl docstring)) = 2%nat.
Proof.
  destruct (BricksFacts.flatten_length hollow []) as (_ & _ & Hvanish).
  destruct (BricksFacts.flatten_length docstring []) as (Hlen & _ & _).
  assert (H : ("b", Bricks.Nested []) ∈ hollow) by (right; left).
  split; [exact H|]. split; [exact (Hvanish "b" H)|].
  rewrite Hlen. reflexivity.
Defined.

Lemma prepareForInsertion_rows_witness :
  TextPatternBase.casts_succeed columns [{["rang" := "12"]}; ∅]
    {["cid" := VStr "A"]} /\
  (exists rows : list Row,
     TextPatternBase.prepareForInsertion columns
       [{["rang" := "12"]}; ∅] {["cid" := VStr "A"]}
       (fun row => modify (fun out => out ++ [row])) []
       = (inr tt, [] ++ rows) /\
     length rows = 2%nat /\
     rows !! 0%nat = Some [VStr "A"; VInt 12]) /\
  (exists rows : list Row,
     TextPatternBase.prepareForInsertion columns
       ([{["rang" := "12"]}; ∅] ++ {["rang" := "x"]} :: [∅])
       {["cid" := VStr "A"]}
       (fun row => modify (fun out => out ++ [row])) []
       = (inl ValueError, [] ++ rows) /\
     length rows = 2%nat).
Proof.
  assert (H : TextPatternBase.casts_succeed columns [{["rang" := "12"]}; ∅]
                {["cid" := VStr "A"]}).
  { intros element arg cast s Hel Harg Hcast Hval Hlook Hs.
    unfold columns in Harg.
    apply elem_of_cons in Harg. destruct Harg as [->|Harg];
      [discriminate|].
    apply elem_of_cons in Harg. destruct Harg as [->|Harg];
      [|apply elem_of_nil in Harg; contradiction].
    injection Hcast as <-.
    apply elem_of_cons in Hel. destruct Hel as [->|Hel].
    - vm_compute in Hlook. injection Hlook as <-. eexists. reflexivity.
    - apply elem_of_cons in Hel. destruct Hel as [->|Hel];
        [|apply elem_of_nil in Hel; contradiction].
      vm_compute in Hlook. discriminate. }
  split; [exact H|].
  destruct (PrepareFacts.prepareForInsertion_rows columns
              [{["rang" := "12"]}; ∅] {["cid" := VStr "A"]} [] H)
    as [(rows & Hrun & Hlen & Hcells) Hraise].
  split.
  - exists rows. split; [exact Hrun|]. split; [exact Hlen|].
    destruct (Hcells 0%nat {["rang" := "12"]} eq_refl)
      as (row & Hrow & Hlenrow & Hcell).
    rewrite Hrow. f_equal.
    destruct (Hcell 0%nat (TextPatternBase.mkArg "cid" None) eq_refl)
      as (Hcid & _).
    destruct (Hcell 1%nat (TextPatternBase.mkArg "rang" (Some to_int)) eq_refl)
      as (_ & _ & _ & Hrang).
    specialize (Hcid (VStr "A") eq_refl).
    specialize (Hrang "12" to_int (VInt 12) eq_refl eq_refl
                  ltac:(discriminate) eq_refl eq_refl).
    destruct row as [|a [|b [|c row]]]; try discriminate.
    cbn in Hcid, Hrang. congruence.
  - assert (Hdone : TextPatternBase.casts_succeed
                      [TextPatternBase.mkArg "cid" None] [{["rang" := "x"]}]
                      {["cid" := VStr "A"]}).
    { intros element arg cast s Hel Harg Hcast.
      apply elem_of_cons in Harg. destruct Harg as [->|Harg];
        [discriminate|apply elem_of_nil in Harg; contradiction]. }
    exact (Hraise {["rang" := "x"]} [∅] [TextPatternBase.mkArg "cid" None] []
             (TextPatternBase.mkArg "rang" (Some to_int)) to_int "x"
             ValueError eq_refl Hdone eq_refl eq_refl ltac:(discriminate)
             eq_refl eq_refl).
Defined.




Lemma executeMany_statements_witness :
  let nbsp := String (ascii_of_nat 160) EmptyString in
  let fs := String (ascii_of_nat 28) EmptyString in
  let nel := String (ascii_of_nat 133) EmptyString in
  let spaced := nbsp +:+ fs +:+ "EXECUTE ins (%s,%s)" +:+ nel in
  Transactions.faultless (BE := backend) /\
  DbConnector.in_block (store_conn store) /\
  (exists w',
     DbConnector.executeMany (BE := backend) "INSERT INTO t VALUES ($1,$2)"
       [[VStr "A"; VInt 1]; [VStr "B"; VInt 2]] (store_conn store)
       = (inl AttributeError, w') /\
     pending (DbConnector.db w') =
       [("PREPARE stmt AS INSERT INTO t VALUES ($1,$2)", []);
        ("EXECUTE stmt (%s,%s)", [VStr "A"; VInt 1]);
        ("EXECUTE stmt (%s,%s)", [VStr "B"; VInt 2]);
        ("DEALLOCATE stmt", [])]) /\
  (exists w',
     DbConnector.executeMany (BE := backend) spaced
       [[VStr "A"; VInt 1]; [VStr "B"; VInt 2]] (store_conn store)
       = (inl AttributeError, w') /\
     pending (DbConnector.db w') =
       [(spaced, [VStr "A"; VInt 1]); (spaced, [VStr "B"; VInt 2])]).
Proof.
  intros nbsp fs nel spaced.
  assert (Hf : Transactions.faultless (BE := backend))
    by (intros c p q a; reflexivity).
  assert (Hb : DbConnector.in_block (store_conn store)).
  { split; cbn; [lia|eexists; reflexivity]. }
  split; [exact Hf|]. split; [exact Hb|]. split.
  - destruct (executeMany_statements (BE := backend)
                "INSERT INTO t VALUES ($1,$2)" [VStr "A"; VInt 1]
                [[VStr "B"; VInt 2]] (store_conn store) Hf Hb)
      as (w' & Hrun & _ & _ & _ & Hp & _).
    exists w'. split; [exact Hrun|]. rewrite Hp. reflexivity.
  - destruct (executeMany_statements (BE := backend) spaced
                [VStr "A"; VInt 1] [[VStr "B"; VInt 2]] (store_conn store)
                Hf Hb)
      as (w' & Hrun & _ & _ & _ & Hp & _).
    exists w'. split; [exact Hrun|]. rewrite Hp. reflexivity.
Defined.


Lemma waitIfNeeded_delay_witness :
  let w0 := LegiConnector.mkState (LegiConnector.__init__ false) (9 # 10) [] in
  let w := snd (LegiConnector.requests few w0) in
  LegiConnector.requests few w0 = (inr tt, w) /\
  (LegiConnector.lapse_Q (LegiConnector.before_sleep instant) < 1)%Q /\
  Z.of_nat (length few) < LegiConnector._QUOTA_LIMIT /\
  exists w',
    LegiConnector._waitIfNeeded "/search" instant w = (inr tt, w') /\
    (LegiConnector.wall w' ==
     LegiConnector.wall w
     + (LegiConnector.lapse_Q (LegiConnector.before_scan1 instant)
        + LegiConnector.lapse_Q (LegiConnector.before_scan2 instant)
        + LegiConnector.lapse_Q (LegiConnector.before_stamp instant)))%Q.
Proof.
  intros w0 w.
  assert (Hreach : LegiConnector.requests few w0 = (inr tt, w))
    by (vm_compute; reflexivity).
  assert (Hfast :
    (LegiConnector.lapse_Q (LegiConnector.before_sleep instant) < 1)%Q)
    by reflexivity.
  assert (Hfew : Z.of_nat (length few) < LegiConnector._QUOTA_LIMIT)
    by reflexivity.
  split; [exact Hreach|]. split; [exact Hfast|]. split; [exact Hfew|].
  destruct (QuotaDelay.waitIfNeeded_delay false (9 # 10) few "/search"
              instant w Hreach Hfast)
    as (w' & Hrun & _ & _ & Heq).
  exists w'. split; [exact Hrun|exact (Heq Hfew)].
Defined.

Lemma waitIfNeeded_fails_only_late_witness :
  let w0 := LegiConnector.mkState (LegiConnector.__init__ false) (9 # 10) [] in
  let w := snd (LegiConnector.requests burst w0) in
  exists w',
    LegiConnector._waitIfNeeded "/search" late w = (inl ValueError, w') /\
    (1 < LegiConnector.lapse_Q (LegiConnector.before_sleep late))%Q /\
    LegiConnector.issued w' = LegiConnector.issued w.
Proof.
  intros w0 w.
  destruct (QuotaDelay.waitIfNeeded_fails_only_late "/search" late w)
    as (r & w' & Hrun & _ & Hiff & Hlate).
  assert (Hr : r = inl ValueError).
  { apply Hiff. split.
    - apply Z.leb_le. vm_compute. reflexivity.
    - eexists _, _. split; [vm_compute; reflexivity|].
      apply Z.ltb_lt. vm_compute. reflexivity. }
  destruct (Hlate Hr) as (Hone & Hissued & _).
  exists w'. rewrite <- Hr. split; [exact Hrun|].
  split; [exact Hone|exact Hissued].
Defined.

Lemma parseText_first_match_witness :
  content (mkFilteredText "B" (Some 1577836800000) (Some "<p>Tableau 2020"))
    = Some "<p>Tableau 2020" /\
  structs TAFilter = [] ++ tableau :: [] /\
  re_match (Pattern.regex (TextPattern.main tableau)) "<p>Tableau 2020"
    = Some "<p>Tableau" /\
  _parseText (S := unit)
    (mkFilteredText "B" (Some 1577836800000) (Some "<p>Tableau 2020"))
    TAFilter tt
    = (inr (Success "B" 1577836800 [[VStr "B"; VStr "<p>Tableau"]]), tt) /\
  _parseText (S := unit)
    (mkFilteredText "B" None (Some "<p>Tableau 2020")) TAFilter tt
    = (inl TypeError, tt) /\
  _parseText (LS := ranking) (S := unit)
    (mkFilteredText "B" (Some 1577836800000) (Some "<p>Rang 3")) TAFilter tt
    = (inl ValueError, tt) /\
  _parseText (LS := ranking) (S := unit)
    (mkFilteredText "B" (Some 1577836800000) (Some "<p>Tableau 2020"))
    TAFilter tt
    = (inr (Success "B" 1577836800 [[VStr "B"; VStr "<p>Tableau"]]), tt).
Proof.
  destruct (parseText_first_match (LS := legi) (S := unit)
              (mkFilteredText "B" (Some 1577836800000)
                 (Some "<p>Tableau 2020"))
              TAFilter tt) as [_ Hsome].
  destruct (Hsome "<p>Tableau 2020" eq_refl) as [_ Hfirst].
  destruct (parseText_first_match (LS := legi) (S := unit)
              (mkFilteredText "B" None (Some "<p>Tableau 2020"))
              TAFilter tt) as [_ Hundated].
  destruct (Hundated "<p>Tableau 2020" eq_refl) as [_ Hnodate].
  destruct (parseText_first_match (LS := ranking) (S := unit)
              (mkFilteredText "B" (Some 1577836800000) (Some "<p>Rang 3"))
              TAFilter tt) as [_ Hrank].
  destruct (Hrank "<p>Rang 3" eq_refl) as [_ Hcast].
  destruct (parseText_first_match (LS := ranking) (S := unit)
              (mkFilteredText "B" (Some 1577836800000)
                 (Some "<p>Tableau 2020"))
              TAFilter tt) as [_ Hlater].
  destruct (Hlater "<p>Tableau 2020" eq_refl) as [_ Hsecond].
  split; [reflexivity|]. split; [reflexivity|]. split; [reflexivity|].
  split; [|split; [|split]].
  - rewrite (Hfirst [] tableau [] "<p>Tableau" eq_refl
               (@List.Forall_nil _ _) eq_refl).
    reflexivity.
  - rewrite (Hnodate [] tableau [] "<p>Tableau" eq_refl
               (@List.Forall_nil _ _) eq_refl).
    reflexivity.
  - rewrite (Hcast [] ranked [tableau] "<p>Rang" eq_refl
               (@List.Forall_nil _ _) eq_refl).
    reflexivity.
  - assert (Hskip : Forall (unmatched "<p>Tableau 2020") [ranked])
      by (repeat constructor).
    rewrite (Hsecond [ranked] tableau [] "<p>Tableau" eq_refl Hskip eq_refl).
    reflexivity.
Defined.

Lemma getTextIdList_never_ends_witness :
  (forall request, exists r,
     post_search empty_pages request = inr r /\
     search_results r = [] /\ 0 < totalResultNumber r) /\
  textProvider_order 2 empty_pages (OrderLegiTextList TAFilter) [] =
    (inl OutOfFuel,
     [LegiTextList TAFilter []; LegiTextList TAFilter [];
      LegiTextList TAFilter []]).
Proof.
  assert (H : forall request, exists r,
     post_search empty_pages request = inr r /\
     search_results r = [] /\ 0 < totalResultNumber r).
  { intros request. eexists. split; [reflexivity|]. split; [reflexivity|].
    reflexivity. }
  split; [exact H|].
  apply (getTextIdList_never_ends (LS := legi) empty_pages TAFilter 2 [] H).
Defined.

Lemma listing_error_witness :
  let pages := [mkSearchResponse 3 [mkSearchResult [mkTitle "A"]]] in
  serves untitled TAFilter pages /\
  Forall titled pages /\
  (forall (k : nat) (r : SearchResponse),
     pages !! k = Some r ->
     returned (take (S k) pages) < totalResultNumber r) /\
  page_fails untitled TAFilter (Z.of_nat (length pages) + 1) IndexError /\
  (length pages <= 5)%nat /\
  textProvider_order 5 untitled (OrderLegiTextList TAFilter) [] =
    (inl IndexError, [LegiTextList TAFilter ["A"]]).
Proof.
  intros pages.
  assert (Hserve : serves untitled TAFilter pages).
  { intros [|[|k]] r Hk; inversion Hk; subst. reflexivity. }
  assert (Htitled : Forall titled pages).
  { repeat constructor. discriminate. }
  assert (Hmore : forall (k : nat) (r : SearchResponse),
     pages !! k = Some r ->
     returned (take (S k) pages) < totalResultNumber r).
  { intros [|[|k]] r Hk; inversion Hk; subst. reflexivity. }
  assert (Hfail : page_fails untitled TAFilter
                    (Z.of_nat (length pages) + 1) IndexError).
  { right. split; [reflexivity|]. eexists. split; [reflexivity|].
    intros Ht. inversion Ht as [|? ? Hx _]. apply Hx. reflexivity. }
  assert (Hfuel : (length pages <= 5)%nat) by (cbn; lia).
  split; [exact Hserve|]. split; [exact Htitled|]. split; [exact Hmore|].
  split; [exact Hfail|]. split; [exact Hfuel|].
  apply (listing_error (LS := legi) untitled TAFilter pages IndexError 5 []
           Hserve Htitled Hmore Hfail Hfuel).
Defined.

Lemma getText_messages_witness :
  let text := mkJorfText "A" (Some 1577836800000) [mkArticle "<p>Tableau 2020"] in
  Forall2 (fun c text => post_consult untitled c = inr text) ["A"] [text] /\
  post_consult untitled "B" = inl KeyError /\
  textProvider_order 0 untitled (OrderLegiText (inr ["A"; "B"; "A"])) [] =
    (inl KeyError,
     [LegiText (mkFilteredText "A" (Some 1577836800000) (Some "<p>Tableau 2020"))]).
Proof.
  intros text.
  assert (H : Forall2 (fun c text => post_consult untitled c = inr text)
                ["A"] [text]) by (repeat constructor).
  split; [exact H|]. split; [reflexivity|].
  destruct (getText_messages (LS := legi) untitled 0 ["A"] [text] [] H) as (_ & Herr & _).
  apply (Herr "B" KeyError ["A"] eq_refl).
Defined.

Lemma storeText_returns_iff_empty_witness :
  DbConnector.in_block (store_conn store) /\
  exists r s',
    _storeText (BE := backend) (inl (Failure "Z")) store = (r, s') /\
    r <> inr tt /\
    store_sent s' = [].
Proof.
  assert (Hb : DbConnector.in_block (store_conn store)).
  { split; cbn; [lia|eexists; reflexivity]. }
  split; [exact Hb|].
  destruct (storeText_returns_iff_empty (BE := backend) store
              (inl (Failure "Z")) Hb)
    as (r & s' & Hrun & Hiff & _ & Hne).
  assert (Hnot : r <> inr tt).
  { intros Hr. apply Hiff in Hr. destruct Hr as [Hr _]. discriminate. }
  exists r, s'. split; [exact Hrun|].
  split; [exact Hnot|].
  apply Hne. exact Hnot.
Defined.

Lemma handleOrder_until_END_witness :
  let self :=
    set_fromCommand
      (arrive [CommandFilter TAFilter; CommandFilter TAFilter; CommandEnd;
               CommandFilter LDAFilter])
      Middleman_new in
  wait ∈ _commandsSet self /\
  inbox (_fromCommand self)
    = (CommandFilter <$> [TAFilter; TAFilter])
      ++ CommandEnd :: [CommandFilter LDAFilter] /\
  exists self',
    _handleOrder self = (inr tt, self') /\
    outbox (_toLegi self')
      = [OrderLegiTextList TAFilter; OrderLegiTextList TAFilter] /\
    inbox (_fromCommand self') = [CommandFilter LDAFilter].
Proof.
  intros self.
  assert (Hw : wait ∈ _commandsSet self) by (apply elem_of_singleton; reflexivity).
  split; [exact Hw|]. split; [reflexivity|].
  destruct (handleOrder_until_END (LS := legi) self [TAFilter; TAFilter]
              [@CommandFilter legi LDAFilter]) as [_ Hread].
  destruct (Hread Hw eq_refl) as (self' & Hrun & _ & _ & Hout & Hin & _).
  exists self'. split; [exact Hrun|]. split; [exact Hout|exact Hin].
Defined.

Lemma handleDbMsg_check_reply_witness :
  _commandsDict tracking_C !! "C" = Some TAFilter /\
  _commandsDict tracking_C !! "A" = None /\
  _handleDbMsg_message (DbTextList "A" ["B"]) tracking_C
    = (inl KeyError, tracking_C) /\
  exists self',
    _handleDbMsg_message (DbTextList "C" ["D"; "E"]) tracking_C
      = (inr tt, self') /\
    _commandsDict self' !! "C" = None /\
    _commandsDict self' !! "E" = Some TAFilter /\
    outbox (_toLegi self') = [OrderLegiText (inr ["D"; "E"])].
Proof.
  assert (HC : _commandsDict tracking_C !! "C" = Some TAFilter)
    by (vm_compute; reflexivity).
  assert (HA : _commandsDict tracking_C !! "A" = None)
    by (vm_compute; reflexivity).
  split; [exact HC|]. split; [exact HA|].
  destruct (handleDbMsg_check_reply (LS := legi) tracking_C "A" ["B"]) as [Hmiss _].
  split; [exact (Hmiss HA)|].
  destruct (handleDbMsg_check_reply (LS := legi) tracking_C "C" ["D"; "E"]) as [_ Hhit].
  destruct (Hhit TAFilter HC) as (self' & Hrun & Hdict & Hout & _).
  exists self'. split; [exact Hrun|].
  split; [rewrite Hdict; vm_compute; reflexivity|].
  split; [rewrite Hdict; vm_compute; reflexivity|exact Hout].
Defined.

Lemma second_list_end_raises_witness :
  let self :=
    set_toLegi
      (arrive [LegiTextList TAFilter ["A"]; LegiEnd TAFilter;
               LegiTextList TAFilter ["A"]; LegiEnd TAFilter])
      (set_commandsSet (fun s => s ∪ {[filter_ TAFilter]}) Middleman_new) in
  inbox (_toLegi self)
    = [LegiTextList TAFilter ["A"]] ++ LegiEnd TAFilter
      :: [LegiTextList TAFilter ["A"]] ++ LegiEnd TAFilter :: [] /\
  exists e self', _handleLegiMsg self = (inl e, self').
Proof.
  intros self.
  split; [reflexivity|].
  apply (second_list_end_raises (LS := legi) self TAFilter
           [@LegiTextList legi TAFilter ["A"]]
           [@LegiTextList legi TAFilter ["A"]] [] eq_refl).
Defined.

Lemma matchPart_records_witness :
  PatternBase.readable (FI := two_found) lines "texte" /\
  exists d,
    PatternBase._matchPart (FI := two_found) (S := unit) lines "texte" tt
      = (inr [d], tt) /\
    PatternBase.value_of "nom" d = Some (Bricks.Leaf (VStr "Dupont")).
Proof.
  assert (H : PatternBase.readable (FI := two_found) lines "texte").
  { cbn. repeat constructor;
      intros key Hkey; cbn in Hkey;
      apply elem_of_cons in Hkey; destruct Hkey as [->|Hkey];
      try (eexists; vm_compute; reflexivity);
      apply elem_of_cons in Hkey; destruct Hkey as [->|Hkey];
      try (eexists; vm_compute; reflexivity);
      apply elem_of_nil in Hkey; contradiction. }
  split; [exact H|].
  destruct (matchPart_records (FI := two_found) (S := unit) lines "texte" tt H)
    as (records & Hrun & _ & Hrec).
  assert (Hk : List.filter (PatternBase.kept lines)
                 (PatternBase.finditer (Finder := two_found)
                    (PatternBase.regex lines) "texte")
               = [PatternBase.mkMatch "ligne 1" {["nom" := Some "Dupont"]}])
    by (vm_compute; reflexivity).
  rewrite Hk in Hrec.
  inversion Hrec as [|p d ps ds (Hval & _) Hrest]; subst.
  inversion Hrest; subst.
  exists d. split; [exact Hrun|].
  apply (Hval "nom" (Some "Dupont")).
  - left.
  - right. reflexivity.
  - vm_compute. reflexivity.
Defined.

Lemma match_outcome_witness :
  re_match (PatternBase.regex lines) "ligne 1 ligne 2" = Some "ligne" /\
  PatternBase.readable (FI := two_found) lines "ligne" /\
  exists records,
    PatternBase.match_ (FI := two_found) (S := unit) lines
      (Some "ligne 1 ligne 2") tt = (inr (Some records), tt) /\
    length records = 1%nat.
Proof.
  assert (H : PatternBase.readable (FI := two_found) lines "ligne").
  { cbn. repeat constructor;
      intros key Hkey; cbn in Hkey;
      apply elem_of_cons in Hkey; destruct Hkey as [->|Hkey];
      try (eexists; vm_compute; reflexivity);
      apply elem_of_cons in Hkey; destruct Hkey as [->|Hkey];
      try (eexists; vm_compute; reflexivity);
      apply elem_of_nil in Hkey; contradiction. }
  split; [reflexivity|]. split; [exact H|].
  destruct (match_outcome (FI := two_found) (S := unit) lines
              (Some "ligne 1 ligne 2") tt) as (_ & _ & Hmatch).
  destruct (Hmatch "ligne 1 ligne 2" "ligne" eq_refl eq_refl H)
    as (records & Hrun & _ & Hplain).
  destruct (Hplain eq_refl) as [_ Hlen].
  exists records. split; [exact Hrun|]. rewrite Hlen. vm_compute. reflexivity.
Defined.

Lemma END_only_at_exit_witness :
  let self' := snd (Middleman_loop schedule Middleman_new) in
  Middleman_loop schedule Middleman_new = (inr true, self') /\
  outbox (_fromCommand self') = [END] /\
  exists toLegi,
    (OrderLegiEnd ∉ toLegi) /\
    outbox (_toLegi self') = toLegi ++ [OrderLegiEnd].
Proof.
  intros self'.
  assert (Hrun : Middleman_loop schedule Middleman_new = (inr true, self'))
    by (vm_compute; reflexivity).
  split; [exact Hrun|].
  destruct (END_only_at_exit (LS := legi) schedule Middleman_new self'
              (inr true) Hrun)
    as (toLegi & toDb & Hlegi & _ & Hout & _ & Hcommand).
  split; [exact Hcommand|].
  exists toLegi. split; [exact Hlegi|exact Hout].
Defined.


End MoreInstances.
